(** * sourcezip: the upload service of [main.py]

    A shallow embedding of the functions of [main.py]
    ([generate_random_string], [process_json_content], [get_folder_name],
    [upload_file_to_github], [upload_file_simple]) together with models of
    the library calls they make ([random.choices], [json.loads],
    [json.dumps], [str.encode], [re.sub], [str.strip], [base64.b64encode],
    [requests.get], [requests.put]).

    Python values are modelled as the program handles them:
    - [str] is a sequence of Unicode code points ([list N]);
    - [bytes] is [list byte];
    - a decoded JSON document is the inductive [json]; a [dict] keeps its
      insertion order, so it is an association list with unique keys;
    - exceptions are the inductive [exn]; a function that can raise returns
      [exn + A];
    - the remote store is a pair of functions ([Remote]), and every request
      that the handler sends is recorded in a trace.

    A float is a binary64 number: [float_of_decimal] rounds a decimal to the
    nearest one as [float] does, and [float_repr] prints the shortest digits
    that read back as [repr] does. What the model leaves out: the texts of
    the exceptions that the libraries raise are shortened; the limits of the
    interpreter (depth of recursion, number of digits of an [int]) and the
    exceptions that are not subclasses of [Exception] are absent. The route
    [root], which returns a constant, and the set-up of the application are
    not modelled. *)

From Stdlib Require Import List String Ascii NArith ZArith Bool Lia.
From Stdlib Require Import NArithRing.
From Stdlib Require Import Strings.Byte.
Import ListNotations.

Local Open Scope N_scope.

(** ** Python [str] and [bytes] *)

Definition str := list N.
Definition bytes := list byte.

Definition str_eqb (a b : str) : bool :=
  if list_eq_dec N.eq_dec a b then true else false.

(** [byte_of n] is the byte of value [n] (for [n < 256]). *)
Definition byte_of (n : N) : byte :=
  match Byte.of_N n with Some b => b | None => x00 end.

Definition is_cont (b : N) : bool := (0x80 <=? b) && (b <? 0xC0).

(** [bytes.decode('utf-8', 'surrogatepass')]: strict UTF-8 (shortest forms
    only, nothing above U+10FFFF), except that the three-byte encodings of
    the surrogates U+D800..U+DFFF are let through. [None] stands for
    [UnicodeDecodeError]. *)
Fixpoint utf8_decode_N (bs : list N) : option str :=
  match bs with
  | [] => Some []
  | b0 :: t0 =>
    if b0 <? 0x80 then option_map (cons b0) (utf8_decode_N t0)
    else if b0 <? 0xC0 then None
    else if b0 <? 0xE0 then
      match t0 with
      | b1 :: t1 =>
        let c := (b0 - 0xC0) * 64 + (b1 - 0x80) in
        if is_cont b1 && (0x80 <=? c)
        then option_map (cons c) (utf8_decode_N t1) else None
      | _ => None
      end
    else if b0 <? 0xF0 then
      match t0 with
      | b1 :: b2 :: t2 =>
        let c := (b0 - 0xE0) * 4096 + (b1 - 0x80) * 64 + (b2 - 0x80) in
        if is_cont b1 && is_cont b2 && (0x800 <=? c)
        then option_map (cons c) (utf8_decode_N t2) else None
      | _ => None
      end
    else if b0 <? 0xF8 then
      match t0 with
      | b1 :: b2 :: b3 :: t3 =>
        let c := (b0 - 0xF0) * 262144 + (b1 - 0x80) * 4096
                 + (b2 - 0x80) * 64 + (b3 - 0x80) in
        if is_cont b1 && is_cont b2 && is_cont b3
           && (0x10000 <=? c) && (c <=? 0x10FFFF)
        then option_map (cons c) (utf8_decode_N t3) else None
      | _ => None
      end
    else None
  end.

Definition utf8_decode (bs : bytes) : option str :=
  utf8_decode_N (map Byte.to_N bs).

Definition is_surrogate (c : N) : bool := (0xD800 <=? c) && (c <=? 0xDFFF).

(** The UTF-8 encoding of one code point; [None] where [str.encode('utf-8')]
    raises [UnicodeEncodeError] (a surrogate). *)
Definition utf8_encode_cp (c : N) : option bytes :=
  if c <? 0x80 then Some [byte_of c]
  else if c <? 0x800 then
    Some [byte_of (0xC0 + c / 64); byte_of (0x80 + c mod 64)]
  else if is_surrogate c then None
  else if c <? 0x10000 then
    Some [byte_of (0xE0 + c / 4096); byte_of (0x80 + (c / 64) mod 64);
          byte_of (0x80 + c mod 64)]
  else if c <=? 0x10FFFF then
    Some [byte_of (0xF0 + c / 262144); byte_of (0x80 + (c / 4096) mod 64);
          byte_of (0x80 + (c / 64) mod 64); byte_of (0x80 + c mod 64)]
  else None.

(** [s.encode('utf-8')] *)
Fixpoint utf8_encode (s : str) : option bytes :=
  match s with
  | [] => Some []
  | c :: t =>
    match utf8_encode_cp c, utf8_encode t with
    | Some b, Some bt => Some (b ++ bt)
    | _, _ => None
    end
  end.

(** A literal of the source: the text whose UTF-8 encoding is the given
    byte string. *)
Definition py (s : string) : str :=
  match utf8_decode (list_byte_of_string s) with Some t => t | None => [] end.

(** [str(n)] for an [int] *)
Fixpoint digits_of_pos (fuel : nat) (n : N) (acc : str) : str :=
  match fuel with
  | O => acc
  | S f =>
    let acc' := (48 + n mod 10) :: acc in
    if n <? 10 then acc' else digits_of_pos f (n / 10) acc'
  end.

Definition str_of_N (n : N) : str :=
  digits_of_pos (S (N.to_nat (N.log2 n))) n [].

Definition str_of_Z (z : Z) : str :=
  match z with
  | Zneg p => 45 :: str_of_N (Npos p)
  | _ => str_of_N (Z.to_N z)
  end.

(** ** Python [float]

    A binary64 number is not a number, an infinity, or a finite number
    [m * 2^(E - 1074)] with a sign, where [m < 2^53] and [E <= 2045], and
    where [m] is at least [2^52] unless [E] is zero (the subnormal numbers
    and the zeros). *)

Inductive float : Type :=
| NaN
| Infinity (negative : bool)
| Finite (negative : bool) (m E : N).

Definition float_eqb (x y : float) : bool :=
  match x, y with
  | NaN, NaN => true
  | Infinity s, Infinity t => Bool.eqb s t
  | Finite s m E, Finite t n F => Bool.eqb s t && (m =? n) && (E =? F)
  | _, _ => false
  end.

(** *** [float(text)]: the nearest binary64 number, a tie going to the even
    one

    [binade A b] is the exponent [E] of the float that [A / b] rounds to,
    when [A / b] is counted in units of [2^-1074]: [2^(E + 52) <= A / b <
    2^(E + 53)], or zero below [2^52]. [round_scaled] rounds [A / b] units
    to an integer number of [2^E] units; beyond the largest finite number
    the result is an infinity. *)

Definition binade (A b : N) : N :=
  if A <? b * 2 ^ 52 then 0
  else
    let s := N.size A - N.size b in
    (if b * 2 ^ s <=? A then s else s - 1) - 52.

Definition round_scaled (negative : bool) (A b : N) : float :=
  let E := binade A b in
  let den := b * 2 ^ E in
  let q := A / den in
  let r := A mod den in
  let q' := if (den <? 2 * r) || ((den =? 2 * r) && N.odd q)
            then q + 1 else q in
  let (m, E') := if q' =? 2 ^ 53 then (2 ^ 52, E + 1) else (q', E) in
  if 2045 <? E' then Infinity negative else Finite negative m E'.

(** The float nearest to [a / b]. *)
Definition round_ratio (negative : bool) (a b : N) : float :=
  round_scaled negative (a * 2 ^ 1074) b.

(** [10^k] for [k >= 0], and 1 otherwise. *)
Definition pow10 (k : Z) : N := 10 ^ Z.to_N k.

(** The float nearest to [d * 10^k]. *)
Definition float_of_decimal (negative : bool) (d : N) (k : Z) : float :=
  round_ratio negative (d * pow10 k) (pow10 (- k)).

(** *** [repr(x)]: the shortest digits that read back as [x]

    [log10_floor] is the greatest [p] with [10^p <= a / b], searched
    downwards. [nearest_digits a b k] is the integer nearest to
    [a / b / 10^k], a tie going to the even one, and the integer on the other
    side of [a / b / 10^k]. [shortest_digits] tries one digit, then two, up
    to sixteen: with each number of digits it takes the nearest decimal if it
    reads back as [x], else the one on the other side if that one reads
    back; the nearest decimal with seventeen digits always reads back. *)

Fixpoint log10_floor (fuel : nat) (p : Z) (a b : N) : Z :=
  match fuel with
  | O => p
  | S f => if pow10 p * b <=? a * pow10 (- p) then p
           else log10_floor f (p - 1) a b
  end.

Definition nearest_digits (a b : N) (k : Z) : N * N :=
  let num := a * pow10 (- k) in
  let den := b * pow10 k in
  let lo := num / den in
  let r := num mod den in
  if (2 * r <? den) || ((2 * r =? den) && N.even lo)
  then (lo, lo + 1) else (lo + 1, lo).

Fixpoint shortest_digits (fuel : nat) (x : float) (negative : bool)
    (a b : N) (k : Z) : N * Z :=
  let (c1, c2) := nearest_digits a b k in
  match fuel with
  | O => (c1, k)
  | S f =>
    if float_eqb (float_of_decimal negative c1 k) x then (c1, k)
    else if float_eqb (float_of_decimal negative c2 k) x then (c2, k)
    else shortest_digits f x negative a b (k - 1)
  end.

(** The digits [d] and the exponent [k] of the shortest decimal [d * 10^k]
    that reads back as the float, for [m > 0]. *)
Definition float_digits (negative : bool) (m E : N) : N * Z :=
  let a := m * 2 ^ E in
  let b := 2 ^ 1074 in
  shortest_digits 16 (Finite negative m E) negative a b
                  (log10_floor 634 310 a b).

Fixpoint strip_zeros (fuel : nat) (d : N) (k : Z) : N * Z :=
  match fuel with
  | O => (d, k)
  | S f =>
    if (0 <? d) && (d mod 10 =? 0) then strip_zeros f (d / 10) (k + 1)
    else (d, k)
  end.

(** The exponent of the scientific notation: a sign and at least two
    digits. *)
Definition exponent_text (ex : Z) : str :=
  let ds := str_of_N (Z.abs_N ex) in
  101 :: (if (ex <? 0)%Z then 45 else 43)
      :: match ds with [_] => 48 :: ds | _ => ds end.

(** The digits [ds] with the decimal point after the first [decpt] of them,
    where [decpt] is the number of digits plus [k]: in scientific notation
    when [decpt] is below -3 or above 16, and with [.0] after an integer. *)
Definition format_digits (ds : str) (k : Z) : str :=
  let n := Z.of_nat (List.length ds) in
  let decpt := (n + k)%Z in
  if ((decpt <=? -4) || (16 <? decpt))%Z then
    match ds with
    | [] => []
    | c :: t =>
      (c :: match t with [] => [] | _ :: _ => 46 :: t end)
      ++ exponent_text (decpt - 1)
    end
  else if (decpt <=? 0)%Z then
    48 :: 46 :: repeat 48 (Z.to_nat (- decpt)) ++ ds
  else if (decpt <? n)%Z then
    firstn (Z.to_nat decpt) ds ++ 46 :: skipn (Z.to_nat decpt) ds
  else ds ++ repeat 48 (Z.to_nat (decpt - n)) ++ [46; 48].

(** [repr(x)], which is also [str(x)] *)
Definition float_repr (x : float) : str :=
  match x with
  | NaN => py "nan"
  | Infinity false => py "inf"
  | Infinity true => py "-inf"
  | Finite negative m E =>
    (if negative then [45] else [])
    ++ (if m =? 0 then py "0.0"
        else
          let (d, k) := float_digits negative m E in
          let (d', k') := strip_zeros (N.to_nat (N.size d)) d k in
          format_digits (str_of_N d') k')
  end.

(** ** Decoded JSON documents

    What [json.loads] returns: [None], [bool], [int], [float], [str], [list]
    and [dict]. A [dict] is the list of its items in insertion order. *)

#[warnings="-register-all"]
Inductive json : Type :=
| JNull
| JBool (b : bool)
| JInt (z : Z)
| JFloat (x : float)
| JString (s : str)
| JArray (items : list json)
| JObject (members : list (str * json)).

Definition dict := list (str * json).

(** [d.get(k)] *)
Fixpoint dict_get (k : str) (d : dict) : option json :=
  match d with
  | [] => None
  | (k', v) :: t => if str_eqb k k' then Some v else dict_get k t
  end.

(** [k in d] *)
Definition dict_has (k : str) (d : dict) : bool :=
  match dict_get k d with Some _ => true | None => false end.

(** [d[k] = v]: an existing key keeps its place, a new one goes last. *)
Fixpoint dict_set (k : str) (v : json) (d : dict) : dict :=
  match d with
  | [] => [(k, v)]
  | (k', v') :: t =>
    if str_eqb k k' then (k, v) :: t else (k', v') :: dict_set k v t
  end.

(** [dict(pairs)] *)
Definition dict_of_pairs (ps : list (str * json)) : dict :=
  fold_left (fun d kv => dict_set (fst kv) (snd kv) d) ps [].

(** ** Exceptions *)

Inductive exn : Type :=
| JSONDecodeError (msg : str)        (* a subclass of ValueError *)
| UnicodeError (msg : str)           (* UnicodeDecodeError, UnicodeEncodeError:
                                        subclasses of ValueError *)
| ValueError (msg : str)
| TypeError (msg : str)
| KeyError (msg : str)
| AttributeError (msg : str)
| HTTPException (status_code : Z) (detail : str)
| OtherException (msg : str).        (* any other subclass of Exception *)

(** [isinstance(e, ValueError)] *)
Definition is_ValueError (e : exn) : bool :=
  match e with
  | JSONDecodeError _ | UnicodeError _ | ValueError _ => true
  | _ => false
  end.

(** [str(e)] *)
Definition exn_str (e : exn) : str :=
  match e with
  | JSONDecodeError m | UnicodeError m | ValueError m | TypeError m
  | KeyError m | AttributeError m | OtherException m => m
  | HTTPException c d => str_of_Z c ++ py ": " ++ d
  end.

(** ** The [json] module: [json.loads] *)

Definition is_ws (c : N) : bool :=
  (c =? 32) || (c =? 9) || (c =? 10) || (c =? 13).

Fixpoint skip_ws (s : str) : str :=
  match s with
  | c :: t => if is_ws c then skip_ws t else s
  | [] => []
  end.

Definition is_digit (c : N) : bool := (48 <=? c) && (c <=? 57).

Fixpoint span_digits (s : str) : str * str :=
  match s with
  | c :: t =>
    if is_digit c then let (d, r) := span_digits t in (c :: d, r) else ([], s)
  | [] => ([], [])
  end.

(** [starts_with p s] is what follows [p] in [s], when [s] starts with [p]. *)
Fixpoint starts_with (p s : str) : option str :=
  match p, s with
  | [], _ => Some s
  | a :: p', b :: s' => if a =? b then starts_with p' s' else None
  | _ :: _, [] => None
  end.

Definition hex_value (c : N) : option N :=
  if is_digit c then Some (c - 48)
  else if (97 <=? c) && (c <=? 102) then Some (c - 87)
  else if (65 <=? c) && (c <=? 70) then Some (c - 55)
  else None.

(** The four hexadecimal digits after a backslash and a [u]. *)
Definition decode_uXXXX (s : str) : option (N * str) :=
  match s with
  | a :: b :: c :: d :: r =>
    match hex_value a, hex_value b, hex_value c, hex_value d with
    | Some x, Some y, Some z, Some w =>
      Some (x * 4096 + y * 256 + z * 16 + w, r)
    | _, _, _, _ => None
    end
  | _ => None
  end.

(** The character an escape letter stands for. *)
Definition backslash (e : N) : option N :=
  if e =? 34 then Some 34 else if e =? 92 then Some 92
  else if e =? 47 then Some 47 else if e =? 98 then Some 8
  else if e =? 102 then Some 12 else if e =? 110 then Some 10
  else if e =? 114 then Some 13 else if e =? 116 then Some 9
  else None.

Definition with_char (c : N) (r : option (str * str)) : option (str * str) :=
  match r with Some (x, rest) => Some (c :: x, rest) | None => None end.

(** [scanstring], strict: the input starts after the opening quote; the
    result is the decoded string and what follows the closing quote. *)
Fixpoint scanstring (fuel : nat) (s : str) : option (str * str) :=
  match fuel with
  | O => None
  | S f =>
    match s with
    | [] => None
    | c :: t =>
      if c =? 34 then Some ([], t)
      else if c =? 92 then
        match t with
        | [] => None
        | e :: t' =>
          if e =? 117 then
            match decode_uXXXX t' with
            | None => None
            | Some (uni, r) =>
              if (0xD800 <=? uni) && (uni <=? 0xDBFF) then
                match starts_with [92; 117] r with
                | Some r1 =>
                  match decode_uXXXX r1 with
                  | None => None
                  | Some (uni2, r2) =>
                    if (0xDC00 <=? uni2) && (uni2 <=? 0xDFFF)
                    then with_char
                           (0x10000 + (uni - 0xD800) * 1024 + (uni2 - 0xDC00))
                           (scanstring f r2)
                    else with_char uni (scanstring f r)
                  end
                | None => with_char uni (scanstring f r)
                end
              else with_char uni (scanstring f r)
            end
          else
            match backslash e with
            | Some ch => with_char ch (scanstring f t')
            | None => None
            end
        end
      else if c <? 32 then None
      else with_char c (scanstring f t)
    end
  end.

Definition scan_string (s : str) : option (str * str) :=
  scanstring (S (List.length s)) s.

(** The number pattern of the scanner: an integer part (an optional minus
    sign, then a single zero or a digit from 1 to 9 followed by any digits),
    then two optional groups, tried greedily: a fraction (a dot and at least
    one digit) and an exponent (e or E, an optional sign, at least one
    digit). *)
Definition scan_int_part (s : str) : option (str * str) :=
  let '(sign, s1) :=
    match s with
    | c :: t => if c =? 45 then ([45], t) else ([], s)
    | [] => ([], s)
    end in
  match s1 with
  | d :: t =>
    if d =? 48 then Some (sign ++ [48], t)
    else if is_digit d
    then let (ds, r) := span_digits t in Some (sign ++ d :: ds, r)
    else None
  | [] => None
  end.

Definition scan_frac (s : str) : str * str :=
  match s with
  | c :: t =>
    if c =? 46 then
      match span_digits t with
      | ([], _) => ([], s)
      | (ds, r) => (46 :: ds, r)
      end
    else ([], s)
  | [] => ([], s)
  end.

Definition scan_exp (s : str) : str * str :=
  match s with
  | e :: t =>
    if (e =? 101) || (e =? 69) then
      let '(sg, t1) :=
        match t with
        | c :: t' => if (c =? 43) || (c =? 45) then ([c], t') else ([], t)
        | [] => ([], t)
        end in
      match span_digits t1 with
      | ([], _) => ([], s)
      | (ds, r) => (e :: sg ++ ds, r)
      end
    else ([], s)
  | [] => ([], s)
  end.

(** [int(lexeme)] for a lexeme of the integer part. *)
Definition decimal_value (ds : str) : N :=
  fold_left (fun a d => a * 10 + (d - 48)) ds 0.

Definition int_of_lexeme (l : str) : Z :=
  match l with
  | c :: t => if c =? 45 then (- Z.of_N (decimal_value t))%Z
              else Z.of_N (decimal_value l)
  | [] => 0%Z
  end.

(** [float(integer + frac + exp)] for the three groups of the number
    pattern: the digits of the integer part and of the fraction, and the
    exponent less the number of digits of the fraction. *)
Definition float_of_parts (ip fp ep : str) : float :=
  let '(negative, int_digits) :=
    match ip with
    | c :: t => if c =? 45 then (true, t) else (false, ip)
    | [] => (false, [])
    end in
  let frac_digits := tl fp in
  let exponent :=
    match tl ep with
    | c :: t => if c =? 45 then (- Z.of_N (decimal_value t))%Z
                else if c =? 43 then Z.of_N (decimal_value t)
                else Z.of_N (decimal_value (c :: t))
    | [] => 0%Z
    end in
  float_of_decimal negative (decimal_value (int_digits ++ frac_digits))
                   (exponent - Z.of_nat (List.length frac_digits)).

Definition match_number (s : str) : option (json * str) :=
  match scan_int_part s with
  | None => None
  | Some (ip, r1) =>
    let (fp, r2) := scan_frac r1 in
    let (ep, r3) := scan_exp r2 in
    match fp, ep with
    | [], [] => Some (JInt (int_of_lexeme ip), r3)
    | _, _ => Some (JFloat (float_of_parts ip fp ep), r3)
    end
  end.

Definition scan_constant (s : str) : option (json * str) :=
  match starts_with (py "NaN") s with
  | Some r => Some (JFloat NaN, r)
  | None =>
    match starts_with (py "Infinity") s with
    | Some r => Some (JFloat (Infinity false), r)
    | None =>
      match starts_with (py "-Infinity") s with
      | Some r => Some (JFloat (Infinity true), r)
      | None => None
      end
    end
  end.

Definition scan_atom (s : str) : option (json * str) :=
  match starts_with (py "null") s with
  | Some r => Some (JNull, r)
  | None =>
    match starts_with (py "true") s with
    | Some r => Some (JBool true, r)
    | None =>
      match starts_with (py "false") s with
      | Some r => Some (JBool false, r)
      | None =>
        match match_number s with
        | Some res => Some res
        | None => scan_constant s
        end
      end
    end
  end.

(** [scan_once]: one JSON value at the head of the input. [scan_items] reads
    the elements of an array after its first bracket and white space,
    [scan_members] the members of an object from the character after the
    quote that opens a key. *)
Fixpoint scan_once (fuel : nat) (s : str) {struct fuel}
  : option (json * str) :=
  match fuel with
  | O => None
  | S f =>
    match s with
    | [] => None
    | c :: t =>
      if c =? 34 then
        match scan_string t with
        | Some (x, r) => Some (JString x, r)
        | None => None
        end
      else if c =? 123 then
        match skip_ws t with
        | c1 :: t1 =>
          if c1 =? 125 then Some (JObject [], t1)
          else if c1 =? 34 then
            match scan_members f t1 with
            | Some (ps, r) => Some (JObject (dict_of_pairs ps), r)
            | None => None
            end
          else None
        | [] => None
        end
      else if c =? 91 then
        match skip_ws t with
        | c1 :: t1 =>
          if c1 =? 93 then Some (JArray [], t1)
          else
            match scan_items f (c1 :: t1) with
            | Some (vs, r) => Some (JArray vs, r)
            | None => None
            end
        | [] => None
        end
      else scan_atom s
    end
  end
with scan_items (fuel : nat) (s : str) {struct fuel}
  : option (list json * str) :=
  match fuel with
  | O => None
  | S f =>
    match scan_once f s with
    | None => None
    | Some (v, r) =>
      match skip_ws r with
      | c :: r' =>
        if c =? 93 then Some ([v], r')
        else if c =? 44 then
          match scan_items f (skip_ws r') with
          | Some (vs, r'') => Some (v :: vs, r'')
          | None => None
          end
        else None
      | [] => None
      end
    end
  end
with scan_members (fuel : nat) (s : str) {struct fuel}
  : option (list (str * json) * str) :=
  match fuel with
  | O => None
  | S f =>
    match scan_string s with
    | None => None
    | Some (k, r) =>
      match skip_ws r with
      | c :: r1 =>
        if c =? 58 then
          match scan_once f (skip_ws r1) with
          | None => None
          | Some (v, r2) =>
            match skip_ws r2 with
            | c2 :: r3 =>
              if c2 =? 125 then Some ([(k, v)], r3)
              else if c2 =? 44 then
                match skip_ws r3 with
                | c3 :: r4 =>
                  if c3 =? 34 then
                    match scan_members f r4 with
                    | Some (ps, r5) => Some ((k, v) :: ps, r5)
                    | None => None
                    end
                  else None
                | [] => None
                end
              else None
            | [] => None
            end
          end
        else None
      | [] => None
      end
    end
  end.

(** [JSONDecoder.decode]: white space, one value, white space, end. [None]
    stands for [JSONDecodeError]. *)
Definition json_decode (s : str) : option json :=
  match scan_once (2 * List.length s + 2) (skip_ws s) with
  | Some (v, r) => match skip_ws r with [] => Some v | _ => None end
  | None => None
  end.

(** *** Decoding the bytes

    [json.loads] applied to [bytes] first guesses the encoding
    ([json.detect_encoding]) and decodes with the [surrogatepass] error
    handler. *)

Inductive encoding : Type :=
| UTF8 | UTF8_SIG | UTF16 | UTF16_BE | UTF16_LE | UTF32 | UTF32_BE | UTF32_LE.

Definition has_prefix (p s : list N) : bool :=
  match starts_with p s with Some _ => true | None => false end.

Definition detect_encoding (b : list N) : encoding :=
  if has_prefix [0; 0; 0xFE; 0xFF] b || has_prefix [0xFF; 0xFE; 0; 0] b
  then UTF32
  else if has_prefix [0xFE; 0xFF] b || has_prefix [0xFF; 0xFE] b then UTF16
  else if has_prefix [0xEF; 0xBB; 0xBF] b then UTF8_SIG
  else
    match b with
    | b0 :: b1 :: b2 :: b3 :: _ =>
      if b0 =? 0 then (if b1 =? 0 then UTF32_BE else UTF16_BE)
      else if b1 =? 0
      then (if (b2 =? 0) && (b3 =? 0) then UTF32_LE else UTF16_LE)
      else UTF8
    | [b0; b1] =>
      if b0 =? 0 then UTF16_BE else if b1 =? 0 then UTF16_LE else UTF8
    | _ => UTF8
    end.

(** The 16-bit units of a byte string, big or little endian. *)
Fixpoint units16 (big : bool) (bs : list N) : option (list N) :=
  match bs with
  | [] => Some []
  | b0 :: t0 =>
    match t0 with
    | b1 :: t1 =>
      option_map (cons (if big then b0 * 256 + b1 else b1 * 256 + b0))
                 (units16 big t1)
    | [] => None
    end
  end.

(** Surrogate pairs are joined; a surrogate alone is let through. *)
Fixpoint join_surrogates (us : list N) : str :=
  match us with
  | [] => []
  | h :: t =>
    match t with
    | l :: t' =>
      if (0xD800 <=? h) && (h <=? 0xDBFF) && (0xDC00 <=? l) && (l <=? 0xDFFF)
      then (0x10000 + (h - 0xD800) * 1024 + (l - 0xDC00)) :: join_surrogates t'
      else h :: join_surrogates t
    | [] => [h]
    end
  end.

Definition utf16_decode (big : bool) (bs : list N) : option str :=
  option_map join_surrogates (units16 big bs).

Fixpoint utf32_decode (big : bool) (bs : list N) : option str :=
  match bs with
  | [] => Some []
  | b0 :: t0 =>
    match t0 with
    | b1 :: b2 :: b3 :: t3 =>
      let c := if big then ((b0 * 256 + b1) * 256 + b2) * 256 + b3
               else ((b3 * 256 + b2) * 256 + b1) * 256 + b0 in
      if c <=? 0x10FFFF then option_map (cons c) (utf32_decode big t3)
      else None
    | _ => None
    end
  end.

Definition decode_detected (b : list N) : option str :=
  match detect_encoding b with
  | UTF8 => utf8_decode_N b
  | UTF8_SIG => utf8_decode_N (skipn 3 b)
  | UTF16 => utf16_decode (has_prefix [0xFE; 0xFF] b) (skipn 2 b)
  | UTF16_BE => utf16_decode true b
  | UTF16_LE => utf16_decode false b
  | UTF32 => utf32_decode (has_prefix [0; 0; 0xFE; 0xFF] b) (skipn 4 b)
  | UTF32_BE => utf32_decode true b
  | UTF32_LE => utf32_decode false b
  end.

(** [json.loads(b)] for [b : bytes]. The texts of the two library errors
    carry a position in Python; the model keeps their fixed part. *)
Definition json_loads (b : bytes) : exn + json :=
  match decode_detected (map Byte.to_N b) with
  | None => inl (UnicodeError (py "codec can't decode bytes"))
  | Some text =>
    match json_decode text with
    | Some v => inr v
    | None => inl (JSONDecodeError (py "Expecting value"))
    end
  end.

(** ** The [json] module: [json.dumps(v, ensure_ascii=False, indent=2)] *)

Definition hex_digit (n : N) : N := if n <? 10 then 48 + n else 87 + n.

(** [floatstr] of the encoder: [repr], except for the three values that are
    not numbers of JSON. *)
Definition floatstr (x : float) : str :=
  match x with
  | NaN => py "NaN"
  | Infinity false => py "Infinity"
  | Infinity true => py "-Infinity"
  | Finite _ _ _ => float_repr x
  end.

Definition escape_char (c : N) : str :=
  if c =? 34 then [92; 34] else if c =? 92 then [92; 92]
  else if c =? 10 then [92; 110] else if c =? 13 then [92; 114]
  else if c =? 9 then [92; 116] else if c =? 8 then [92; 98]
  else if c =? 12 then [92; 102]
  else if c <? 32
  then [92; 117; 48; 48; hex_digit (c / 16); hex_digit (c mod 16)]
  else [c].

Definition encode_basestring (s : str) : str :=
  34 :: flat_map escape_char s ++ [34].

Definition newline_indent (level : nat) : str :=
  10 :: repeat 32 (2 * level).

(** The first element follows the opening bracket and a new line; every
    other one follows a comma and a new line. *)
Definition join_chunks (nl : str) (chunks : list str) : str :=
  match chunks with
  | [] => []
  | c :: cs => nl ++ c ++ List.concat (map (fun x => 44 :: nl ++ x) cs)
  end.

Fixpoint iterencode (level : nat) (v : json) : str :=
  match v with
  | JNull => py "null"
  | JBool true => py "true"
  | JBool false => py "false"
  | JInt z => str_of_Z z
  | JFloat x => floatstr x
  | JString s => encode_basestring s
  | JArray [] => py "[]"
  | JArray items =>
    91 :: join_chunks (newline_indent (S level))
                      (map (iterencode (S level)) items)
    ++ newline_indent level ++ [93]
  | JObject [] => py "{}"
  | JObject members =>
    123 :: join_chunks (newline_indent (S level))
             (map (fun kv => encode_basestring (fst kv) ++ [58; 32]
                             ++ iterencode (S level) (snd kv)) members)
    ++ newline_indent level ++ [125]
  end.

Definition json_dumps (v : json) : str := iterencode 0 v.

(** ** Truth of a value, [bool(v)] *)

Definition truthy (v : json) : bool :=
  match v with
  | JNull => false
  | JBool b => b
  | JInt z => negb (z =? 0)%Z
  | JFloat x => match x with Finite _ m _ => negb (m =? 0) | _ => true end
  | JString s => match s with [] => false | _ => true end
  | JArray l => match l with [] => false | _ => true end
  | JObject d => match d with [] => false | _ => true end
  end.

Definition type_name (v : json) : str :=
  match v with
  | JNull => py "NoneType" | JBool _ => py "bool" | JInt _ => py "int"
  | JFloat _ => py "float" | JString _ => py "str" | JArray _ => py "list"
  | JObject _ => py "dict"
  end.

(** ** Cleaning a name *)

(** The nine characters of the pattern: backslash, slash, star, question
    mark, colon, double quote, less than, greater than, vertical bar. *)
Definition illegal_chars : str := [92; 47; 42; 63; 58; 34; 60; 62; 124].

Definition is_illegal (c : N) : bool := existsb (N.eqb c) illegal_chars.

(** [re.sub(pattern, '', s)] where the pattern is the class of the nine
    characters: every match, one character long, is replaced by nothing. *)
Fixpoint re_sub_illegal (s : str) : str :=
  match s with
  | [] => []
  | c :: t => if is_illegal c then re_sub_illegal t else c :: re_sub_illegal t
  end.

(** [c.isspace()] *)
Definition isspace (c : N) : bool :=
  ((9 <=? c) && (c <=? 13)) || ((0x1C <=? c) && (c <=? 0x20))
  || (c =? 0x85) || (c =? 0xA0) || (c =? 0x1680)
  || ((0x2000 <=? c) && (c <=? 0x200A))
  || (c =? 0x2028) || (c =? 0x2029) || (c =? 0x202F) || (c =? 0x205F)
  || (c =? 0x3000).

Fixpoint lstrip (s : str) : str :=
  match s with
  | c :: t => if isspace c then lstrip t else s
  | [] => []
  end.

Definition rstrip (s : str) : str := rev (lstrip (rev s)).

(** [s.strip()] *)
Definition strip (s : str) : str := rstrip (lstrip s).

(** ** Printing values in messages

    [repr] of a Python string: single quotes unless the string holds a
    single quote and no double quote; backslash, the quote and the control
    characters are escaped. Characters outside ASCII are taken as printable
    from U+00A1 on. *)

Definition hex2 (c : N) : str := [hex_digit (c / 16); hex_digit (c mod 16)].

Definition repr_char (quote c : N) : str :=
  if c =? 92 then [92; 92]
  else if c =? quote then [92; quote]
  else if c =? 9 then [92; 116] else if c =? 10 then [92; 110]
  else if c =? 13 then [92; 114]
  else if (c <? 32) || ((127 <=? c) && (c <? 161)) then 92 :: 120 :: hex2 c
  else [c].

Definition repr_str (s : str) : str :=
  let quote := if existsb (N.eqb 39) s && negb (existsb (N.eqb 34) s)
               then 34 else 39 in
  quote :: flat_map (repr_char quote) s ++ [quote].

Definition join_comma (chunks : list str) : str :=
  match chunks with
  | [] => []
  | c :: cs => c ++ List.concat (map (fun x => 44 :: 32 :: x) cs)
  end.

Fixpoint py_repr (v : json) : str :=
  match v with
  | JNull => py "None"
  | JBool true => py "True"
  | JBool false => py "False"
  | JInt z => str_of_Z z
  | JFloat x => float_repr x
  | JString s => repr_str s
  | JArray items => 91 :: join_comma (map py_repr items) ++ [93]
  | JObject members =>
    123 :: join_comma (map (fun kv => repr_str (fst kv) ++ [58; 32]
                                      ++ py_repr (snd kv)) members) ++ [125]
  end.

(** A value inside an f-string: a string stands for itself. *)
Definition format_value (v : json) : str :=
  match v with
  | JString s => s
  | _ => py_repr v
  end.

(** [v[k]] for a string [k] *)
Definition subscript (v : json) (k : str) : exn + json :=
  match v with
  | JObject d =>
    match dict_get k d with
    | Some x => inr x
    | None => inl (KeyError (repr_str k))
    end
  | JArray _ =>
    inl (TypeError (py "list indices must be integers or slices, not str"))
  | JString _ => inl (TypeError (py "string indices must be integers"))
  | _ => inl (TypeError (py "object is not subscriptable"))
  end.

(** [v.get(k, default)] *)
Definition method_get (v : json) (k : str) (default : json) : exn + json :=
  match v with
  | JObject d =>
    match dict_get k d with
    | Some x => inr x
    | None => inr default
    end
  | _ => inl (AttributeError (py "object has no attribute 'get'"))
  end.

(** ** [base64.b64encode] *)

Definition b64_char (i : N) : N :=
  if i <? 26 then 65 + i
  else if i <? 52 then 97 + (i - 26)
  else if i <? 62 then 48 + (i - 52)
  else if i =? 62 then 43 else 47.

Fixpoint b64encode_N (bs : list N) : list N :=
  match bs with
  | [] => []
  | a :: t =>
    match t with
    | [] => [b64_char (a / 4); b64_char ((a mod 4) * 16); 61; 61]
    | b :: t1 =>
      match t1 with
      | [] => [b64_char (a / 4); b64_char ((a mod 4) * 16 + b / 16);
               b64_char ((b mod 16) * 4); 61]
      | c :: t2 =>
        b64_char (a / 4) :: b64_char ((a mod 4) * 16 + b / 16)
        :: b64_char ((b mod 16) * 4 + c / 64) :: b64_char (c mod 64)
        :: b64encode_N t2
      end
    end
  end.

Definition b64encode (b : bytes) : bytes :=
  map byte_of (b64encode_N (map Byte.to_N b)).

(** ** [generate_random_string]

    [random.random()] returns [a / 2^53] for an integer [a] below [2^53]:
    the random source is the sequence of these integers, and a position in
    it counts the draws. [random.choices(population, k=k)] draws [k] times
    (not at all for a negative [k]) and takes
    [population[floor(random() * n)]] each time, where [n] is the length of
    the population as a float and the product is a binary64 product:
    [round53 m] is the integer nearest to [m] among those with at most 53
    significant bits, a tie going to the even one, so that
    [round53 (a * n) / 2^53] is the floor of the rounded product. *)

Definition round53 (m : N) : N :=
  let s := N.size m - 53 in
  let q := m / 2 ^ s in
  let r := m mod 2 ^ s in
  let half := 2 ^ s / 2 in
  if (half <? r) || ((half =? r) && (0 <? s) && N.odd q)
  then (q + 1) * 2 ^ s else q * 2 ^ s.

Definition ascii_lowercase : str := py "abcdefghijklmnopqrstuvwxyz".

Definition ascii_uppercase : str := py "ABCDEFGHIJKLMNOPQRSTUVWXYZ".

(** [string.ascii_letters] *)
Definition ascii_letters : str := ascii_lowercase ++ ascii_uppercase.

(** [random.choices(population, k=k)] for a string [population]; the
    result holds the characters chosen and the position in the random
    source after the draws. [IndexError] is the exception of an index that
    is out of range. *)
Fixpoint choices (random : nat -> N) (pos : nat) (population : str) (k : nat)
  : exn + (str * nat) :=
  match k with
  | O => inr ([], pos)
  | S k' =>
    let n := N.of_nat (List.length population) in
    let i := round53 (random pos * n) / 2 ^ 53 in
    match nth_error population (N.to_nat i) with
    | None => inl (OtherException (py "string index out of range"))
    | Some c =>
      match choices random (S pos) population k' with
      | inl e => inl e
      | inr (cs, pos') => inr (c :: cs, pos')
      end
    end
  end.

(** [length] is [None] when the argument is left to its default. *)
Definition generate_random_string (random : nat -> N) (pos : nat)
    (length : option Z) : exn + (str * nat) :=
  let length := match length with Some n => n | None => 8%Z end in
  choices random pos ascii_letters (Z.to_nat length).

(** ** [process_json_content] *)

Notation "x <-- m ;;; k" :=
  (match m with inl e => inl e | inr x => k end)
  (at level 61, m at next level, right associativity, only parsing).

(** [d.get(k)]: the value, or [None] *)
Definition get_or_none (k : str) (d : dict) : json :=
  match dict_get k d with Some v => v | None => JNull end.

(** The body of the [try] block. [processed_json] is bound together with the
    three classification variables. *)
Definition process_json_content_try (file_content : bytes)
  : exn + (bytes * str * str * json) :=
  file_json <-- json_loads file_content ;;;
  r <-- match file_json with
        | JObject d =>
          if dict_has (py "bookSourceName") d then
            inr (py "book_source", py "bookSourceName",
                 get_or_none (py "bookSourceName") d, JArray [file_json])
          else if dict_has (py "sourceName") d then
            inr (py "subscription_source", py "sourceName",
                 get_or_none (py "sourceName") d, JArray [file_json])
          else
            inl (ValueError (py "JSON中未找到bookSourceName或sourceName字段"))
        | JArray l =>
          match l with
          | [] => inl (ValueError (py "JSON数组为空"))
          | first_item :: _ =>
            match first_item with
            | JObject d =>
              if dict_has (py "bookSourceName") d then
                inr (py "book_source", py "bookSourceName",
                     get_or_none (py "bookSourceName") d, file_json)
              else if dict_has (py "sourceName") d then
                inr (py "subscription_source", py "sourceName",
                     get_or_none (py "sourceName") d, file_json)
              else
                inl (ValueError
                       (py "JSON数组中未找到bookSourceName或sourceName字段"))
            | _ => inl (ValueError (py "JSON数组中的元素不是对象"))
            end
          end
        | _ => inl (ValueError (py "JSON格式不正确"))
        end ;;;
  let '(file_type, name_field, name_value, processed_json) := r in
  name_value <-- (if truthy name_value then
                    match name_value with
                    | JString s => inr (JString (strip (re_sub_illegal s)))
                    | _ => inl (TypeError
                              (py "expected string or bytes-like object, got '"
                               ++ type_name name_value ++ py "'"))
                    end
                  else inr name_value) ;;;
  let processed_content := json_dumps processed_json in
  match utf8_encode processed_content with
  | Some b => inr (b, file_type, name_field, name_value)
  | None => inl (UnicodeError (py "codec can't encode character"))
  end.

Definition process_json_content (file_content : bytes)
  : exn + (bytes * str * str * json) :=
  match process_json_content_try file_content with
  | inl (JSONDecodeError _) =>
    inl (ValueError (py "上传的文件不是有效的JSON格式"))
  | inl e => inl (ValueError (py "处理JSON内容时出错: " ++ exn_str e))
  | inr r => inr r
  end.

(** ** Three steps of [process_json_content]

    The classification of a dict, the cleaning of the name and the
    serialization, as the body of [process_json_content_try] performs them;
    the lemmas [process_try_object] and [process_try_array] relate them to
    the function. *)

Definition classify (d : dict) : option (str * str * json) :=
  if dict_has (py "bookSourceName") d then
    Some (py "book_source", py "bookSourceName",
          get_or_none (py "bookSourceName") d)
  else if dict_has (py "sourceName") d then
    Some (py "subscription_source", py "sourceName",
          get_or_none (py "sourceName") d)
  else None.

Definition clean_name (name_value : json) : exn + json :=
  if truthy name_value then
    match name_value with
    | JString s => inr (JString (strip (re_sub_illegal s)))
    | _ => inl (TypeError (py "expected string or bytes-like object, got '"
                           ++ type_name name_value ++ py "'"))
    end
  else inr name_value.

Definition serialize (processed_json : json) : option bytes :=
  utf8_encode (json_dumps processed_json).

(** ** [get_folder_name] *)

Definition get_folder_name (file_type : str) : str :=
  if str_eqb file_type (py "book_source") then py "book-sources"
  else if str_eqb file_type (py "subscription_source")
  then py "subscription-sources"
  else py "others".

(** ** The remote store and the handlers' monad

    A response of [requests] is seen through [status_code] and [json()].
    The remote store answers each request with a response or with an
    exception of [requests]. A handler runs in [M]: it can raise, and it
    appends every exchange with the remote store to a trace. *)

Record response : Type := mkResponse
  { status_code : Z;
    resp_json : exn + json }.

Definition headers := list (str * str).

Record Remote : Type := mkRemote
  { requests_get : str -> headers -> exn + response;
    requests_put : str -> headers -> dict -> exn + response }.

Inductive exchange : Type :=
| Get (url : str) (h : headers) (result : exn + response)
| Put (url : str) (h : headers) (data : dict) (result : exn + response).

Definition M (A : Type) : Type := list exchange -> (exn + A) * list exchange.

Definition ret {A} (a : A) : M A := fun tr => (inr a, tr).

Definition raise {A} (e : exn) : M A := fun tr => (inl e, tr).

Definition bind {A B} (m : M A) (k : A -> M B) : M B :=
  fun tr =>
    match m tr with
    | (inr a, tr') => k a tr'
    | (inl e, tr') => (inl e, tr')
    end.

Definition lift {A} (r : exn + A) : M A := fun tr => (r, tr).

(** [try: m except Exception as e: h e] *)
Definition try_except {A} (m : M A) (h : exn -> M A) : M A :=
  fun tr =>
    match m tr with
    | (inl e, tr') => h e tr'
    | r => r
    end.

Definition http_get (remote : Remote) (url : str) (h : headers) : M response :=
  fun tr =>
    let r := requests_get remote url h in (r, tr ++ [Get url h r]).

Definition http_put (remote : Remote) (url : str) (h : headers) (data : dict)
  : M response :=
  fun tr =>
    let r := requests_put remote url h data in (r, tr ++ [Put url h data r]).

Definition run {A} (m : M A) : (exn + A) * list exchange := m [].

Notation "x <- m ;; k" := (bind m (fun x => k))
  (at level 61, m at next level, right associativity).

(** ** [upload_file_to_github] *)

(** The body of the [try] block; [file] is the content that [file.read()]
    returns. *)
Definition upload_file_to_github_try (remote : Remote)
    (repo_name branch commit_message access_token : str) (file : bytes)
  : M str :=
  let file_content := file in
  match file_content with
  | [] => raise (HTTPException 400 (py "文件内容为空"))
  | _ :: _ =>
    r <- lift (process_json_content file_content) ;;
    let '(processed_content, file_type, name_field, name_value) := r in
    if negb (truthy name_value)
    then raise (HTTPException 400 (py "无法从JSON中提取名称"))
    else
      let folder_name := get_folder_name file_type in
      let file_name := format_value name_value ++ py ".json" in
      let file_path := folder_name ++ py "/" ++ file_name in
      let base_url := py "https://api.github.com/repos/" ++ repo_name
                      ++ py "/contents/" ++ file_path in
      let headers :=
        [(py "Authorization", py "token " ++ access_token);
         (py "Accept", py "application/vnd.github.v3+json");
         (py "User-Agent", py "FastAPI-Uploader")] in
      response <- http_get remote base_url headers ;;
      content <- lift (match utf8_decode (b64encode processed_content) with
                       | Some c => inr c
                       | None => inl (UnicodeError
                                        (py "codec can't decode bytes"))
                       end) ;;
      let data := [(py "message", JString commit_message);
                   (py "content", JString content);
                   (py "branch", JString branch)] in
      data <- (if (status_code response =? 200)%Z then
                 file_info <- lift (resp_json response) ;;
                 sha <- lift (subscript file_info (py "sha")) ;;
                 ret (dict_set (py "sha") sha data)
               else ret data) ;;
      upload_response <- http_put remote base_url headers data ;;
      if (status_code upload_response =? 201)%Z
         || (status_code upload_response =? 200)%Z
      then ret file_path
      else
        let error_msg := py "文件上传失败" in
        let error_msg :=
          match (error_detail <-- resp_json upload_response ;;;
                 method_get error_detail (py "message")
                            (JString (py "未知错误"))) with
          | inr m => error_msg ++ py ": " ++ format_value m
          | inl _ => error_msg ++ py "，状态码: "
                     ++ str_of_Z (status_code upload_response)
          end in
        raise (HTTPException 400 error_msg)
  end.

Definition upload_file_to_github (remote : Remote)
    (repo_name branch commit_message access_token : str) (file : bytes)
  : M str :=
  try_except
    (upload_file_to_github_try remote repo_name branch commit_message
                               access_token file)
    (fun e =>
       if is_ValueError e then raise (HTTPException 400 (exn_str e))
       else match e with
            | HTTPException _ _ => raise e
            | _ => raise (HTTPException 500
                            (py "服务器内部错误: " ++ exn_str e))
            end).

(** ** [upload_file_simple] *)

Definition upload_file_simple (remote : Remote) (file : bytes)
    (repo_name branch commit_message access_token : str) : M json :=
  try_except
    (file_path <- upload_file_to_github remote repo_name branch
                    commit_message access_token file ;;
     ret (JObject [(py "message", JString (py "ok"));
                   (py "data", JString file_path)]))
    (fun e =>
       match e with
       | HTTPException _ detail =>
         ret (JObject [(py "message", JString (py "error"));
                       (py "data", JString (py "上传失败: " ++ detail))])
       | _ => raise e
       end).

(** ** The two routes

    The framework fills the defaults of the form fields, and turns what a
    handler returns or raises into a response: a returned value is sent
    with status 200, an [HTTPException] with its own status and its detail
    in the body, any other exception with status 500. *)

Record http_response : Type := mkHttp
  { http_status : Z;
    http_body : json }.

Definition respond (r : exn + json) : http_response :=
  match r with
  | inr v => mkHttp 200 v
  | inl (HTTPException c d) => mkHttp c (JObject [(py "detail", JString d)])
  | inl _ => mkHttp 500 (JString (py "Internal Server Error"))
  end.

Record upload_form : Type := mkUploadForm
  { uf_repo_name : str;
    uf_branch : str;
    uf_commit_message : str;
    uf_access_token : str;
    uf_file : bytes }.

Record simple_form : Type := mkSimpleForm
  { sf_file : bytes;
    sf_repo_name : option str;
    sf_branch : option str;
    sf_commit_message : option str;
    sf_access_token : str }.

Definition form_default (field : option str) (default : str) : str :=
  match field with Some v => v | None => default end.

(** [POST /upload]: the response and the exchanges with the remote store. *)
Definition post_upload (remote : Remote) (f : upload_form)
  : http_response * list exchange :=
  let (r, tr) :=
    run (upload_file_to_github remote (uf_repo_name f) (uf_branch f)
           (uf_commit_message f) (uf_access_token f) (uf_file f)) in
  (respond (match r with inr p => inr (JString p) | inl e => inl e end), tr).

(** [POST /upload-simple] *)
Definition post_upload_simple (remote : Remote) (f : simple_form)
  : http_response * list exchange :=
  let (r, tr) :=
    run (upload_file_simple remote (sf_file f)
           (form_default (sf_repo_name f) (py "NineDrm/sourcezip"))
           (form_default (sf_branch f) (py "main"))
           (form_default (sf_commit_message f) (py "上传书源文件"))
           (sf_access_token f)) in
  (respond r, tr).

(** ** The steps of [upload_file_to_github] after the name check

    The path, the address and the headers of the two requests, the body of
    the write, the text of a refused write and the exception that leaves the
    handler, as the body of [upload_file_to_github] computes them; the lemma
    [upload_accepted_run] relates them to the function. *)

Definition file_path_of (file_type : str) (name_value : json) : str :=
  get_folder_name file_type ++ py "/" ++ (format_value name_value ++ py ".json").

Definition base_url_of (repo_name file_path : str) : str :=
  py "https://api.github.com/repos/" ++ repo_name ++ py "/contents/"
  ++ file_path.

Definition headers_of (access_token : str) : headers :=
  [(py "Authorization", py "token " ++ access_token);
   (py "Accept", py "application/vnd.github.v3+json");
   (py "User-Agent", py "FastAPI-Uploader")].

Definition write_data (commit_message content branch : str)
    (read : response) : exn + dict :=
  let data := [(py "message", JString commit_message);
               (py "content", JString content);
               (py "branch", JString branch)] in
  if (status_code read =? 200)%Z then
    file_info <-- resp_json read ;;;
    sha <-- subscript file_info (py "sha") ;;;
    inr (dict_set (py "sha") sha data)
  else inr data.

Definition failure_text (upload_response : response) : str :=
  match (error_detail <-- resp_json upload_response ;;;
         method_get error_detail (py "message") (JString (py "未知错误"))) with
  | inr m => py "文件上传失败" ++ py ": " ++ format_value m
  | inl _ => py "文件上传失败" ++ py "，状态码: "
             ++ str_of_Z (status_code upload_response)
  end.

Definition write_outcome (file_path : str) (p : exn + response) : exn + str :=
  match p with
  | inl e => inl e
  | inr upload_response =>
    if (status_code upload_response =? 201)%Z
       || (status_code upload_response =? 200)%Z
    then inr file_path
    else inl (HTTPException 400 (failure_text upload_response))
  end.

(** The three [except] clauses of [upload_file_to_github]. *)
Definition reraise (e : exn) : exn :=
  if is_ValueError e then HTTPException 400 (exn_str e)
  else match e with
       | HTTPException _ _ => e
       | _ => HTTPException 500 (py "服务器内部错误: " ++ exn_str e)
       end.

Definition reraised {A} (r : exn + A) : exn + A :=
  match r with inl e => inl (reraise e) | inr a => inr a end.

(** ** Well-formed documents

    The documents that [json.loads] returns: a float is a binary64 number,
    and a dict has no key twice. [delimited] is what follows a value in the
    text that [json.dumps] writes: a comma, a new line, or the end.
    [float_reads_back x]: the scanner reads the text of [x] back as [x]. *)

Definition delimited (rest : str) : bool :=
  match rest with
  | [] => true
  | c :: _ => (c =? 44) || (c =? 10)
  end.

Definition float_wf (x : float) : Prop :=
  match x with
  | Finite _ m E => m < 2 ^ 53 /\ E <= 2045 /\ (2 ^ 52 <= m \/ E = 0)
  | _ => True
  end.

Definition float_reads_back (x : float) : Prop :=
  forall rest, delimited rest = true ->
               scan_atom (floatstr x ++ rest) = Some (JFloat x, rest).

#[warnings="-register-all"]
Inductive json_wf : json -> Prop :=
| wf_null : json_wf JNull
| wf_bool b : json_wf (JBool b)
| wf_int z : json_wf (JInt z)
| wf_float x : float_wf x -> json_wf (JFloat x)
| wf_string s : json_wf (JString s)
| wf_array items : Forall json_wf items -> json_wf (JArray items)
| wf_object members :
    NoDup (map fst members) ->
    Forall (fun kv => json_wf (snd kv)) members ->
    json_wf (JObject members).

(** Induction on a document, with the hypothesis for every element of an
    array and every value of an object. *)
Definition json_nested_ind (P : json -> Prop)
    (Hnull : P JNull) (Hbool : forall b, P (JBool b))
    (Hint : forall z, P (JInt z)) (Hfloat : forall l, P (JFloat l))
    (Hstring : forall s, P (JString s))
    (Harray : forall items, Forall P items -> P (JArray items))
    (Hobject : forall members,
        Forall (fun kv => P (snd kv)) members -> P (JObject members))
  : forall v, P v :=
  fix go (v : json) : P v :=
    match v with
    | JNull => Hnull
    | JBool b => Hbool b
    | JInt z => Hint z
    | JFloat l => Hfloat l
    | JString s => Hstring s
    | JArray items =>
      Harray items
             ((fix all (l : list json) : Forall P l :=
                 match l with
                 | [] => Forall_nil P
                 | x :: t => Forall_cons x (go x) (all t)
                 end) items)
    | JObject members =>
      Hobject members
              ((fix all (l : list (str * json))
                : Forall (fun kv => P (snd kv)) l :=
                  match l with
                  | [] => Forall_nil _
                  | kv :: t => Forall_cons kv (go (snd kv)) (all t)
                  end) members)
    end.

(** The fuel that the scanner needs for a document. *)
Fixpoint jsize (v : json) : nat :=
  match v with
  | JArray items => S (fold_right (fun x n => S (jsize x + n)) 0%nat items)
  | JObject members =>
    S (fold_right (fun kv n => S (jsize (snd kv) + n)) 0%nat members)
  | _ => 1%nat
  end.

Definition items_size (items : list json) : nat :=
  fold_right (fun x n => S (jsize x + n)) 0%nat items.

Definition members_size (members : list (str * json)) : nat :=
  fold_right (fun kv n => S (jsize (snd kv) + n)) 0%nat members.

(** The characters that open a constant or a number. *)
Definition atom_start (c : N) : bool :=
  (c =? 110) || (c =? 116) || (c =? 102) || (c =? 45) || is_digit c
  || (c =? 78) || (c =? 73).

Definition no_digit_start (x : str) : Prop :=
  match x with [] => True | c :: _ => is_digit c = false end.

(** The text of one member of an object. *)
Definition member_chunk (lvl : nat) (kv : str * json) : str :=
  encode_basestring (fst kv) ++ [58; 32] ++ iterencode lvl (snd kv).

(** [scans_back v]: the scanner reads the text of [v] back as [v], at every
    level of indentation and before every delimiter. [starts_value v]: that
    text starts with a character that is neither white space nor a closing
    bracket. *)
Definition scans_back (v : json) : Prop :=
  forall lvl fuel rest,
    (jsize v <= fuel)%nat -> delimited rest = true ->
    scan_once fuel (iterencode lvl v ++ rest) = Some (v, rest).

Definition starts_value (v : json) : Prop :=
  forall lvl, exists c t,
      iterencode lvl v = c :: t /\ is_ws c = false /\ c <> 93.

(** ** Valid JSON, as the specification says it

    The specification speaks of bytes that are, or are not, valid JSON. This
    is the grammar of RFC 8259, and not a part of the program: a JSON text is
    a value between white space, in UTF-8, and a value is an object, an
    array, a number, a string, or one of the three names [false], [null]
    and [true]. The strings and the numbers of the grammar are those that
    [scan_string] and the number pattern accept; the names [NaN], [Infinity]
    and [-Infinity], which [json.loads] accepts and [json.dumps] writes, are
    no values of the grammar. Each recognizer returns what follows the value
    in the text. *)

Definition rfc8259_name (s : str) : option str :=
  match starts_with (py "false") s with
  | Some r => Some r
  | None =>
    match starts_with (py "null") s with
    | Some r => Some r
    | None => starts_with (py "true") s
    end
  end.

Definition rfc8259_number (s : str) : option str :=
  match scan_int_part s with
  | None => None
  | Some (_, r1) => Some (snd (scan_exp (snd (scan_frac r1))))
  end.

Fixpoint rfc8259_value (fuel : nat) (s : str) {struct fuel} : option str :=
  match fuel with
  | O => None
  | S f =>
    match s with
    | [] => None
    | c :: t =>
      if c =? 34 then option_map snd (scan_string t)
      else if c =? 123 then
        match skip_ws t with
        | c1 :: t1 =>
          if c1 =? 125 then Some t1
          else if c1 =? 34 then rfc8259_members f t1
          else None
        | [] => None
        end
      else if c =? 91 then
        match skip_ws t with
        | c1 :: t1 =>
          if c1 =? 93 then Some t1 else rfc8259_elements f (c1 :: t1)
        | [] => None
        end
      else
        match rfc8259_name s with
        | Some r => Some r
        | None => rfc8259_number s
        end
    end
  end
with rfc8259_elements (fuel : nat) (s : str) {struct fuel} : option str :=
  match fuel with
  | O => None
  | S f =>
    match rfc8259_value f s with
    | None => None
    | Some r =>
      match skip_ws r with
      | c :: r' =>
        if c =? 93 then Some r'
        else if c =? 44 then rfc8259_elements f (skip_ws r')
        else None
      | [] => None
      end
    end
  end
with rfc8259_members (fuel : nat) (s : str) {struct fuel} : option str :=
  match fuel with
  | O => None
  | S f =>
    match scan_string s with
    | None => None
    | Some (_, r) =>
      match skip_ws r with
      | c :: r1 =>
        if c =? 58 then
          match rfc8259_value f (skip_ws r1) with
          | None => None
          | Some r2 =>
            match skip_ws r2 with
            | c2 :: r3 =>
              if c2 =? 125 then Some r3
              else if c2 =? 44 then
                match skip_ws r3 with
                | c3 :: r4 => if c3 =? 34 then rfc8259_members f r4 else None
                | [] => None
                end
              else None
            | [] => None
            end
          end
        else None
      | [] => None
      end
    end
  end.

Definition rfc8259_text (s : str) : bool :=
  match rfc8259_value (2 * List.length s + 2) (skip_ws s) with
  | Some r => match skip_ws r with [] => true | _ :: _ => false end
  | None => false
  end.

Definition valid_json (b : bytes) : bool :=
  match utf8_decode_N (map Byte.to_N b) with
  | Some text => rfc8259_text text
  | None => false
  end.

(** ** Sample inputs

    Documents are written with an apostrophe in place of every double
    quote. *)

Definition sample (s : string) : bytes :=
  map (fun b => if Byte.eqb b x27 then x22 else b) (list_byte_of_string s).

(** A remote store with fixed answers: the read has status [g] and a body
    that carries the token [abc123]; the write has status [p] and body
    [body]. *)
Definition fixed_remote (g p : Z) (body : exn + json) : Remote :=
  mkRemote
    (fun _ _ => inr (mkResponse g
                       (inr (JObject [(py "sha", JString (py "abc123"))]))))
    (fun _ _ _ => inr (mkResponse p body)).

(** * The JSON library: the scanner never stops for lack of fuel *)

Lemma starts_with_length (p s r : str) :
  starts_with p s = Some r -> (List.length r + List.length p = List.length s)%nat.
Proof.
  revert s. induction p as [ | a p IH]; intros s; cbn [starts_with].
  - intros H; injection H as <-. cbn. lia.
  - destruct s as [ | b s']; [ discriminate | ].
    destruct (a =? b); [ | discriminate ].
    intros H. specialize (IH _ H). cbn [List.length]. lia.
Qed.

Lemma decode_uXXXX_length s uni r :
  decode_uXXXX s = Some (uni, r) -> (List.length r + 4 = List.length s)%nat.
Proof.
  unfold decode_uXXXX.
  destruct s as [ | a [ | b [ | c [ | d r']]]]; try discriminate.
  destruct (hex_value a), (hex_value b), (hex_value c), (hex_value d);
    try discriminate.
  intros H; injection H as _ <-. cbn [List.length]. lia.
Qed.

Lemma with_char_some c x r y :
  with_char c x = Some (y, r) -> exists y', x = Some (y', r).
Proof.
  destruct x as [[y' r'] | ]; [ | discriminate ].
  intros H; injection H as _ <-. eauto.
Qed.

Lemma scanstring_progress f :
  forall s x r, scanstring f s = Some (x, r) ->
                (List.length r < List.length s)%nat.
Proof.
  induction f as [ | f IH]; intros s x r; cbn [scanstring]; [ discriminate | ].
  destruct s as [ | c t]; [ discriminate | ].
  destruct (c =? 34).
  { intros H; injection H as _ <-. cbn. lia. }
  destruct (c =? 92).
  - destruct t as [ | e t']; [ discriminate | ].
    destruct (e =? 117).
    + destruct (decode_uXXXX t') as [[uni r0] | ] eqn:Hd; [ | discriminate ].
      pose proof (decode_uXXXX_length _ _ _ Hd) as Hl0.
      assert (Hsimple : forall y, with_char uni (scanstring f r0) = Some (y, r)
                                  -> (List.length r < List.length (c :: e :: t'))%nat).
      { intros y Hy. destruct (with_char_some _ _ _ _ Hy) as [y' Hy'].
        specialize (IH _ _ _ Hy'). cbn [List.length]. lia. }
      destruct ((0xD800 <=? uni) && (uni <=? 0xDBFF)); [ | apply Hsimple ].
      destruct (starts_with [92; 117] r0) as [r1 | ] eqn:Hs; [ | apply Hsimple ].
      destruct (decode_uXXXX r1) as [[uni2 r2] | ] eqn:Hd2; [ | discriminate ].
      destruct ((0xDC00 <=? uni2) && (uni2 <=? 0xDFFF)); [ | apply Hsimple ].
      intros Hy. destruct (with_char_some _ _ _ _ Hy) as [y' Hy'].
      specialize (IH _ _ _ Hy').
      pose proof (decode_uXXXX_length _ _ _ Hd2).
      pose proof (starts_with_length _ _ _ Hs).
      cbn [List.length] in *. lia.
    + destruct (backslash e); [ | discriminate ].
      intros Hy. destruct (with_char_some _ _ _ _ Hy) as [y' Hy'].
      specialize (IH _ _ _ Hy'). cbn [List.length]. lia.
  - destruct (c <? 32); [ discriminate | ].
    intros Hy. destruct (with_char_some _ _ _ _ Hy) as [y' Hy'].
    specialize (IH _ _ _ Hy'). cbn [List.length]. lia.
Qed.

Lemma scanstring_fuel f :
  forall s f', (List.length s < f)%nat -> (List.length s < f')%nat ->
               scanstring f s = scanstring f' s.
Proof.
  induction f as [ | f IH]; intros s f' Hf Hf'; [ lia | ].
  destruct f' as [ | f']; [ lia | ].
  cbn [scanstring].
  destruct s as [ | c t]; [ reflexivity | ].
  cbn [List.length] in Hf, Hf'.
  destruct (c =? 34); [ reflexivity | ].
  destruct (c =? 92).
  - destruct t as [ | e t']; [ reflexivity | ].
    cbn [List.length] in Hf, Hf'.
    destruct (e =? 117).
    + destruct (decode_uXXXX t') as [[uni r0] | ] eqn:Hd; [ | reflexivity ].
      pose proof (decode_uXXXX_length _ _ _ Hd) as Hl0.
      assert (Hr0 : scanstring f r0 = scanstring f' r0) by (apply IH; lia).
      destruct ((0xD800 <=? uni) && (uni <=? 0xDBFF));
        [ | rewrite Hr0; reflexivity ].
      destruct (starts_with [92; 117] r0) as [r1 | ] eqn:Hs;
        [ | rewrite Hr0; reflexivity ].
      destruct (decode_uXXXX r1) as [[uni2 r2] | ] eqn:Hd2; [ | reflexivity ].
      destruct ((0xDC00 <=? uni2) && (uni2 <=? 0xDFFF));
        [ | rewrite Hr0; reflexivity ].
      pose proof (decode_uXXXX_length _ _ _ Hd2).
      pose proof (starts_with_length _ _ _ Hs).
      cbn [List.length] in *.
      rewrite (IH r2 f') by lia. reflexivity.
    + destruct (backslash e); [ | reflexivity ].
      rewrite (IH t' f') by lia. reflexivity.
  - destruct (c <? 32); [ reflexivity | ].
    rewrite (IH t f') by lia. reflexivity.
Qed.

Lemma scan_string_progress s x r :
  scan_string s = Some (x, r) -> (List.length r < List.length s)%nat.
Proof. apply scanstring_progress. Qed.

Lemma skip_ws_length s : (List.length (skip_ws s) <= List.length s)%nat.
Proof.
  induction s as [ | c t IH]; [ apply le_n | ].
  cbn [skip_ws]. destruct (is_ws c); cbn [List.length]; lia.
Qed.

Lemma span_digits_length s ds r :
  span_digits s = (ds, r) -> (List.length r <= List.length s)%nat.
Proof.
  revert ds r. induction s as [ | c t IH]; intros ds r; cbn [span_digits].
  - intros H; injection H as _ <-. apply le_n.
  - destruct (is_digit c).
    + destruct (span_digits t) as [d' r'] eqn:Hs.
      intros H; injection H as _ <-. specialize (IH _ _ eq_refl).
      cbn [List.length]. lia.
    + intros H; injection H as _ <-. apply le_n.
Qed.

Lemma scan_atom_progress s v r :
  scan_atom s = Some (v, r) -> (List.length r < List.length s)%nat.
Proof.
  assert (Hsw : forall (p : str) r', p <> [] -> starts_with p s = Some r' ->
                                     (List.length r' < List.length s)%nat).
  { intros p r' Hp H. pose proof (starts_with_length _ _ _ H).
    destruct p; [ congruence | cbn [List.length] in *; lia ]. }
  unfold scan_atom, scan_constant.
  destruct (starts_with (py "null") s) eqn:H1.
  { intros H; injection H as _ <-. eapply Hsw; [ | exact H1 ]. discriminate. }
  destruct (starts_with (py "true") s) eqn:H2.
  { intros H; injection H as _ <-. eapply Hsw; [ | exact H2 ]. discriminate. }
  destruct (starts_with (py "false") s) eqn:H3.
  { intros H; injection H as _ <-. eapply Hsw; [ | exact H3 ]. discriminate. }
  destruct (match_number s) as [[v' r'] | ] eqn:Hm.
  { intros H; injection H as _ <-. unfold match_number in Hm.
    destruct (scan_int_part s) as [[ip r1] | ] eqn:Hi; [ | discriminate ].
    destruct (scan_frac r1) as [fp r2] eqn:Hf.
    destruct (scan_exp r2) as [ep r3] eqn:He.
    assert (Hr' : r' = r3) by (destruct fp, ep; congruence).
    subst r'. clear Hm.
    assert (H1' : (List.length r1 < List.length s)%nat).
    { unfold scan_int_part in Hi. destruct s as [ | c t]; [ discriminate | ].
      assert (Hb : forall sign (s1 : str),
                 match s1 with
                 | d :: t0 =>
                   if d =? 48 then Some (sign ++ [48], t0)
                   else if is_digit d
                        then let (ds, r) := span_digits t0 in
                             Some (sign ++ d :: ds, r)
                        else None
                 | [] => None
                 end = Some (ip, r1) ->
                 (List.length r1 < List.length s1)%nat).
      { intros sign s1. destruct s1 as [ | d t0]; [ discriminate | ].
        destruct (d =? 48).
        - intros H; injection H as _ <-. cbn. lia.
        - destruct (is_digit d); [ | discriminate ].
          destruct (span_digits t0) as [ds r] eqn:Hs.
          intros H; injection H as _ <-.
          pose proof (span_digits_length _ _ _ Hs). cbn [List.length]. lia. }
      destruct (c =? 45).
      - specialize (Hb [45] t Hi). cbn [List.length]. lia.
      - exact (Hb [] (c :: t) Hi). }
    assert (H2' : (List.length r2 <= List.length r1)%nat).
    { unfold scan_frac in Hf. destruct r1 as [ | c t].
      - injection Hf as _ <-. apply le_n.
      - destruct (c =? 46).
        + destruct (span_digits t) as [ds r] eqn:Hs.
          pose proof (span_digits_length _ _ _ Hs).
          destruct ds; injection Hf as _ <-; cbn [List.length]; lia.
        + injection Hf as _ <-. apply le_n. }
    assert (H3' : (List.length r3 <= List.length r2)%nat).
    { unfold scan_exp in He. destruct r2 as [ | e t].
      - injection He as _ <-. apply le_n.
      - destruct ((e =? 101) || (e =? 69)).
        + destruct t as [ | c t'].
          * cbn in He. injection He as _ <-. apply le_n.
          * destruct ((c =? 43) || (c =? 45)).
            -- destruct (span_digits t') as [ds r] eqn:Hs.
               pose proof (span_digits_length _ _ _ Hs).
               destruct ds; injection He as _ <-; cbn [List.length]; lia.
            -- destruct (span_digits (c :: t')) as [ds r] eqn:Hs.
               pose proof (span_digits_length _ _ _ Hs).
               destruct ds; injection He as _ <-; cbn [List.length] in *; lia.
        + injection He as _ <-. apply le_n. }
    lia. }
  destruct (starts_with (py "NaN") s) eqn:H4.
  { intros H; injection H as _ <-. eapply Hsw; [ | exact H4 ]. discriminate. }
  destruct (starts_with (py "Infinity") s) eqn:H5.
  { intros H; injection H as _ <-. eapply Hsw; [ | exact H5 ]. discriminate. }
  destruct (starts_with (py "-Infinity") s) eqn:H6.
  { intros H; injection H as _ <-. eapply Hsw; [ | exact H6 ]. discriminate. }
  discriminate.
Qed.

Lemma skip_ws_cons_length s c r :
  skip_ws s = c :: r -> (List.length r < List.length s)%nat.
Proof.
  intros H. pose proof (skip_ws_length s) as Hl. rewrite H in Hl.
  cbn [List.length] in Hl. lia.
Qed.

Lemma scan_progress fuel :
  (forall s v r, scan_once fuel s = Some (v, r) ->
                 (List.length r < List.length s)%nat)
  /\ (forall s vs r, scan_items fuel s = Some (vs, r) ->
                     (List.length r < List.length s)%nat)
  /\ (forall s ps r, scan_members fuel s = Some (ps, r) ->
                     (List.length r < List.length s)%nat).
Proof.
  induction fuel as [ | f (IHo & IHi & IHm)].
  { repeat split; intros; discriminate. }
  split; [ | split ].
  - intros s v r. cbn [scan_once].
    destruct s as [ | c t]; [ discriminate | ].
    destruct (c =? 34).
    { destruct (scan_string t) as [[x r'] | ] eqn:Hs; [ | discriminate ].
      intros Heq; injection Heq as _ <-.
      pose proof (scan_string_progress _ _ _ Hs). cbn [List.length]. lia. }
    destruct (c =? 123).
    { destruct (skip_ws t) as [ | c1 t1] eqn:Hw; [ discriminate | ].
      pose proof (skip_ws_cons_length _ _ _ Hw).
      destruct (c1 =? 125).
      { intros Heq; injection Heq as _ <-. cbn [List.length]. lia. }
      destruct (c1 =? 34); [ | discriminate ].
      destruct (scan_members f t1) as [[ps r'] | ] eqn:Hm; [ | discriminate ].
      intros Heq; injection Heq as _ <-.
      pose proof (IHm _ _ _ Hm). cbn [List.length]. lia. }
    destruct (c =? 91).
    { destruct (skip_ws t) as [ | c1 t1] eqn:Hw; [ discriminate | ].
      pose proof (skip_ws_cons_length _ _ _ Hw).
      destruct (c1 =? 93).
      { intros Heq; injection Heq as _ <-. cbn [List.length]. lia. }
      destruct (scan_items f (c1 :: t1)) as [[vs r'] | ] eqn:Hi;
        [ | discriminate ].
      intros Heq; injection Heq as _ <-.
      pose proof (IHi _ _ _ Hi). cbn [List.length] in *. lia. }
    apply scan_atom_progress.
  - intros s vs r. cbn [scan_items].
    destruct (scan_once f s) as [[v r0] | ] eqn:Ho; [ | discriminate ].
    pose proof (IHo _ _ _ Ho).
    destruct (skip_ws r0) as [ | c r'] eqn:Hw; [ discriminate | ].
    pose proof (skip_ws_cons_length _ _ _ Hw).
    destruct (c =? 93).
    { intros Heq; injection Heq as _ <-. lia. }
    destruct (c =? 44); [ | discriminate ].
    destruct (scan_items f (skip_ws r')) as [[vs' r''] | ] eqn:Hi;
      [ | discriminate ].
    intros Heq; injection Heq as _ <-.
    pose proof (IHi _ _ _ Hi). pose proof (skip_ws_length r'). lia.
  - intros s ps r. cbn [scan_members].
    destruct (scan_string s) as [[k r0] | ] eqn:Hs; [ | discriminate ].
    pose proof (scan_string_progress _ _ _ Hs).
    destruct (skip_ws r0) as [ | c r1] eqn:Hw; [ discriminate | ].
    pose proof (skip_ws_cons_length _ _ _ Hw).
    destruct (c =? 58); [ | discriminate ].
    destruct (scan_once f (skip_ws r1)) as [[v r2] | ] eqn:Ho;
      [ | discriminate ].
    pose proof (IHo _ _ _ Ho). pose proof (skip_ws_length r1).
    destruct (skip_ws r2) as [ | c2 r3] eqn:Hw2; [ discriminate | ].
    pose proof (skip_ws_cons_length _ _ _ Hw2).
    destruct (c2 =? 125).
    { intros Heq; injection Heq as _ <-. lia. }
    destruct (c2 =? 44); [ | discriminate ].
    destruct (skip_ws r3) as [ | c3 r4] eqn:Hw3; [ discriminate | ].
    pose proof (skip_ws_cons_length _ _ _ Hw3).
    destruct (c3 =? 34); [ | discriminate ].
    destruct (scan_members f r4) as [[ps' r5] | ] eqn:Hm; [ | discriminate ].
    intros Heq; injection Heq as _ <-.
    pose proof (IHm _ _ _ Hm). lia.
Qed.

(** With fuel above twice the length of the input, more fuel changes
    nothing. *)
Lemma scan_fuel fuel :
  (forall s f', (2 * List.length s + 1 <= fuel)%nat ->
                (2 * List.length s + 1 <= f')%nat ->
                scan_once fuel s = scan_once f' s)
  /\ (forall s f', (2 * List.length s + 2 <= fuel)%nat ->
                   (2 * List.length s + 2 <= f')%nat ->
                   scan_items fuel s = scan_items f' s)
  /\ (forall s f', (2 * List.length s + 2 <= fuel)%nat ->
                   (2 * List.length s + 2 <= f')%nat ->
                   scan_members fuel s = scan_members f' s).
Proof.
  induction fuel as [ | f (IHo & IHi & IHm)].
  { repeat split; intros; lia. }
  split; [ | split ].
  - intros s [ | f'] Hf Hf'; [ lia | ]. cbn [scan_once].
    destruct s as [ | c t]; [ reflexivity | ].
    cbn [List.length] in Hf, Hf'.
    destruct (c =? 34); [ reflexivity | ].
    destruct (c =? 123).
    { destruct (skip_ws t) as [ | c1 t1] eqn:Hw; [ reflexivity | ].
      pose proof (skip_ws_cons_length _ _ _ Hw).
      destruct (c1 =? 125); [ reflexivity | ].
      destruct (c1 =? 34); [ | reflexivity ].
      rewrite (IHm t1 f') by lia. reflexivity. }
    destruct (c =? 91); [ | reflexivity ].
    destruct (skip_ws t) as [ | c1 t1] eqn:Hw; [ reflexivity | ].
    pose proof (skip_ws_cons_length _ _ _ Hw).
    destruct (c1 =? 93); [ reflexivity | ].
    rewrite (IHi (c1 :: t1) f') by (cbn [List.length]; lia). reflexivity.
  - intros s [ | f'] Hf Hf'; [ lia | ]. cbn [scan_items].
    rewrite (IHo s f') by lia.
    destruct (scan_once f' s) as [[v r0] | ] eqn:Ho; [ | reflexivity ].
    pose proof (proj1 (scan_progress f') _ _ _ Ho).
    destruct (skip_ws r0) as [ | c r'] eqn:Hw; [ reflexivity | ].
    pose proof (skip_ws_cons_length _ _ _ Hw).
    destruct (c =? 93); [ reflexivity | ].
    destruct (c =? 44); [ | reflexivity ].
    pose proof (skip_ws_length r').
    rewrite (IHi (skip_ws r') f') by lia. reflexivity.
  - intros s [ | f'] Hf Hf'; [ lia | ]. cbn [scan_members].
    destruct (scan_string s) as [[k r0] | ] eqn:Hs; [ | reflexivity ].
    pose proof (scan_string_progress _ _ _ Hs).
    destruct (skip_ws r0) as [ | c r1] eqn:Hw; [ reflexivity | ].
    pose proof (skip_ws_cons_length _ _ _ Hw).
    destruct (c =? 58); [ | reflexivity ].
    pose proof (skip_ws_length r1).
    rewrite (IHo (skip_ws r1) f') by lia.
    destruct (scan_once f' (skip_ws r1)) as [[v r2] | ] eqn:Ho;
      [ | reflexivity ].
    pose proof (proj1 (scan_progress f') _ _ _ Ho).
    destruct (skip_ws r2) as [ | c2 r3] eqn:Hw2; [ reflexivity | ].
    pose proof (skip_ws_cons_length _ _ _ Hw2).
    destruct (c2 =? 125); [ reflexivity | ].
    destruct (c2 =? 44); [ | reflexivity ].
    destruct (skip_ws r3) as [ | c3 r4] eqn:Hw3; [ reflexivity | ].
    pose proof (skip_ws_cons_length _ _ _ Hw3).
    destruct (c3 =? 34); [ | reflexivity ].
    rewrite (IHm r4 f') by lia. reflexivity.
Qed.

(** [json_decode] gives what the scanner gives with any larger fuel; so does
    [scan_string]. *)
Lemma json_decode_fuel s fuel :
  (2 * List.length s + 2 <= fuel)%nat ->
  json_decode s
  = match scan_once fuel (skip_ws s) with
    | Some (v, r) => match skip_ws r with [] => Some v | _ => None end
    | None => None
    end.
Proof.
  intros Hf. unfold json_decode.
  pose proof (skip_ws_length s).
  rewrite (proj1 (scan_fuel _) (skip_ws s) fuel) by lia. reflexivity.
Qed.

Lemma scan_string_fuel s fuel :
  (List.length s < fuel)%nat -> scan_string s = scanstring fuel s.
Proof. intros Hf. unfold scan_string. apply scanstring_fuel; lia. Qed.

(** * Floats: a float is read back from its shortest digits *)

Lemma float_eqb_eq x y : float_eqb x y = true <-> x = y.
Proof.
  destruct x as [ | s | s m E], y as [ | t | t n F]; cbn;
    try (split; [ discriminate | discriminate ]);
    try (split; reflexivity).
  - rewrite Bool.eqb_true_iff. split; [ intros ->; reflexivity | ].
    intros H; injection H as ->; reflexivity.
  - rewrite !andb_true_iff, Bool.eqb_true_iff, !N.eqb_eq.
    split; [ intros [[-> ->] ->]; reflexivity | ].
    intros H; injection H as -> -> ->. auto.
Qed.

(** ** The binade of a ratio *)

Lemma size_bounds n : n <> 0 -> 2 ^ N.size n <= 2 * n /\ n < 2 ^ N.size n.
Proof.
  intros Hn. split.
  - rewrite (N.size_log2 n Hn), N.pow_succ_r'.
    apply N.mul_le_mono_l. apply N.log2_spec. lia.
  - apply N.size_gt.
Qed.

Lemma pow2_pos n : 0 < 2 ^ n.
Proof. apply N.neq_0_lt_0. apply N.pow_nonzero. discriminate. Qed.

Lemma pow2_lt_mono a b : a < b -> 2 ^ a < 2 ^ b.
Proof. apply N.pow_lt_mono_r. lia. Qed.

Lemma pow2_le_mono a b : a <= b -> 2 ^ a <= 2 ^ b.
Proof. apply N.pow_le_mono_r. lia. Qed.

Lemma binade_small A b : A < b * 2 ^ 52 -> binade A b = 0.
Proof.
  intros H. unfold binade. apply N.ltb_lt in H. rewrite H. reflexivity.
Qed.

Lemma binade_spec A b :
  0 < b -> b * 2 ^ 52 <= A ->
  b * 2 ^ (binade A b + 52) <= A /\ A < b * 2 ^ (binade A b + 53).
Proof.
  intros Hb HA. unfold binade.
  destruct (N.ltb_spec A (b * 2 ^ 52)) as [Hlt | _]; [ lia | ].
  assert (HA0 : A <> 0).
  { pose proof (pow2_pos 52). nia. }
  destruct (size_bounds A HA0) as [HA1 HA2].
  destruct (size_bounds b ltac:(lia)) as [Hb1 Hb2].
  set (sA := N.size A) in *. set (sb := N.size b) in *.
  assert (Hs : sb + 52 <= sA).
  { destruct (N.le_gt_cases (sb + 52) sA) as [H | H]; [ exact H | exfalso ].
    assert (H' : sA <= sb + 51) by lia.
    pose proof (pow2_le_mono _ _ H') as Hp.
    rewrite N.pow_add_r in Hp.
    change (2 ^ 52) with (2 * 2 ^ 51) in HA. nia. }
  assert (Hsum : 2 ^ sA = 2 ^ (sA - sb) * 2 ^ sb).
  { rewrite <- N.pow_add_r. f_equal. lia. }
  set (s := sA - sb) in *.
  assert (Hs52 : 52 <= s) by (subst s; lia).
  pose proof (pow2_pos s) as Hps.
  destruct (N.leb_spec (b * 2 ^ s) A) as [Hge | Hlt].
  - replace (s - 52 + 52) with s by lia.
    replace (s - 52 + 53) with (N.succ s) by lia.
    rewrite N.pow_succ_r'. split; [ exact Hge | nia ].
  - assert (Hs53 : 53 <= s).
    { destruct (N.eq_dec s 52) as [He | He]; [ | lia ].
      rewrite He in Hlt. lia. }
    replace (s - 1 - 52 + 52) with (s - 1) by lia.
    replace (s - 1 - 52 + 53) with s by lia.
    split; [ | exact Hlt ].
    assert (Hs1 : 2 ^ s = 2 * 2 ^ (s - 1)).
    { rewrite <- N.pow_succ_r'. f_equal. lia. }
    nia.
Qed.

Lemma binade_unique A b E :
  0 < b -> b * 2 ^ (E + 52) <= A -> A < b * 2 ^ (E + 53) -> binade A b = E.
Proof.
  intros Hb Hlo Hhi.
  assert (H52 : b * 2 ^ 52 <= A).
  { assert (2 ^ 52 <= 2 ^ (E + 52)) by (apply pow2_le_mono; lia). nia. }
  destruct (binade_spec A b Hb H52) as [Hlo' Hhi'].
  set (F := binade A b) in *.
  destruct (N.lt_trichotomy F E) as [H | [H | H]]; [ exfalso | exact H | exfalso ].
  - assert (2 ^ (F + 53) <= 2 ^ (E + 52)) by (apply pow2_le_mono; lia). nia.
  - assert (2 ^ (E + 53) <= 2 ^ (F + 52)) by (apply pow2_le_mono; lia). nia.
Qed.

(** ** Rounding *)

Lemma round_scaled_wf negative A b x :
  0 < b -> round_scaled negative A b = x -> float_wf x.
Proof.
  intros Hb <-. unfold round_scaled.
  set (E := binade A b).
  assert (Hden : b * 2 ^ E <> 0).
  { pose proof (pow2_pos E). nia. }
  pose proof (N.div_mod A (b * 2 ^ E) Hden) as Hdm.
  pose proof (N.mod_lt A (b * 2 ^ E) Hden) as Hr.
  set (q := A / (b * 2 ^ E)) in *. set (r := A mod (b * 2 ^ E)) in *.
  assert (Hq : q < 2 ^ 53 /\ (2 ^ 52 <= q \/ E = 0)).
  { destruct (N.lt_ge_cases A (b * 2 ^ 52)) as [Hs | Hl].
    - assert (HE : E = 0) by (apply binade_small; exact Hs).
      split; [ | right; exact HE ].
      rewrite HE, N.pow_0_r in Hdm, Hr.
      change (2 ^ 53) with (2 * 2 ^ 52). nia.
    - destruct (binade_spec A b Hb Hl) as [Hlo Hhi]. fold E in Hlo, Hhi.
      rewrite N.pow_add_r in Hlo, Hhi.
      split; [ nia | left ].
      assert (2 ^ 52 < q + 1) by nia. lia. }
  destruct Hq as [Hq1 Hq2].
  set (q' := if (b * 2 ^ E <? 2 * r) || ((b * 2 ^ E =? 2 * r) && N.odd q)
             then q + 1 else q).
  assert (Hq' : q' = q \/ q' = q + 1).
  { subst q'. destruct (_ || _); auto. }
  destruct (N.eqb_spec q' (2 ^ 53)) as [He | Hne].
  - destruct (N.ltb_spec 2045 (E + 1)); cbn; [ exact I | ].
    split; [ reflexivity | ]. split; [ lia | left; lia ].
  - destruct (N.ltb_spec 2045 E); cbn; [ exact I | ].
    split; [ lia | ]. split; [ lia | ].
    destruct Hq2 as [Hq2 | Hq2]; [ left; lia | right; exact Hq2 ].
Qed.

Lemma round_scaled_sign negative A b s m E :
  round_scaled negative A b = Finite s m E -> s = negative.
Proof.
  unfold round_scaled.
  destruct (_ =? 2 ^ 53); destruct (2045 <? _); intros H;
    try discriminate H; injection H as <- _ _; reflexivity.
Qed.

(** What [round_scaled] computes once the binade is known. *)
Lemma round_scaled_in_binade negative A b E q r :
  0 < b ->
  binade A b = E ->
  A = b * 2 ^ E * q + r -> r < b * 2 ^ E ->
  round_scaled negative A b =
  let q' := if (b * 2 ^ E <? 2 * r) || ((b * 2 ^ E =? 2 * r) && N.odd q)
            then q + 1 else q in
  let (m, E') := if q' =? 2 ^ 53 then (2 ^ 52, E + 1) else (q', E) in
  if 2045 <? E' then Infinity negative else Finite negative m E'.
Proof.
  intros Hb HE Hdm Hr. unfold round_scaled. rewrite HE.
  assert (Hden : b * 2 ^ E <> 0).
  { pose proof (pow2_pos E). nia. }
  assert (Hq : A / (b * 2 ^ E) = q).
  { symmetry. apply (N.div_unique _ _ q r); assumption. }
  assert (Hm : A mod (b * 2 ^ E) = r).
  { symmetry. apply (N.mod_unique _ _ q r); assumption. }
  rewrite Hq, Hm. reflexivity.
Qed.

Lemma binade_of_float A b m E :
  0 < b -> m < 2 ^ 53 -> (2 ^ 52 <= m \/ E = 0) ->
  m * (b * 2 ^ E) <= A -> A < (m + 1) * (b * 2 ^ E) ->
  binade A b = E.
Proof.
  intros Hb Hm Hnorm Hlo Hhi.
  destruct (N.le_gt_cases (2 ^ 52) m) as [Hn | Hs].
  - apply binade_unique; [ exact Hb | | ];
      rewrite N.pow_add_r; change (2 ^ 53) with (2 * 2 ^ 52) in *; nia.
  - destruct Hnorm as [Hn | ->]; [ lia | ].
    apply binade_small. rewrite N.pow_0_r in Hhi. nia.
Qed.

(** A ratio strictly inside the rounding interval of a float rounds to
    it. *)
Lemma round_scaled_inside negative A b m E :
  0 < b -> 0 < m ->
  float_wf (Finite negative m E) ->
  (2 * m - 1) * (b * 2 ^ E) < 2 * A ->
  2 * A < (2 * m + 1) * (b * 2 ^ E) ->
  (m = 2 ^ 52 -> 0 < E -> (4 * m - 1) * (b * 2 ^ E) < 4 * A) ->
  round_scaled negative A b = Finite negative m E.
Proof.
  intros Hb Hm (Hm53 & HE & Hnorm) Hlo Hhi Hbd.
  set (W := b * 2 ^ E) in *.
  assert (HW : 0 < W) by (subst W; pose proof (pow2_pos E); nia).
  assert (Hp53 : 2 ^ 53 = 2 * 2 ^ 52) by reflexivity.
  destruct (N.le_gt_cases (m * W) A) as [Hge | Hlt].
  - (* at or above the float *)
    assert (HB : binade A b = E).
    { apply (binade_of_float A b m E); try assumption; fold W; nia. }
    rewrite (round_scaled_in_binade negative A b E m (A - m * W) Hb HB);
      [ | fold W; lia | fold W; nia ].
    fold W. cbv zeta.
    destruct (N.ltb_spec W (2 * (A - m * W))); [ nia | ].
    destruct (N.eqb_spec W (2 * (A - m * W))); [ nia | ].
    cbn [orb andb].
    destruct (N.eqb_spec m (2 ^ 53)); [ lia | ].
    destruct (N.ltb_spec 2045 E); [ lia | reflexivity ].
  - (* below the float *)
    destruct (N.eq_dec m (2 ^ 52)) as [Hm52 | Hm52];
      [ destruct (N.eq_dec E 0) as [HE0 | HE0] | ].
    + (* the least normal float *)
      assert (HB : binade A b = E).
      { rewrite HE0. apply binade_small. subst W.
        rewrite HE0, N.pow_0_r in Hlt. nia. }
      rewrite (round_scaled_in_binade negative A b E (m - 1)
                 (A - (m - 1) * W) Hb HB);
        [ | fold W; nia | fold W; nia ].
      fold W. cbv zeta.
      destruct (N.ltb_spec W (2 * (A - (m - 1) * W))); [ | nia ].
      cbn [orb]. replace (m - 1 + 1) with m by lia.
      destruct (N.eqb_spec m (2 ^ 53)); [ lia | ].
      destruct (N.ltb_spec 2045 E); [ lia | reflexivity ].
    + (* the least float of a binade: the ratio lies in the binade
         below *)
      specialize (Hbd Hm52 ltac:(lia)).
      assert (HW2 : W = 2 * (b * 2 ^ (E - 1))).
      { subst W. replace E with (N.succ (E - 1)) at 1 by lia.
        rewrite N.pow_succ_r'. lia. }
      set (V := b * 2 ^ (E - 1)) in *.
      assert (HB : binade A b = E - 1).
      { apply (binade_of_float A b (2 ^ 53 - 1) (E - 1));
          [ exact Hb | reflexivity | left; discriminate | | ];
          fold V; change (2 ^ 53 - 1 + 1) with (2 * 2 ^ 52);
          change (2 ^ 53 - 1) with (2 * 2 ^ 52 - 1); nia. }
      rewrite (round_scaled_in_binade negative A b (E - 1) (2 ^ 53 - 1)
                 (A - (2 ^ 53 - 1) * V) Hb HB);
        [ | fold V; change (2 ^ 53 - 1) with (2 * 2 ^ 52 - 1); nia
          | fold V; change (2 ^ 53 - 1) with (2 * 2 ^ 52 - 1); nia ].
      fold V. cbv zeta.
      destruct (N.ltb_spec V (2 * (A - (2 ^ 53 - 1) * V)));
        [ | change (2 ^ 53 - 1) with (2 * 2 ^ 52 - 1) in *; nia ].
      cbn [orb]. replace (2 ^ 53 - 1 + 1) with (2 ^ 53) by reflexivity.
      rewrite N.eqb_refl. replace (E - 1 + 1) with E by lia.
      destruct (N.ltb_spec 2045 E); [ lia | ].
      rewrite Hm52. reflexivity.
    + assert (HB : binade A b = E).
      { apply (binade_of_float A b (m - 1) E); try assumption;
          [ lia | | fold W; nia | fold W; nia ].
        destruct Hnorm as [Hn | Hn]; [ left; lia | right; exact Hn ]. }
      rewrite (round_scaled_in_binade negative A b E (m - 1)
                 (A - (m - 1) * W) Hb HB);
        [ | fold W; nia | fold W; nia ].
      fold W. cbv zeta.
      destruct (N.ltb_spec W (2 * (A - (m - 1) * W))); [ | nia ].
      cbn [orb]. replace (m - 1 + 1) with m by lia.
      destruct (N.eqb_spec m (2 ^ 53)); [ lia | ].
      destruct (N.ltb_spec 2045 E); [ lia | reflexivity ].
Qed.

(** Rounding depends on the ratio only. *)
Lemma binade_scale A b c : 0 < b -> 0 < c -> binade (A * c) (b * c) = binade A b.
Proof.
  intros Hb Hc.
  destruct (N.lt_ge_cases A (b * 2 ^ 52)) as [Hs | Hl].
  - rewrite (binade_small A b Hs). apply binade_small. nia.
  - destruct (binade_spec A b Hb Hl) as [Hlo Hhi].
    apply binade_unique; [ nia | nia | nia ].
Qed.

Lemma round_scaled_scale negative A b c :
  0 < b -> 0 < c ->
  round_scaled negative (A * c) (b * c) = round_scaled negative A b.
Proof.
  intros Hb Hc.
  set (E := binade A b).
  assert (Hden : b * 2 ^ E <> 0).
  { pose proof (pow2_pos E). nia. }
  pose proof (N.div_mod A (b * 2 ^ E) Hden) as Hdm.
  pose proof (N.mod_lt A (b * 2 ^ E) Hden) as Hr.
  set (q := A / (b * 2 ^ E)) in *. set (r := A mod (b * 2 ^ E)) in *.
  rewrite (round_scaled_in_binade negative A b E q r Hb eq_refl Hdm Hr).
  rewrite (round_scaled_in_binade negative (A * c) (b * c) E q (r * c));
    [ | nia | apply binade_scale; assumption | nia | nia ].
  cbv zeta.
  replace (b * c * 2 ^ E <? 2 * (r * c)) with (b * 2 ^ E <? 2 * r).
  2:{ destruct (N.ltb_spec (b * 2 ^ E) (2 * r));
      destruct (N.ltb_spec (b * c * 2 ^ E) (2 * (r * c))); try reflexivity;
      nia. }
  replace (b * c * 2 ^ E =? 2 * (r * c)) with (b * 2 ^ E =? 2 * r).
  2:{ destruct (N.eqb_spec (b * 2 ^ E) (2 * r));
      destruct (N.eqb_spec (b * c * 2 ^ E) (2 * (r * c))); try reflexivity;
      nia. }
  reflexivity.
Qed.

Lemma round_ratio_scale negative a b c :
  0 < b -> 0 < c ->
  round_ratio negative (a * c) (b * c) = round_ratio negative a b.
Proof.
  intros Hb Hc. unfold round_ratio.
  replace (a * c * 2 ^ 1074) with (a * 2 ^ 1074 * c) by lia.
  apply round_scaled_scale; assumption.
Qed.

(** ** Powers of ten *)

Lemma pow10_pos k : 0 < pow10 k.
Proof. apply N.neq_0_lt_0. apply N.pow_nonzero. discriminate. Qed.

(** [10^(k + j) = 10^j * 10^k], over the positive and the negative
    parts. *)
Lemma pow10_shift (k : Z) (j : N) :
  pow10 (k + Z.of_N j) * pow10 (- k)
  = 10 ^ j * (pow10 k * pow10 (- (k + Z.of_N j))).
Proof.
  unfold pow10.
  destruct (Z.le_gt_cases 0 k) as [Hk | Hk].
  - replace (Z.to_N (- k)) with 0 by lia.
    replace (Z.to_N (- (k + Z.of_N j))) with 0 by lia.
    replace (Z.to_N (k + Z.of_N j)) with (j + Z.to_N k) by lia.
    rewrite N.pow_add_r, !N.pow_0_r. lia.
  - replace (Z.to_N k) with 0 by lia.
    destruct (Z.le_gt_cases 0 (k + Z.of_N j)) as [Hj | Hj].
    + replace (Z.to_N (- (k + Z.of_N j))) with 0 by lia.
      replace j with (Z.to_N (k + Z.of_N j) + Z.to_N (- k)) at 2 by lia.
      rewrite N.pow_add_r, !N.pow_0_r. lia.
    + replace (Z.to_N (k + Z.of_N j)) with 0 by lia.
      replace (Z.to_N (- k)) with (j + Z.to_N (- (k + Z.of_N j))) by lia.
      rewrite N.pow_add_r, !N.pow_0_r. lia.
Qed.

(** Trailing zeros of the digits go to the exponent. *)
Lemma float_of_decimal_shift negative d k j :
  float_of_decimal negative (d * 10 ^ j) k
  = float_of_decimal negative d (k + Z.of_N j).
Proof.
  unfold float_of_decimal.
  pose proof (pow10_shift k j) as Hs.
  pose proof (pow10_pos k). pose proof (pow10_pos (- k)).
  pose proof (pow10_pos (k + Z.of_N j)).
  pose proof (pow10_pos (- (k + Z.of_N j))).
  assert (H10 : 0 < 10 ^ j).
  { apply N.neq_0_lt_0. apply N.pow_nonzero. discriminate. }
  set (P := pow10 k) in *. set (Q := pow10 (- k)) in *.
  set (P' := pow10 (k + Z.of_N j)) in *.
  set (Q' := pow10 (- (k + Z.of_N j))) in *.
  (* both ratios, brought to the denominator Q * Q' *)
  rewrite <- (round_ratio_scale negative (d * 10 ^ j * P) Q Q')
    by assumption.
  rewrite <- (round_ratio_scale negative (d * P') Q' Q) by assumption.
  f_equal; nia.
Qed.

(** ** The shortest digits *)

Lemma log10_floor_spec a b fuel :
  forall p,
    pow10 (p - Z.of_nat fuel) * b <= a * pow10 (- (p - Z.of_nat fuel)) ->
    pow10 (log10_floor fuel p a b) * b
    <= a * pow10 (- log10_floor fuel p a b).
Proof.
  induction fuel as [ | f IH]; intros p H.
  - cbn [log10_floor]. replace (p - Z.of_nat 0)%Z with p in H by lia.
    exact H.
  - cbn [log10_floor].
    destruct (N.leb_spec (pow10 p * b) (a * pow10 (- p))) as [Hle | _];
      [ exact Hle | ].
    apply IH. replace (p - 1 - Z.of_nat f)%Z with (p - Z.of_nat (S f))%Z
      by lia.
    exact H.
Qed.

Lemma float_of_decimal_zero negative k :
  float_of_decimal negative 0 k = Finite negative 0 0.
Proof.
  unfold float_of_decimal, round_ratio. cbn [N.mul].
  pose proof (pow10_pos (- k)) as HQ.
  rewrite (round_scaled_in_binade negative 0 (pow10 (- k)) 0 0 0);
    [ | exact HQ | | | ].
  - cbv zeta. rewrite N.pow_0_r, N.mul_1_r, N.mul_0_r.
    destruct (N.ltb_spec (pow10 (- k)) 0); [ lia | ].
    destruct (N.eqb_spec (pow10 (- k)) 0); [ lia | ].
    reflexivity.
  - apply binade_small. pose proof (pow2_pos 52). nia.
  - lia.
  - rewrite N.pow_0_r. lia.
Qed.

(** Seventeen digits always read back: the nearest decimal with seventeen
    digits lies strictly inside the rounding interval of the float. *)
Lemma seventeen_digits negative m E p :
  let a := m * 2 ^ E in
  let b := 2 ^ 1074 in
  0 < m -> float_wf (Finite negative m E) ->
  pow10 p * b <= a * pow10 (- p) ->
  let c := fst (nearest_digits a b (p - 16)) in
  0 < c
  /\ float_of_decimal negative c (p - 16) = Finite negative m E.
Proof.
  intros a b Hm Hwf Hp c.
  set (k := (p - 16)%Z) in *.
  pose proof (pow10_shift k 16) as Hs.
  replace (k + Z.of_N 16)%Z with p in Hs by (subst k; lia).
  pose proof (pow10_pos k) as HP. pose proof (pow10_pos (- k)) as HQ.
  pose proof (pow10_pos p) as HPp. pose proof (pow10_pos (- p)) as HQp.
  assert (Hb : 0 < b) by apply pow2_pos.
  set (P := pow10 k) in *. set (Q := pow10 (- k)) in *.
  set (Pp := pow10 p) in *. set (Qp := pow10 (- p)) in *.
  set (X := a * Q). set (Y := b * P).
  assert (HY : Y <> 0) by (subst Y; nia).
  assert (H16 : 10 ^ 16 * Y <= X).
  { subst X Y.
    apply (N.mul_le_mono_pos_l _ _ Qp HQp).
    replace (Qp * (10 ^ 16 * (b * P))) with (10 ^ 16 * (P * Qp) * b) by ring.
    rewrite <- Hs.
    replace (Pp * Q * b) with (Q * (Pp * b)) by ring.
    replace (Qp * (a * Q)) with (Q * (a * Qp)) by ring.
    apply N.mul_le_mono_l. exact Hp. }
  pose proof (N.div_mod X Y HY) as Hdm.
  pose proof (N.mod_lt X Y HY) as Hr.
  assert (Hlo : 10 ^ 16 <= X / Y).
  { apply N.div_le_lower_bound; [ exact HY | ].
    rewrite N.mul_comm. exact H16. }
  assert (Hc : c = X / Y /\ 2 * (X mod Y) <= Y
               \/ c = X / Y + 1 /\ Y <= 2 * (X mod Y)).
  { subst c. unfold nearest_digits. fold P Q X Y.
    destruct (N.ltb_spec (2 * (X mod Y)) Y) as [H1 | H1].
    { left. cbn [orb fst]. split; [ reflexivity | ].
      apply N.lt_le_incl. exact H1. }
    destruct (N.eqb_spec (2 * (X mod Y)) Y) as [H2 | H2].
    - destruct (N.even (X / Y)); cbn [orb andb fst].
      + left. split; [ reflexivity | rewrite H2; apply N.le_refl ].
      + right. split; [ reflexivity | exact H1 ].
    - right. cbn [orb andb fst]. split; [ reflexivity | exact H1 ]. }
  set (lo := X / Y) in *. set (r := X mod Y) in *.
  assert (Hc0 : 0 < c).
  { assert (0 < 10 ^ 16) by reflexivity. destruct Hc as [[-> _] | [-> _]]; lia. }
  split; [ exact Hc0 | ].
  unfold float_of_decimal, round_ratio. fold P Q.
  replace (c * P * 2 ^ 1074) with (c * Y) by (subst Y b; lia).
  destruct Hwf as (Hm53 & HE & Hnorm).
  assert (HX : X = m * (Q * 2 ^ E)) by (subst X a; lia).
  set (W := Q * 2 ^ E) in *.
  assert (H53 : 2 ^ 53 < 10 ^ 16) by reflexivity.
  apply round_scaled_inside;
    [ exact HQ | exact Hm | repeat split; assumption | | | ];
    fold W; clearbody lo r W X Y c.
  - destruct Hc as [[-> Hh] | [-> Hh]]; nia.
  - destruct Hc as [[-> Hh] | [-> Hh]]; nia.
  - intros Hm52 HE0.
    change (2 ^ 53) with (2 * 2 ^ 52) in *.
    destruct Hc as [[-> Hh] | [-> Hh]]; nia.
Qed.

Lemma shortest_digits_spec x negative a b fuel :
  forall k,
    (forall d, float_of_decimal negative 0 d <> x) ->
    (let c := fst (nearest_digits a b (k - Z.of_nat fuel)) in
     0 < c /\ float_of_decimal negative c (k - Z.of_nat fuel) = x) ->
    let r := shortest_digits fuel x negative a b k in
    0 < fst r /\ float_of_decimal negative (fst r) (snd r) = x.
Proof.
  induction fuel as [ | f IH]; intros k Hz Hlast.
  - cbn [shortest_digits]. replace (k - Z.of_nat 0)%Z with k in Hlast by lia.
    destruct (nearest_digits a b k) as [c1 c2]. exact Hlast.
  - cbn [shortest_digits].
    destruct (nearest_digits a b k) as [c1 c2].
    assert (Hpos : forall c, float_of_decimal negative c k = x -> 0 < c).
    { intros c Hc. destruct (N.eq_dec c 0) as [-> | Hn]; [ | lia ].
      exfalso. exact (Hz k Hc). }
    destruct (float_eqb (float_of_decimal negative c1 k) x) eqn:H1.
    { apply float_eqb_eq in H1. cbn [fst snd]. split; [ apply Hpos | ];
        exact H1. }
    destruct (float_eqb (float_of_decimal negative c2 k) x) eqn:H2.
    { apply float_eqb_eq in H2. cbn [fst snd]. split; [ apply Hpos | ];
        exact H2. }
    apply IH; [ exact Hz | ].
    replace (k - 1 - Z.of_nat f)%Z with (k - Z.of_nat (S f))%Z by lia.
    exact Hlast.
Qed.

Lemma lowest_power : 2 ^ 1074 <= 10 ^ 324.
Proof. apply N.leb_le. vm_compute. reflexivity. Qed.

(** The digits of a float read back as the float. *)
Lemma float_digits_read_back negative m E :
  0 < m -> float_wf (Finite negative m E) ->
  let r := float_digits negative m E in
  0 < fst r /\ float_of_decimal negative (fst r) (snd r) = Finite negative m E.
Proof.
  intros Hm Hwf. unfold float_digits.
  apply shortest_digits_spec.
  - intros d. rewrite float_of_decimal_zero. intros H.
    injection H as H _. lia.
  - set (a := m * 2 ^ E). set (b := 2 ^ 1074).
    set (p := log10_floor 634 310 a b).
    change (p - Z.of_nat 16)%Z with (p - 16)%Z.
    apply seventeen_digits; [ exact Hm | exact Hwf | ].
    apply log10_floor_spec.
    change (310 - Z.of_nat 634)%Z with (-324)%Z.
    change (pow10 (-324)) with 1. change (pow10 (- -324)) with (10 ^ 324).
    pose proof lowest_power. pose proof (pow2_pos E).
    fold b in H. subst a. nia.
Qed.

(** * The JSON library: reading back what was written *)

Section JsonRoundTrip.

(** ** UTF-8: decoding an encoded text *)

#[local] Arguments N.add : simpl never.
#[local] Arguments N.sub : simpl never.
#[local] Arguments N.mul : simpl never.
#[local] Arguments N.div : simpl never.
#[local] Arguments N.modulo : simpl never.
#[local] Arguments N.ltb : simpl never.
#[local] Arguments N.leb : simpl never.
#[local] Arguments N.eqb : simpl never.

Lemma to_N_byte_of n : n < 256 -> Byte.to_N (byte_of n) = n.
Proof.
  intros H. unfold byte_of.
  destruct (Byte.of_N n) as [b | ] eqn:Hb.
  - apply Byte.to_of_N. exact Hb.
  - apply Byte.of_N_None_iff in Hb. lia.
Qed.

(** Quotient and remainder by 64, as plain variables for [lia]. *)
Lemma div_mod_64 c :
  exists q r, c / 64 = q /\ c mod 64 = r /\ c = 64 * q + r /\ r < 64.
Proof.
  exists (c / 64), (c mod 64). repeat split.
  - apply N.div_mod'.
  - apply N.mod_lt. discriminate.
Qed.

Ltac cases_N :=
  repeat match goal with
         | |- context [?a <? ?b] => destruct (N.ltb_spec a b); try lia
         | |- context [?a <=? ?b] => destruct (N.leb_spec a b); try lia
         | |- context [?a =? ?b] => destruct (N.eqb_spec a b); try lia
         end.

Lemma utf8_decode_encode_cp c bs rest :
  utf8_encode_cp c = Some bs ->
  utf8_decode_N (map Byte.to_N bs ++ rest)
  = option_map (cons c) (utf8_decode_N rest).
Proof.
  unfold utf8_encode_cp, is_surrogate.
  destruct (N.ltb_spec c 0x80).
  { intros Henc; injection Henc as <-. cbn [map app].
    rewrite to_N_byte_of by lia. cbn [utf8_decode_N].
    cases_N. reflexivity. }
  destruct (div_mod_64 c) as (q1 & r1 & Hq1 & Hr1 & Hc & Hr1b).
  rewrite Hq1, Hr1.
  destruct (N.ltb_spec c 0x800).
  { intros Henc; injection Henc as <-. cbn [map app]. clear Hq1 Hr1.
    repeat (rewrite to_N_byte_of by lia). cbn [utf8_decode_N]. unfold is_cont.
    cases_N. cbn [andb]. do 2 f_equal. lia. }
  destruct (div_mod_64 q1) as (q2 & r2 & Hq2 & Hr2 & Hc1 & Hr2b).
  replace (c / 4096) with q2
    by (rewrite <- Hq2, <- Hq1, N.Div0.div_div; reflexivity).
  rewrite Hr2.
  destruct ((0xD800 <=? c) && (c <=? 0xDFFF)) eqn:Hsur; [ discriminate | ].
  destruct (N.ltb_spec c 0x10000).
  { intros Henc; injection Henc as <-. cbn [map app]. clear Hq1 Hr1 Hq2 Hr2.
    repeat (rewrite to_N_byte_of by lia). cbn [utf8_decode_N]. unfold is_cont.
    cases_N. cbn [andb]. do 2 f_equal. lia. }
  destruct (div_mod_64 q2) as (q3 & r3 & Hq3 & Hr3 & Hc2 & Hr3b).
  replace (c / 262144) with q3
    by (rewrite <- Hq3, <- Hq2, <- Hq1, !N.Div0.div_div; reflexivity).
  rewrite Hr3.
  destruct (N.leb_spec c 0x10FFFF); [ | discriminate ].
  intros Henc; injection Henc as <-. cbn [map app].
  clear Hq1 Hr1 Hq2 Hr2 Hq3 Hr3 Hsur.
  assert (Hq3b : q3 <= 4) by lia.
  repeat (rewrite to_N_byte_of by lia). cbn [utf8_decode_N]. unfold is_cont.
  cases_N. cbn [andb]. do 2 f_equal. lia.
Qed.

Lemma utf8_decode_encode s b :
  utf8_encode s = Some b -> utf8_decode b = Some s.
Proof.
  unfold utf8_decode. revert b.
  induction s as [ | c t IH]; intros b; cbn [utf8_encode].
  - intros H; injection H as <-. reflexivity.
  - destruct (utf8_encode_cp c) as [bc | ] eqn:Hc; [ | discriminate ].
    destruct (utf8_encode t) as [bt | ]; [ | discriminate ].
    intros H; injection H as <-.
    rewrite map_app, (utf8_decode_encode_cp _ _ _ Hc), (IH bt eq_refl).
    reflexivity.
Qed.

(** ** Strings: scanning an encoded string *)

Lemma hex_value_hex_digit x : x < 16 -> hex_value (hex_digit x) = Some x.
Proof.
  intros H. unfold hex_value, hex_digit, is_digit.
  cases_N; cbn [andb]; f_equal; lia.
Qed.

Lemma decode_uXXXX_escape c t :
  c < 256 ->
  decode_uXXXX (48 :: 48 :: hex_digit (c / 16) :: hex_digit (c mod 16) :: t)
  = Some (c, t).
Proof.
  intros H. unfold decode_uXXXX.
  assert (Hq : c / 16 < 16).
  { apply N.Div0.div_lt_upper_bound. lia. }
  assert (Hr : c mod 16 < 16) by (apply N.mod_lt; discriminate).
  rewrite (hex_value_hex_digit _ Hq), (hex_value_hex_digit _ Hr).
  change (hex_value 48) with (Some 0).
  clear Hq Hr.
  pose proof (N.div_mod' c 16) as Hd. revert Hd.
  generalize (c / 16), (c mod 16). intros q r Hd.
  replace (0 * 4096 + 0 * 256 + q * 16 + r) with c by lia. reflexivity.
Qed.

Lemma scanstring_escape_char c f t :
  scanstring (S f) (escape_char c ++ t) = with_char c (scanstring f t).
Proof.
  unfold escape_char.
  destruct (N.eqb_spec c 34) as [-> | H34]; [ reflexivity | ].
  destruct (N.eqb_spec c 92) as [-> | H92]; [ reflexivity | ].
  destruct (N.eqb_spec c 10) as [-> | H10]; [ reflexivity | ].
  destruct (N.eqb_spec c 13) as [-> | H13]; [ reflexivity | ].
  destruct (N.eqb_spec c 9) as [-> | H9]; [ reflexivity | ].
  destruct (N.eqb_spec c 8) as [-> | H8]; [ reflexivity | ].
  destruct (N.eqb_spec c 12) as [-> | H12]; [ reflexivity | ].
  destruct (N.ltb_spec c 32) as [Hlt | Hge].
  - cbn [app scanstring].
    change (92 =? 34) with false. change (92 =? 92) with true.
    change (117 =? 117) with true. cbv iota.
    rewrite decode_uXXXX_escape by lia.
    cases_N. reflexivity.
  - cbn [app scanstring]. cases_N. reflexivity.
Qed.

Lemma length_flat_map_escape s :
  (List.length s <= List.length (flat_map escape_char s))%nat.
Proof.
  induction s as [ | c t IH]; [ apply le_n | ].
  cbn [flat_map]. rewrite length_app. cbn [List.length].
  assert (1 <= List.length (escape_char c))%nat.
  { unfold escape_char.
    repeat match goal with
           | |- context [if ?b then _ else _] => destruct b
           end; cbn; lia. }
  lia.
Qed.

Lemma scanstring_encoded s fuel rest :
  (List.length s < fuel)%nat ->
  scanstring fuel (flat_map escape_char s ++ 34 :: rest) = Some (s, rest).
Proof.
  revert fuel. induction s as [ | c t IH]; intros fuel Hf.
  - destruct fuel as [ | f]; [ lia | ]. reflexivity.
  - destruct fuel as [ | f]; [ cbn in Hf; lia | ].
    cbn [flat_map]. rewrite <- app_assoc, scanstring_escape_char.
    rewrite IH by (cbn in Hf; lia). reflexivity.
Qed.

Lemma scan_string_encoded s rest :
  scan_string (flat_map escape_char s ++ 34 :: rest) = Some (s, rest).
Proof.
  unfold scan_string. apply scanstring_encoded.
  rewrite length_app. pose proof (length_flat_map_escape s). lia.
Qed.

Lemma encode_basestring_app s rest :
  encode_basestring s ++ rest = 34 :: flat_map escape_char s ++ 34 :: rest.
Proof.
  unfold encode_basestring. cbn [app]. rewrite <- app_assoc. reflexivity.
Qed.

(** ** Numbers: scanning a printed integer *)

Lemma is_digit_range d : is_digit d = true <-> 48 <= d <= 57.
Proof.
  unfold is_digit. rewrite andb_true_iff, N.leb_le, N.leb_le. reflexivity.
Qed.

Lemma span_digits_app (ds rest : str) :
  forallb is_digit ds = true ->
  match rest with [] => True | c :: _ => is_digit c = false end ->
  span_digits (ds ++ rest) = (ds, rest).
Proof.
  intros Hd Hr. induction ds as [ | d t IH].
  - destruct rest as [ | c r]; [ reflexivity | ].
    cbn [app span_digits]. rewrite Hr. reflexivity.
  - cbn [forallb] in Hd. apply andb_true_iff in Hd. destruct Hd as [Hd Ht].
    cbn [app span_digits]. rewrite Hd, (IH Ht). reflexivity.
Qed.

Lemma delimited_not_digit rest :
  delimited rest = true ->
  match rest with [] => True | c :: _ => is_digit c = false end.
Proof.
  destruct rest as [ | c r]; [ trivial | ].
  unfold delimited, is_digit. cases_N; cbn; congruence.
Qed.

Lemma decimal_value_snoc (ds : str) (d : N) :
  decimal_value (ds ++ [d]) = decimal_value ds * 10 + (d - 48).
Proof. unfold decimal_value. rewrite fold_left_app. reflexivity. Qed.

Lemma digits_of_pos_spec fuel :
  forall n acc,
    0 < n -> n < 2 ^ N.of_nat fuel ->
    exists d t,
      digits_of_pos fuel n acc = (d :: t) ++ acc
      /\ is_digit d = true /\ d <> 48
      /\ forallb is_digit t = true
      /\ decimal_value (d :: t) = n.
Proof.
  induction fuel as [ | f IH]; intros n acc Hpos Hlt.
  - cbn in Hlt. lia.
  - rewrite Nat2N.inj_succ, N.pow_succ_r' in Hlt.
    cbn [digits_of_pos].
    pose proof (N.div_mod' n 10) as Hdm.
    pose proof (N.mod_lt n 10 ltac:(discriminate)) as Hm.
    revert Hdm Hm. generalize (n mod 10). intros r Hdm Hm.
    destruct (N.ltb_spec n 10) as [Hs | Hb].
    + exists (48 + r), []. 
      assert (Hq : n / 10 = 0) by (apply N.div_small; exact Hs).
      rewrite Hq in Hdm. clear Hq.
      split; [ reflexivity | ].
      split; [ unfold is_digit; cases_N; reflexivity | ].
      split; [ lia | ].
      split; [ reflexivity | ].
      unfold decimal_value. cbn [fold_left]. lia.
    + assert (Hq : 0 < n / 10 /\ n / 10 < 2 ^ N.of_nat f).
      { revert Hdm. generalize (n / 10). generalize (2 ^ N.of_nat f) Hlt.
        intros p Hp q Hq. lia. }
      destruct Hq as [Hq0 Hq1].
      destruct (IH (n / 10) ((48 + r) :: acc) Hq0 Hq1)
        as (d & t & Heq & Hd & Hd0 & Ht & Hv).
      exists d, (t ++ [48 + r]). rewrite Heq.
      split; [ cbn [app]; rewrite <- app_assoc; reflexivity | ].
      split; [ exact Hd | ]. split; [ exact Hd0 | ].
      split.
      * rewrite forallb_app, Ht. cbn [forallb]. unfold is_digit.
        cases_N; reflexivity.
      * change (d :: t ++ [48 + r]) with ((d :: t) ++ [48 + r]).
        rewrite decimal_value_snoc, Hv. revert Hdm. generalize (n / 10).
        intros q Hq. lia.
Qed.

Lemma str_of_N_pos n :
  0 < n ->
  exists d t,
    str_of_N n = d :: t
    /\ is_digit d = true /\ d <> 48
    /\ forallb is_digit t = true
    /\ decimal_value (d :: t) = n.
Proof.
  intros Hpos. unfold str_of_N.
  destruct (digits_of_pos_spec (S (N.to_nat (N.log2 n))) n [] Hpos)
    as (d & t & Heq & H).
  - rewrite Nat2N.inj_succ, N2Nat.id. apply N.log2_spec. exact Hpos.
  - exists d, t. rewrite Heq, app_nil_r. split; [ reflexivity | exact H ].
Qed.

Lemma scan_frac_delimited rest :
  delimited rest = true -> scan_frac rest = ([], rest).
Proof.
  destruct rest as [ | c r]; [ reflexivity | ].
  unfold delimited, scan_frac. cases_N; cbn; congruence.
Qed.

Lemma scan_exp_delimited rest :
  delimited rest = true -> scan_exp rest = ([], rest).
Proof.
  destruct rest as [ | c r]; [ reflexivity | ].
  unfold delimited, scan_exp. cases_N; cbn; congruence.
Qed.

Lemma scan_int_part_digits d t rest :
  is_digit d = true -> d <> 48 -> forallb is_digit t = true ->
  delimited rest = true ->
  scan_int_part (d :: t ++ rest) = Some (d :: t, rest).
Proof.
  intros Hd H0 Ht Hr. unfold scan_int_part.
  assert (H45 : (d =? 45) = false).
  { apply N.eqb_neq. apply is_digit_range in Hd. lia. }
  rewrite H45. apply N.eqb_neq in H0. rewrite H0, Hd.
  rewrite (span_digits_app _ _ Ht (delimited_not_digit _ Hr)). reflexivity.
Qed.

Lemma match_number_N n rest :
  delimited rest = true ->
  match_number (str_of_N n ++ rest) = Some (JInt (Z.of_N n), rest).
Proof.
  intros Hr. unfold match_number.
  destruct (N.eq_dec n 0) as [-> | Hn].
  - change (str_of_N 0) with [48]. cbn [app].
    change (scan_int_part (48 :: rest)) with (Some ([48], rest)).
    cbv beta iota. rewrite (scan_frac_delimited _ Hr), (scan_exp_delimited _ Hr).
    reflexivity.
  - destruct (str_of_N_pos n) as (d & t & Heq & Hd & H0 & Ht & Hv);
      [ lia | ].
    rewrite Heq. cbn [app].
    rewrite (scan_int_part_digits _ _ _ Hd H0 Ht Hr). cbv beta iota.
    rewrite (scan_frac_delimited _ Hr), (scan_exp_delimited _ Hr).
    unfold int_of_lexeme.
    assert (H45 : (d =? 45) = false).
    { apply N.eqb_neq. apply is_digit_range in Hd. lia. }
    rewrite H45, Hv. reflexivity.
Qed.

Lemma match_number_Z z rest :
  delimited rest = true ->
  match_number (str_of_Z z ++ rest) = Some (JInt z, rest).
Proof.
  intros Hr. destruct z as [ | p | p].
  - apply (match_number_N 0 rest Hr).
  - apply (match_number_N (Npos p) rest Hr).
  - unfold str_of_Z. unfold match_number.
    destruct (str_of_N_pos (Npos p)) as (d & t & Heq & Hd & H0 & Ht & Hv);
      [ reflexivity | ].
    rewrite Heq. cbn [app].
    assert (Hs : scan_int_part (45 :: d :: t ++ rest)
                 = Some (45 :: d :: t, rest)).
    { unfold scan_int_part. change (45 =? 45) with true. cbv iota.
      apply N.eqb_neq in H0. rewrite H0, Hd.
      rewrite (span_digits_app _ _ Ht (delimited_not_digit _ Hr)).
      reflexivity. }
    rewrite Hs. cbv beta iota.
    rewrite (scan_frac_delimited _ Hr), (scan_exp_delimited _ Hr).
    unfold int_of_lexeme. change (45 =? 45) with true. cbv iota.
    rewrite Hv. reflexivity.
Qed.

(** ** Scanning the text of a value *)

(** *** The first character of a value *)

Lemma starts_with_head_neq (p s : str) a c :
  a <> c -> starts_with (a :: p) (c :: s) = None.
Proof. intros H. cbn [starts_with]. apply N.eqb_neq in H. rewrite H. reflexivity. Qed.

Lemma scan_atom_start c t r :
  scan_atom (c :: t) = Some r -> atom_start c = true.
Proof.
  intros H. destruct (atom_start c) eqn:Ha; [ reflexivity | exfalso ].
  unfold atom_start in Ha.
  repeat (apply orb_false_iff in Ha; destruct Ha as [Ha ?]).
  repeat match goal with
         | Hx : (_ =? _) = false |- _ => apply N.eqb_neq in Hx
         end.
  unfold scan_atom, scan_constant, match_number, scan_int_part in H.
  change (py "null") with [110; 117; 108; 108] in H.
  change (py "true") with [116; 114; 117; 101] in H.
  change (py "false") with [102; 97; 108; 115; 101] in H.
  change (py "NaN") with [78; 97; 78] in H.
  change (py "Infinity") with [73; 110; 102; 105; 110; 105; 116; 121] in H.
  change (py "-Infinity") with [45; 73; 110; 102; 105; 110; 105; 116; 121] in H.
  rewrite !starts_with_head_neq in H by congruence.
  assert (H45 : (c =? 45) = false) by (apply N.eqb_neq; congruence).
  rewrite H45 in H.
  assert (H48 : (c =? 48) = false).
  { apply N.eqb_neq. intros ->. discriminate. }
  rewrite H48 in H.
  match goal with Hd : is_digit c = false |- _ => rewrite Hd in H end.
  discriminate.
Qed.

Lemma atom_start_dispatch c :
  atom_start c = true ->
  (c =? 34) = false /\ (c =? 123) = false /\ (c =? 91) = false
  /\ is_ws c = false /\ c <> 93 /\ c <> 125.
Proof.
  unfold atom_start, is_ws. intros H.
  repeat (apply orb_true_iff in H; destruct H as [H | H]);
    try (apply N.eqb_eq in H; subst c; repeat split; discriminate).
  apply is_digit_range in H.
  repeat split; try (apply N.eqb_neq; lia); try lia.
  cases_N; reflexivity.
Qed.

Lemma scan_once_atom f c t :
  atom_start c = true -> scan_once (S f) (c :: t) = scan_atom (c :: t).
Proof.
  intros H. destruct (atom_start_dispatch c H) as (H1 & H2 & H3 & _).
  cbn [scan_once]. rewrite H1, H2, H3. reflexivity.
Qed.

Lemma scan_atom_number c t :
  is_digit c = true \/ c = 45 ->
  scan_atom (c :: t)
  = match match_number (c :: t) with
    | Some r => Some r
    | None => scan_constant (c :: t)
    end.
Proof.
  intros H. unfold scan_atom.
  change (py "null") with [110; 117; 108; 108].
  change (py "true") with [116; 114; 117; 101].
  change (py "false") with [102; 97; 108; 115; 101].
  assert (Hc : c <> 110 /\ c <> 116 /\ c <> 102).
  { destruct H as [H | ->]; [ apply is_digit_range in H; lia | ].
    repeat split; discriminate. }
  destruct Hc as (H1 & H2 & H3).
  rewrite !starts_with_head_neq by congruence. reflexivity.
Qed.

Lemma str_of_Z_start z :
  exists c t, str_of_Z z = c :: t /\ (is_digit c = true \/ c = 45).
Proof.
  destruct z as [ | p | p].
  - exists 48, []. split; [ reflexivity | left; reflexivity ].
  - destruct (str_of_N_pos (Npos p)) as (d & t & Heq & Hd & _);
      [ reflexivity | ].
    exists d, t. split; [ exact Heq | left; exact Hd ].
  - eexists 45, _. split; [ reflexivity | right; reflexivity ].
Qed.

Lemma atom_start_number c : is_digit c = true \/ c = 45 -> atom_start c = true.
Proof.
  unfold atom_start. intros [H | ->]; [ rewrite H | reflexivity ].
  rewrite !orb_true_r. reflexivity.
Qed.

(** *** Floats: scanning a printed float *)

Lemma decimal_value_app (a b : str) :
  decimal_value (a ++ b)
  = decimal_value a * 10 ^ N.of_nat (List.length b) + decimal_value b.
Proof.
  unfold decimal_value. rewrite fold_left_app.
  generalize (fold_left (fun a0 d => a0 * 10 + (d - 48)) a 0).
  induction b as [ | d b IH]; intros x.
  - cbn [fold_left List.length]. change (N.of_nat 0) with 0.
    rewrite N.pow_0_r. lia.
  - cbn [fold_left List.length].
    rewrite (IH (x * 10 + (d - 48))), (IH (0 * 10 + (d - 48))).
    rewrite Nat2N.inj_succ, N.pow_succ_r'.
    generalize (10 ^ N.of_nat (List.length b)).
    generalize (fold_left (fun a0 d0 => a0 * 10 + (d0 - 48)) b 0).
    generalize (d - 48). intros e F P. ring.
Qed.

Lemma decimal_value_zeros j : decimal_value (repeat 48 j) = 0.
Proof.
  induction j as [ | j IH]; [ reflexivity | ].
  cbn [repeat]. change (48 :: repeat 48 j) with ([48] ++ repeat 48 j).
  rewrite decimal_value_app, IH. reflexivity.
Qed.

Lemma forallb_is_digit_zeros j : forallb is_digit (repeat 48 j) = true.
Proof. induction j as [ | j IH]; [ reflexivity | exact IH ]. Qed.

Lemma scan_int_part_text (negative : bool) d ids x :
  is_digit d = true -> forallb is_digit ids = true ->
  (d = 48 -> ids = []) -> no_digit_start x ->
  scan_int_part ((if negative then [45] else []) ++ d :: ids ++ x)
  = Some ((if negative then [45] else []) ++ d :: ids, x).
Proof.
  intros Hd Hids H0 Hx.
  assert (H45 : (d =? 45) = false).
  { apply N.eqb_neq. apply is_digit_range in Hd. lia. }
  assert (Hbody : forall sign : str,
             (if d =? 48 then Some (sign ++ [48], ids ++ x)
              else if is_digit d
                   then let (ds, r) := span_digits (ids ++ x) in
                        Some (sign ++ d :: ds, r)
                   else None) = Some (sign ++ d :: ids, x)).
  { intros sign. destruct (N.eqb_spec d 48) as [-> | Hn].
    - rewrite (H0 eq_refl). reflexivity.
    - rewrite Hd, (span_digits_app _ _ Hids Hx). reflexivity. }
  unfold scan_int_part. destruct negative; cbn [app].
  - change (45 =? 45) with true. cbv iota. apply (Hbody [45]).
  - rewrite H45. apply (Hbody []).
Qed.

Lemma scan_frac_text fds x :
  fds <> [] -> forallb is_digit fds = true -> no_digit_start x ->
  scan_frac (46 :: fds ++ x) = (46 :: fds, x).
Proof.
  intros Hne Hd Hx. unfold scan_frac. change (46 =? 46) with true. cbv iota.
  rewrite (span_digits_app _ _ Hd Hx).
  destruct fds; [ congruence | reflexivity ].
Qed.

Lemma scan_exp_text (neg : bool) eds x :
  eds <> [] -> forallb is_digit eds = true -> no_digit_start x ->
  scan_exp (101 :: (if neg then 45 else 43) :: eds ++ x)
  = (101 :: (if neg then 45 else 43) :: eds, x).
Proof.
  intros Hne Hd Hx. unfold scan_exp.
  change ((101 =? 101) || (101 =? 69)) with true. cbv iota.
  destruct neg.
  - change ((45 =? 43) || (45 =? 45)) with true. cbv iota.
    rewrite (span_digits_app _ _ Hd Hx).
    destruct eds; [ congruence | reflexivity ].
  - change ((43 =? 43) || (43 =? 45)) with true. cbv iota.
    rewrite (span_digits_app _ _ Hd Hx).
    destruct eds; [ congruence | reflexivity ].
Qed.

(** A fraction and no exponent *)
Lemma match_number_frac (negative : bool) d ids fds rest :
  is_digit d = true -> forallb is_digit ids = true -> (d = 48 -> ids = []) ->
  fds <> [] -> forallb is_digit fds = true -> delimited rest = true ->
  match_number ((if negative then [45] else []) ++ d :: ids ++ 46 :: fds ++ rest)
  = Some (JFloat (float_of_parts ((if negative then [45] else []) ++ d :: ids)
                                 (46 :: fds) []), rest).
Proof.
  intros Hd Hids H0 Hne Hfds Hr. unfold match_number.
  rewrite (scan_int_part_text negative d ids (46 :: fds ++ rest) Hd Hids H0 eq_refl).
  cbv beta iota.
  rewrite (scan_frac_text fds rest Hne Hfds (delimited_not_digit _ Hr)).
  cbv beta iota. rewrite (scan_exp_delimited _ Hr). reflexivity.
Qed.

(** An exponent, after a fraction or not *)
Lemma match_number_exp (negative neg : bool) d ids fp eds rest :
  is_digit d = true -> forallb is_digit ids = true -> (d = 48 -> ids = []) ->
  (fp = [] \/ exists fds, fp = 46 :: fds /\ fds <> []
                          /\ forallb is_digit fds = true) ->
  eds <> [] -> forallb is_digit eds = true -> delimited rest = true ->
  match_number ((if negative then [45] else [])
                ++ d :: ids ++ fp ++ 101 :: (if neg then 45 else 43) :: eds ++ rest)
  = Some (JFloat (float_of_parts ((if negative then [45] else []) ++ d :: ids)
                                 fp (101 :: (if neg then 45 else 43) :: eds)),
          rest).
Proof.
  intros Hd Hids H0 Hfp Hne Heds Hr. unfold match_number.
  pose proof (scan_exp_text neg eds rest Hne Heds (delimited_not_digit _ Hr))
    as He.
  destruct Hfp as [-> | (fds & -> & Hfne & Hfds)].
  - cbn [app].
    rewrite (scan_int_part_text
               negative d ids
               (101 :: (if neg then 45 else 43) :: eds ++ rest)
               Hd Hids H0 eq_refl).
    cbv beta iota.
    change (scan_frac (101 :: (if neg then 45 else 43) :: eds ++ rest))
      with (@nil N, 101 :: (if neg then 45 else 43) :: eds ++ rest).
    cbv beta iota. rewrite He. reflexivity.
  - cbn [app].
    rewrite (scan_int_part_text
               negative d ids
               (46 :: fds ++ 101 :: (if neg then 45 else 43) :: eds ++ rest)
               Hd Hids H0 eq_refl).
    cbv beta iota.
    rewrite (scan_frac_text
               fds (101 :: (if neg then 45 else 43) :: eds ++ rest)
               Hfne Hfds eq_refl).
    cbv beta iota. rewrite He. reflexivity.
Qed.

Lemma float_of_parts_text (negative : bool) d ids fp ep :
  is_digit d = true ->
  float_of_parts ((if negative then [45] else []) ++ d :: ids) fp ep
  = float_of_decimal negative (decimal_value ((d :: ids) ++ tl fp))
      (match tl ep with
       | c :: t => if c =? 45 then (- Z.of_N (decimal_value t))%Z
                   else if c =? 43 then Z.of_N (decimal_value t)
                   else Z.of_N (decimal_value (c :: t))
       | [] => 0%Z
       end - Z.of_nat (List.length (tl fp))).
Proof.
  intros Hd.
  assert (H45 : (d =? 45) = false).
  { apply N.eqb_neq. apply is_digit_range in Hd. lia. }
  unfold float_of_parts. destruct negative; cbn [app].
  - change (45 =? 45) with true. reflexivity.
  - rewrite H45. reflexivity.
Qed.

Lemma exponent_text_spec ex :
  ex <> 0%Z ->
  exists eds,
    exponent_text ex = 101 :: (if (ex <? 0)%Z then 45 else 43) :: eds
    /\ eds <> [] /\ forallb is_digit eds = true
    /\ Z.of_N (decimal_value eds) = Z.abs ex.
Proof.
  intros Hex. unfold exponent_text.
  destruct (str_of_N_pos (Z.abs_N ex)) as (d & t & Heq & Hd & _ & Ht & Hv);
    [ lia | ].
  rewrite Heq. destruct t as [ | t0 t'].
  - exists [48; d]. split; [ reflexivity | ]. split; [ discriminate | ].
    split; [ cbn [forallb]; rewrite Hd; reflexivity | ].
    change (decimal_value [48; d]) with (decimal_value [d]).
    rewrite Hv. apply N2Z.inj_abs_N.
  - exists (d :: t0 :: t'). split; [ reflexivity | ]. split; [ discriminate | ].
    split; [ cbn [forallb] in Ht |- *; rewrite Hd; exact Ht | ].
    rewrite Hv. apply N2Z.inj_abs_N.
Qed.

Lemma match_number_format_digits (negative : bool) c t k rest :
  is_digit c = true -> c <> 48 -> forallb is_digit t = true ->
  delimited rest = true ->
  match_number ((if negative then [45] else [])
                ++ format_digits (c :: t) k ++ rest)
  = Some (JFloat (float_of_decimal negative (decimal_value (c :: t)) k), rest).
Proof.
  intros Hc H0 Ht Hr.
  assert (H048 : c = 48 -> @nil N = []) by reflexivity.
  assert (H048' : forall l : str, c = 48 -> l = []) by (intros l H; destruct (H0 H)).
  unfold format_digits. cbv zeta.
  remember (Z.of_nat (List.length (c :: t))) as n eqn:Hn.
  cbn [List.length] in Hn. rewrite Nat2Z.inj_succ in Hn.
  destruct ((n + k <=? -4) || (16 <? n + k))%Z eqn:Hsci.
  - (* scientific notation *)
    assert (Hex : (n + k - 1 <> 0)%Z).
    { apply orb_true_iff in Hsci.
      destruct Hsci as [H | H];
        [ apply Z.leb_le in H | apply Z.ltb_lt in H ]; lia. }
    destruct (exponent_text_spec _ Hex) as (eds & -> & Hne & Hds & Hv).
    set (fp := match t with [] => [] | _ :: _ => 46 :: t end).
    assert (Hfp : fp = [] \/ exists fds, fp = 46 :: fds /\ fds <> []
                                         /\ forallb is_digit fds = true).
    { subst fp. destruct t as [ | t0 t']; [ left; reflexivity | right ].
      exists (t0 :: t'). repeat split; [ discriminate | exact Ht ]. }
    assert (Htl : tl fp = t) by (subst fp; destruct t; reflexivity).
    transitivity
      (match_number ((if negative then [45] else [])
                     ++ c :: [] ++ fp
                     ++ 101 :: (if (n + k - 1 <? 0)%Z then 45 else 43)
                     :: eds ++ rest)).
    { f_equal. f_equal. cbn [app]. rewrite <- app_assoc. reflexivity. }
    rewrite (match_number_exp negative (n + k - 1 <? 0)%Z c [] fp eds rest
               Hc eq_refl H048 Hfp Hne Hds Hr).
    rewrite (float_of_parts_text negative c [] _ _ Hc), Htl.
    cbn [tl app]. do 4 f_equal.
    destruct (Z.ltb_spec (n + k - 1) 0) as [Hneg | Hpos].
    + change (45 =? 45) with true. cbv iota. rewrite Hv. lia.
    + change (43 =? 45) with false. change (43 =? 43) with true. cbv iota.
      rewrite Hv. lia.
  - apply orb_false_iff in Hsci. destruct Hsci as [Hs1 Hs2].
    apply Z.leb_gt in Hs1. apply Z.ltb_ge in Hs2.
    destruct (Z.leb_spec (n + k) 0) as [Hle | Hgt].
    + (* zeros after the point, then the digits *)
      set (z := Z.to_nat (- (n + k))).
      transitivity
        (match_number ((if negative then [45] else [])
                       ++ 48 :: [] ++ 46 :: (repeat 48 z ++ c :: t) ++ rest)).
      { reflexivity. }
      rewrite (match_number_frac negative 48 [] (repeat 48 z ++ c :: t) rest
                 eq_refl eq_refl (fun _ => eq_refl)).
      * rewrite (float_of_parts_text negative 48 [] _ _ eq_refl).
        cbn [tl app].
        change (48 :: repeat 48 z ++ c :: t)
          with (repeat 48 (S z) ++ c :: t).
        rewrite decimal_value_app, decimal_value_zeros.
        rewrite N.mul_0_l, N.add_0_l.
        do 4 f_equal. rewrite length_app, repeat_length.
        cbn [List.length]. subst z. lia.
      * destruct (repeat 48 z); discriminate.
      * rewrite forallb_app, forallb_is_digit_zeros. cbn [forallb andb].
        rewrite Hc. exact Ht.
      * exact Hr.
    + destruct (Z.ltb_spec (n + k) n) as [Hlt | Hge].
      * (* the point between the digits *)
        destruct (Z.to_nat (n + k)) as [ | p] eqn:Hp; [ lia | ].
        cbn [firstn skipn].
        assert (Hfs : forallb is_digit (firstn p t) = true
                      /\ forallb is_digit (skipn p t) = true).
        { rewrite <- (firstn_skipn p t) in Ht. rewrite forallb_app in Ht.
          apply andb_true_iff in Ht. exact Ht. }
        destruct Hfs as [Hf Hs].
        assert (Hlen : List.length (skipn p t) = (List.length t - p)%nat)
          by apply length_skipn.
        transitivity
          (match_number ((if negative then [45] else [])
                         ++ c :: firstn p t ++ 46 :: skipn p t ++ rest)).
        { f_equal. f_equal. cbn [app]. rewrite <- app_assoc. reflexivity. }
        rewrite (match_number_frac negative c (firstn p t) (skipn p t) rest
                   Hc Hf (H048' _)).
        -- rewrite (float_of_parts_text negative c _ _ _ Hc).
           cbn [tl app]. rewrite firstn_skipn.
           do 4 f_equal. rewrite Hlen. lia.
        -- intros Heq. rewrite Heq in Hlen. cbn [List.length] in Hlen. lia.
        -- exact Hs.
        -- exact Hr.
      * (* zeros after the digits, then a point and a zero *)
        set (z := Z.to_nat (n + k - n)).
        transitivity
          (match_number ((if negative then [45] else [])
                         ++ c :: (t ++ repeat 48 z) ++ 46 :: [48] ++ rest)).
        { f_equal. f_equal. cbn [app]. rewrite <- !app_assoc. reflexivity. }
        rewrite (match_number_frac negative c (t ++ repeat 48 z) [48] rest
                   Hc).
        -- rewrite (float_of_parts_text negative c _ _ _ Hc).
           cbn [tl].
           replace ((c :: t ++ repeat 48 z) ++ [48])
             with ((c :: t) ++ repeat 48 (S z)).
           2:{ cbn [repeat]. rewrite repeat_cons. cbn [app].
               rewrite app_assoc. reflexivity. }
           rewrite decimal_value_app, decimal_value_zeros, N.add_0_r.
           rewrite repeat_length.
           rewrite float_of_decimal_shift. do 4 f_equal.
           cbn [List.length]. subst z. lia.
        -- rewrite forallb_app, Ht. apply forallb_is_digit_zeros.
        -- apply H048'.
        -- discriminate.
        -- reflexivity.
        -- exact Hr.
Qed.

Lemma strip_zeros_spec fuel :
  forall d k,
    0 < d ->
    exists j,
      fst (strip_zeros fuel d k) * 10 ^ j = d
      /\ snd (strip_zeros fuel d k) = (k + Z.of_N j)%Z
      /\ 0 < fst (strip_zeros fuel d k).
Proof.
  induction fuel as [ | f IH]; intros d k Hd.
  - exists 0. cbn [strip_zeros fst snd]. rewrite N.pow_0_r.
    repeat split; [ lia | lia | exact Hd ].
  - cbn [strip_zeros].
    destruct ((0 <? d) && (d mod 10 =? 0)) eqn:Hc.
    + apply andb_true_iff in Hc. destruct Hc as [_ Hm].
      apply N.eqb_eq in Hm.
      pose proof (N.div_mod' d 10) as Hdm. rewrite Hm in Hdm.
      assert (Hq : 0 < d / 10).
      { revert Hdm. generalize (d / 10). intros q Hq. lia. }
      destruct (IH (d / 10) (k + 1)%Z Hq) as (j & H1 & H2 & H3).
      exists (j + 1). rewrite H2.
      split; [ | split; [ lia | exact H3 ] ].
      rewrite N.pow_add_r, N.pow_1_r, N.mul_assoc, H1. lia.
    + exists 0. cbn [fst snd]. rewrite N.pow_0_r.
      repeat split; [ lia | lia | exact Hd ].
Qed.

Lemma scan_atom_match_number s r :
  match_number s = Some r -> scan_atom s = Some r.
Proof.
  intros H. destruct s as [ | c t]; [ discriminate H | ].
  assert (Hc : is_digit c = true \/ c = 45).
  { unfold match_number, scan_int_part in H.
    destruct (N.eqb_spec c 45) as [-> | H45]; [ right; reflexivity | left ].
    destruct (N.eqb_spec c 48) as [-> | H48]; [ reflexivity | ].
    destruct (is_digit c); [ reflexivity | discriminate H ]. }
  rewrite (scan_atom_number _ _ Hc), H. reflexivity.
Qed.

(** A float is read back from the text that [json.dumps] writes for it. *)
Lemma float_wf_reads_back x : float_wf x -> float_reads_back x.
Proof.
  intros Hwf rest Hr. destruct x as [ | s | negative m E].
  - reflexivity.
  - destruct s; reflexivity.
  - apply scan_atom_match_number.
    unfold floatstr, float_repr. rewrite <- app_assoc.
    destruct (N.eqb_spec m 0) as [-> | Hm].
    + assert (HE : E = 0).
      { destruct Hwf as (_ & _ & [H | H]); [ | exact H ].
        exfalso. revert H. apply N.lt_nge. reflexivity. }
      subst E.
      transitivity
        (match_number ((if negative then [45] else [])
                       ++ 48 :: [] ++ 46 :: [48] ++ rest)).
      { reflexivity. }
      rewrite (match_number_frac negative 48 [] [48] rest
                 eq_refl eq_refl (fun _ => eq_refl)
                 ltac:(discriminate) eq_refl Hr).
      rewrite (float_of_parts_text negative 48 [] _ _ eq_refl).
      cbn [tl app]. change (decimal_value [48; 48]) with 0.
      rewrite float_of_decimal_zero. reflexivity.
    + assert (Hpos : 0 < m) by lia.
      pose proof (float_digits_read_back negative m E Hpos Hwf) as Hback.
      cbv zeta in Hback.
      destruct (float_digits negative m E) as [d k].
      cbn [fst snd] in Hback. destruct Hback as [Hd Hback].
      destruct (strip_zeros_spec (N.to_nat (N.size d)) d k Hd)
        as (j & H1 & H2 & H3).
      destruct (strip_zeros (N.to_nat (N.size d)) d k) as [d' k'].
      cbn [fst snd] in H1, H2, H3.
      destruct (str_of_N_pos d' H3) as (c & t & Heq & Hc & H0 & Ht & Hv).
      rewrite Heq.
      rewrite (match_number_format_digits negative c t k' rest Hc H0 Ht Hr).
      rewrite Hv, H2, <- float_of_decimal_shift, H1, Hback. reflexivity.
Qed.

(** *** White space between the values *)

Lemma skip_ws_spaces n s : skip_ws (repeat 32 n ++ s) = skip_ws s.
Proof. induction n as [ | n IH]; [ reflexivity | exact IH ]. Qed.

Lemma skip_ws_newline_indent lvl s :
  skip_ws (newline_indent lvl ++ s) = skip_ws s.
Proof. unfold newline_indent. cbn [app skip_ws]. apply skip_ws_spaces. Qed.

Lemma skip_ws_start c t : is_ws c = false -> skip_ws (c :: t) = c :: t.
Proof. intros H. cbn [skip_ws]. rewrite H. reflexivity. Qed.

Lemma delimited_newline_indent lvl s :
  delimited (newline_indent lvl ++ s) = true.
Proof. reflexivity. Qed.

(** *** Values *)

Lemma starts_value_wf v : json_wf v -> starts_value v.
Proof.
  intros Hwf lvl. destruct Hwf as [ | b | z | l Hl | s | items _ | members _ _ ].
  - eexists _, _. split; [ reflexivity | split; [ reflexivity | discriminate ] ].
  - destruct b; eexists _, _;
      (split; [ reflexivity | split; [ reflexivity | discriminate ] ]).
  - destruct (str_of_Z_start z) as (c & t & Heq & Hc).
    exists c, t. split; [ exact Heq | ].
    destruct (atom_start_dispatch c (atom_start_number c Hc))
      as (_ & _ & _ & Hw & H93 & _).
    split; assumption.
  - pose proof (float_wf_reads_back l Hl [] eq_refl) as Hs.
    rewrite app_nil_r in Hs. cbn [iterencode].
    destruct (floatstr l) as [ | c t]; [ discriminate Hs | ].
    exists c, t. split; [ reflexivity | ].
    destruct (atom_start_dispatch c (scan_atom_start _ _ _ Hs))
      as (_ & _ & _ & Hw & H93 & _).
    split; assumption.
  - eexists _, _. split; [ reflexivity | split; [ reflexivity | discriminate ] ].
  - destruct items; eexists _, _;
      (split; [ reflexivity | split; [ reflexivity | discriminate ] ]).
  - destruct members; eexists _, _;
      (split; [ reflexivity | split; [ reflexivity | discriminate ] ]).
Qed.

Lemma str_eqb_eq a b : str_eqb a b = true <-> a = b.
Proof.
  unfold str_eqb. destruct (list_eq_dec N.eq_dec a b); split; congruence.
Qed.

Lemma dict_set_fresh k v (d : dict) :
  ~ In k (map fst d) -> dict_set k v d = d ++ [(k, v)].
Proof.
  induction d as [ | [k' v'] t IH]; intros Hn; [ reflexivity | ].
  cbn [dict_set map fst In app] in *.
  destruct (str_eqb k k') eqn:He.
  - apply str_eqb_eq in He. subst. exfalso. apply Hn. left. reflexivity.
  - rewrite IH; [ reflexivity | ]. intros Hin. apply Hn. right. exact Hin.
Qed.

Lemma dict_of_pairs_fold ps :
  forall acc : dict,
    NoDup (map fst (acc ++ ps)) ->
    fold_left (fun d kv => dict_set (fst kv) (snd kv) d) ps acc = acc ++ ps.
Proof.
  induction ps as [ | [k v] ps IH]; intros acc Hnd.
  - cbn [fold_left]. rewrite app_nil_r. reflexivity.
  - cbn [fold_left fst snd].
    rewrite dict_set_fresh.
    + rewrite IH.
      * rewrite <- app_assoc. reflexivity.
      * rewrite <- app_assoc. exact Hnd.
    + rewrite map_app in Hnd. cbn [map fst] in Hnd.
      apply NoDup_remove_2 in Hnd. intros Hin. apply Hnd.
      apply in_or_app. left. exact Hin.
Qed.

Lemma dict_of_pairs_nodup ps :
  NoDup (map fst ps) -> dict_of_pairs ps = ps.
Proof. intros H. unfold dict_of_pairs. apply (dict_of_pairs_fold ps [] H). Qed.

Lemma scan_items_encoded lvl tail :
  forall xs x f,
    Forall scans_back (x :: xs) -> Forall starts_value (x :: xs) ->
    (items_size (x :: xs) <= f)%nat ->
    scan_items f
      (iterencode (S lvl) x
       ++ List.concat (map (fun c => 44 :: newline_indent (S lvl) ++ c)
                           (map (iterencode (S lvl)) xs))
       ++ newline_indent lvl ++ 93 :: tail)
    = Some (x :: xs, tail).
Proof.
  induction xs as [ | y ys IH]; intros x f Hs Hv Hf.
  - cbn [map List.concat app items_size fold_right] in *.
    destruct f as [ | f]; [ lia | ].
    cbn [scan_items].
    inversion Hs as [ | ? ? Hx _ ]; subst.
    rewrite (Hx (S lvl) f); [ | lia | apply delimited_newline_indent ].
    cbv beta iota. rewrite skip_ws_newline_indent. reflexivity.
  - cbn [map List.concat items_size fold_right] in *.
    destruct f as [ | f]; [ lia | ].
    cbn [scan_items].
    inversion Hs as [ | ? ? Hx Hs' ]; subst.
    inversion Hv as [ | ? ? _ Hv' ]; subst.
    rewrite <- !app_assoc. cbn [app].
    rewrite (Hx (S lvl) f); [ | lia | reflexivity ].
    cbv beta iota. rewrite (skip_ws_start 44) by reflexivity.
    change (44 =? 93) with false. change (44 =? 44) with true.
    cbv iota.
    rewrite <- app_assoc, skip_ws_newline_indent.
    inversion Hv' as [ | ? ? Hy _ ]; subst.
    destruct (Hy (S lvl)) as (c & t & Heq & Hw & _).
    rewrite Heq. cbn [app]. rewrite (skip_ws_start _ _ Hw).
    change (c :: t ++ ?r) with ((c :: t) ++ r). rewrite <- Heq.
    rewrite (IH y f Hs' Hv'); [ reflexivity | ].
    unfold items_size. cbn [fold_right]. lia.
Qed.

Lemma skip_ws_value v lvl r :
  starts_value v -> skip_ws (iterencode lvl v ++ r) = iterencode lvl v ++ r.
Proof.
  intros Hv. destruct (Hv lvl) as (c & t & Heq & Hw & _).
  rewrite Heq. cbn [app]. apply skip_ws_start. exact Hw.
Qed.

Lemma scan_members_encoded lvl tail :
  forall ms k v f,
    Forall (fun kv => scans_back (snd kv)) ((k, v) :: ms) ->
    Forall (fun kv => starts_value (snd kv)) ((k, v) :: ms) ->
    (members_size ((k, v) :: ms) <= f)%nat ->
    scan_members f
      (flat_map escape_char k ++ 34 :: 58 :: 32 :: iterencode (S lvl) v
       ++ List.concat (map (fun c => 44 :: newline_indent (S lvl) ++ c)
                           (map (member_chunk (S lvl)) ms))
       ++ newline_indent lvl ++ 125 :: tail)
    = Some ((k, v) :: ms, tail).
Proof.
  assert (Hsk : forall r, skip_ws (32 :: r) = skip_ws r) by reflexivity.
  induction ms as [ | [k2 v2] ms IH]; intros k v f Hs Hv Hf.
  - cbn [map List.concat app members_size fold_right snd] in *.
    destruct f as [ | f]; [ lia | ].
    cbn [scan_members]. rewrite scan_string_encoded. cbv beta iota.
    rewrite (skip_ws_start 58) by reflexivity.
    change (58 =? 58) with true. cbv iota.
    inversion Hs as [ | ? ? Hx _ ]; subst. cbn [snd] in Hx.
    inversion Hv as [ | ? ? Hvx _ ]; subst. cbn [snd] in Hvx.
    rewrite Hsk, (skip_ws_value _ _ _ Hvx).
    rewrite (Hx (S lvl) f); [ | lia | apply delimited_newline_indent ].
    cbv beta iota. rewrite skip_ws_newline_indent. reflexivity.
  - cbn [map List.concat members_size fold_right snd] in *.
    destruct f as [ | f]; [ lia | ].
    cbn [scan_members]. rewrite scan_string_encoded. cbv beta iota.
    rewrite (skip_ws_start 58) by reflexivity.
    change (58 =? 58) with true. cbv iota.
    inversion Hs as [ | ? ? Hx Hs' ]; subst. cbn [snd] in Hx.
    inversion Hv as [ | ? ? Hvx Hv' ]; subst. cbn [snd] in Hvx.
    rewrite Hsk, (skip_ws_value _ _ _ Hvx).
    rewrite <- !app_assoc. cbn [app].
    rewrite (Hx (S lvl) f); [ | lia | reflexivity ].
    cbv beta iota. rewrite (skip_ws_start 44) by reflexivity.
    change (44 =? 125) with false. change (44 =? 44) with true.
    cbv iota.
    unfold member_chunk at 1. cbn [fst snd].
    rewrite <- !app_assoc, skip_ws_newline_indent.
    rewrite encode_basestring_app.
    rewrite (skip_ws_start 34) by reflexivity.
    change (34 =? 34) with true. cbv iota.
    cbn [app].
    rewrite (IH k2 v2 f Hs' Hv'); [ reflexivity | ].
    unfold members_size. cbn [fold_right snd]. lia.
Qed.

(** The text of a value is read back as the value. *)
Lemma scan_once_iterencode v : json_wf v -> scans_back v.
Proof.
  induction v as [ | b | z | l | s | items IH | members IH ]
    using json_nested_ind; intros Hwf lvl fuel rest Hf Hr.
  - destruct fuel as [ | f]; [ cbn in Hf; lia | ]. reflexivity.
  - destruct fuel as [ | f]; [ cbn in Hf; lia | ]. destruct b; reflexivity.
  - destruct fuel as [ | f]; [ cbn in Hf; lia | ].
    cbn [iterencode].
    destruct (str_of_Z_start z) as (c & t & Heq & Hc).
    pose proof (match_number_Z z rest Hr) as Hm.
    rewrite Heq in Hm |- *. cbn [app] in Hm |- *.
    rewrite (scan_once_atom _ _ _ (atom_start_number c Hc)).
    rewrite (scan_atom_number _ _ Hc), Hm. reflexivity.
  - destruct fuel as [ | f]; [ cbn in Hf; lia | ].
    inversion Hwf as [ | | | ? Hl | | | ]; subst.
    cbn [iterencode]. pose proof (float_wf_reads_back l Hl rest Hr) as Hs.
    destruct (floatstr l ++ rest) as [ | c t] eqn:Heq; [ discriminate Hs | ].
    rewrite (scan_once_atom _ _ _ (scan_atom_start _ _ _ Hs)). exact Hs.
  - destruct fuel as [ | f]; [ cbn in Hf; lia | ].
    cbn [iterencode]. rewrite encode_basestring_app.
    cbn [scan_once]. change (34 =? 34) with true. cbv iota.
    rewrite scan_string_encoded. reflexivity.
  - destruct fuel as [ | f]; [ cbn in Hf; lia | ].
    inversion Hwf as [ | | | | | ? Hitems | ]; subst.
    destruct items as [ | x xs]; [ reflexivity | ].
    assert (Hback : Forall scans_back (x :: xs)).
    { rewrite Forall_forall in IH, Hitems |- *. intros y Hy.
      apply IH; [ exact Hy | apply Hitems; exact Hy ]. }
    assert (Hstart : Forall starts_value (x :: xs)).
    { eapply Forall_impl; [ | exact Hitems ]. apply starts_value_wf. }
    cbn [iterencode join_chunks map].
    cbn [scan_once app]. change (91 =? 34) with false.
    change (91 =? 123) with false. change (91 =? 91) with true. cbv iota.
    rewrite <- !app_assoc, skip_ws_newline_indent.
    inversion Hstart as [ | ? ? Hx _ ]; subst.
    rewrite (skip_ws_value _ _ _ Hx).
    destruct (Hx (S lvl)) as (c & t & Heq & _ & H93).
    pose proof (scan_items_encoded lvl rest xs x f Hback Hstart) as Hscan.
    rewrite Heq in Hscan |- *. cbn [app] in Hscan |- *.
    apply N.eqb_neq in H93. rewrite H93.
    rewrite Hscan; [ reflexivity | ].
    cbn [jsize] in Hf. unfold items_size. lia.
  - destruct fuel as [ | f]; [ cbn in Hf; lia | ].
    inversion Hwf as [ | | | | | | ? Hnd Hmem ]; subst.
    destruct members as [ | [k v] ms]; [ reflexivity | ].
    assert (Hback : Forall (fun kv => scans_back (snd kv)) ((k, v) :: ms)).
    { rewrite Forall_forall in IH, Hmem |- *. intros y Hy.
      apply IH; [ exact Hy | apply Hmem; exact Hy ]. }
    assert (Hstart : Forall (fun kv => starts_value (snd kv)) ((k, v) :: ms)).
    { eapply Forall_impl; [ | exact Hmem ].
      intros kv. apply starts_value_wf. }
    cbn [iterencode join_chunks map fst snd].
    cbn [scan_once app]. change (123 =? 34) with false.
    change (123 =? 123) with true. cbv iota.
    rewrite <- !app_assoc, skip_ws_newline_indent.
    rewrite encode_basestring_app.
    rewrite (skip_ws_start 34) by reflexivity.
    change (34 =? 125) with false. change (34 =? 34) with true. cbv iota.
    cbn [app].
    pose proof (scan_members_encoded lvl rest ms k v f Hback Hstart) as Hscan.
    match goal with
    | |- match ?X with _ => _ end = _ =>
      assert (HX : X = Some ((k, v) :: ms, rest))
    end.
    { apply Hscan. cbn [jsize] in Hf. unfold members_size. lia. }
    rewrite HX, (dict_of_pairs_nodup _ Hnd). reflexivity.
Qed.

(** *** Fuel: a text is longer than the document is deep *)

Lemma length_join_items lvl nl items :
  Forall (fun x => jsize x <= List.length (iterencode lvl x))%nat items ->
  (items_size items
   <= List.length (join_chunks nl (map (iterencode lvl) items)) + 1)%nat.
Proof.
  intros H. destruct items as [ | x xs]; [ cbn; lia | ].
  inversion H as [ | ? ? Hx Hxs ]; subst.
  cbn [map join_chunks items_size fold_right].
  rewrite !length_app.
  assert (Hrest : (fold_right (fun y n => S (jsize y + n)) 0 xs
                   <= List.length
                        (List.concat (map (fun c => 44%N :: nl ++ c)
                                          (map (iterencode lvl) xs))))%nat).
  { clear Hx H. induction Hxs as [ | y ys Hy _ IH]; [ apply le_n | ].
    cbn [map List.concat fold_right]. rewrite length_app.
    cbn [List.length]. rewrite length_app. lia. }
  lia.
Qed.

Lemma length_join_members lvl nl members :
  Forall (fun kv => jsize (snd kv) <= List.length (iterencode lvl (snd kv)))%nat
         members ->
  (members_size members
   <= List.length
        (join_chunks nl
           (map (fun kv => encode_basestring (fst kv) ++ [58%N; 32%N]
                           ++ iterencode lvl (snd kv)) members)) + 1)%nat.
Proof.
  intros H. destruct members as [ | x xs]; [ cbn; lia | ].
  inversion H as [ | ? ? Hx Hxs ]; subst.
  cbn [map join_chunks members_size fold_right].
  rewrite !length_app.
  assert (Hrest : (fold_right (fun kv n => S (jsize (snd kv) + n)) 0 xs
                   <= List.length
                        (List.concat
                           (map (fun c => 44%N :: nl ++ c)
                              (map (fun kv => encode_basestring (fst kv)
                                              ++ [58%N; 32%N]
                                              ++ iterencode lvl (snd kv))
                                   xs))))%nat).
  { clear Hx H. induction Hxs as [ | y ys Hy _ IH]; [ apply le_n | ].
    cbn [map List.concat fold_right]. rewrite length_app.
    cbn [List.length]. rewrite !length_app. lia. }
  cbn [List.length]. lia.
Qed.

Lemma jsize_le_length v :
  json_wf v -> forall lvl, (jsize v <= List.length (iterencode lvl v))%nat.
Proof.
  induction v as [ | b | z | l | s | items IH | members IH ]
    using json_nested_ind; intros Hwf lvl;
    try (destruct (starts_value_wf _ Hwf lvl) as (c & t & Heq & _);
         rewrite Heq; cbn; lia).
  - inversion Hwf as [ | | | | | ? Hitems | ]; subst.
    destruct items as [ | x xs].
    { change (iterencode lvl (JArray [])) with [91; 93]. cbn. lia. }
    assert (Hlen : Forall (fun y => jsize y
                                    <= List.length (iterencode (S lvl) y))%nat
                          (x :: xs)).
    { rewrite Forall_forall in IH, Hitems |- *. intros y Hy.
      apply IH; [ exact Hy | apply Hitems; exact Hy ]. }
    pose proof (length_join_items (S lvl) (newline_indent (S lvl)) _ Hlen).
    cbn [iterencode jsize]. cbn [List.length]. rewrite !length_app.
    unfold items_size in *. cbn [List.length]. lia.
  - inversion Hwf as [ | | | | | | ? Hnd Hmem ]; subst.
    destruct members as [ | x xs].
    { change (iterencode lvl (JObject [])) with [123; 125]. cbn. lia. }
    assert (Hlen : Forall (fun kv => jsize (snd kv)
                            <= List.length (iterencode (S lvl) (snd kv)))%nat
                          (x :: xs)).
    { rewrite Forall_forall in IH, Hmem |- *. intros y Hy.
      apply IH; [ exact Hy | apply Hmem; exact Hy ]. }
    pose proof (length_join_members (S lvl) (newline_indent (S lvl)) _ Hlen).
    cbn [iterencode jsize]. cbn [List.length]. rewrite !length_app.
    unfold members_size in *. cbn [List.length]. lia.
Qed.

(** *** [json.loads] after [json.dumps] *)

Lemma json_decode_dumps v : json_wf v -> json_decode (json_dumps v) = Some v.
Proof.
  intros Hwf. unfold json_decode, json_dumps.
  pose proof (starts_value_wf _ Hwf) as Hs.
  pose proof (skip_ws_value v 0 [] Hs) as Hsk.
  rewrite app_nil_r in Hsk. rewrite Hsk.
  pose proof (scan_once_iterencode v Hwf 0%nat
                (2 * List.length (iterencode 0 v) + 2)%nat []) as Hscan.
  rewrite app_nil_r in Hscan. rewrite Hscan; [ reflexivity | | reflexivity ].
  pose proof (jsize_le_length v Hwf 0%nat). lia.
Qed.

Lemma detect_encoding_array r b :
  utf8_encode (91 :: 10 :: 32 :: 32 :: r) = Some b ->
  detect_encoding (map Byte.to_N b) = UTF8.
Proof.
  cbn [utf8_encode].
  change (utf8_encode_cp 91) with (Some [x5b]).
  change (utf8_encode_cp 10) with (Some [x0a]).
  change (utf8_encode_cp 32) with (Some [x20]).
  destruct (utf8_encode r) as [br | ]; [ | discriminate ].
  intros H; injection H as <-. reflexivity.
Qed.

Lemma json_loads_serialize x xs out :
  json_wf (JArray (x :: xs)) ->
  serialize (JArray (x :: xs)) = Some out ->
  json_loads out = inr (JArray (x :: xs)).
Proof.
  intros Hwf Hs. unfold serialize in Hs. unfold json_loads, decode_detected.
  assert (Hd : detect_encoding (map Byte.to_N out) = UTF8).
  { eapply detect_encoding_array. exact Hs. }
  rewrite Hd.
  pose proof (utf8_decode_encode _ _ Hs) as Hdec. unfold utf8_decode in Hdec.
  rewrite Hdec, (json_decode_dumps _ Hwf). reflexivity.
Qed.

(** ** What [json.loads] returns is well formed *)

Lemma float_of_parts_wf ip fp ep : float_wf (float_of_parts ip fp ep).
Proof.
  unfold float_of_parts.
  destruct (match ip with
            | c :: t => if c =? 45 then (true, t) else (false, ip)
            | [] => (false, [])
            end) as [negative int_digits].
  unfold float_of_decimal, round_ratio.
  eapply round_scaled_wf; [ apply pow10_pos | reflexivity ].
Qed.

Lemma match_number_float s x r :
  match_number s = Some (JFloat x, r) -> float_wf x.
Proof.
  unfold match_number.
  destruct (scan_int_part s) as [[ip r1] | ]; [ | discriminate ].
  destruct (scan_frac r1) as [fp r2]. destruct (scan_exp r2) as [ep r3].
  destruct fp; destruct ep; intros H; try discriminate H;
    injection H as <- _; apply float_of_parts_wf.
Qed.

Lemma match_number_shape s v r :
  match_number s = Some (v, r) ->
  (exists z, v = JInt z) \/ (exists l, v = JFloat l).
Proof.
  unfold match_number.
  destruct (scan_int_part s) as [[ip r1] | ]; [ | discriminate ].
  destruct (scan_frac r1) as [fp r2]. destruct (scan_exp r2) as [ep r3].
  destruct fp; destruct ep; intros H; injection H as <- _; eauto.
Qed.

Lemma scan_atom_wf s v r : scan_atom s = Some (v, r) -> json_wf v.
Proof.
  unfold scan_atom, scan_constant.
  destruct (starts_with (py "null") s).
  { intros H; injection H as <- _. constructor. }
  destruct (starts_with (py "true") s).
  { intros H; injection H as <- _. constructor. }
  destruct (starts_with (py "false") s).
  { intros H; injection H as <- _. constructor. }
  destruct (match_number s) as [[v' r'] | ] eqn:Hm.
  { intros H; injection H as <- <-.
    destruct (match_number_shape _ _ _ Hm) as [[z ->] | [l ->]].
    - constructor.
    - constructor. eapply match_number_float. exact Hm. }
  destruct (starts_with (py "NaN") s).
  { intros H; injection H as <- _. constructor. exact I. }
  destruct (starts_with (py "Infinity") s).
  { intros H; injection H as <- _. constructor. exact I. }
  destruct (starts_with (py "-Infinity") s).
  { intros H; injection H as <- _. constructor. exact I. }
  discriminate.
Qed.

(** *** [dict(pairs)] has no key twice *)

Lemma dict_set_keys k v (d : dict) x :
  In x (map fst (dict_set k v d)) -> x = k \/ In x (map fst d).
Proof.
  induction d as [ | [k' v'] t IH]; cbn [dict_set map fst In].
  - intros [<- | []]. left. reflexivity.
  - destruct (str_eqb k k') eqn:He; cbn [map fst In].
    + apply str_eqb_eq in He. subst k'. intros [<- | H]; auto.
    + intros [<- | H]; [ auto | ]. destruct (IH H); auto.
Qed.

Lemma dict_set_NoDup k v (d : dict) :
  NoDup (map fst d) -> NoDup (map fst (dict_set k v d)).
Proof.
  induction d as [ | [k' v'] t IH]; cbn [dict_set map fst]; intros Hnd.
  - constructor; [ intros [] | constructor ].
  - inversion Hnd as [ | ? ? Hnotin Hnd' ]; subst.
    destruct (str_eqb k k') eqn:He; cbn [map fst].
    + apply str_eqb_eq in He. subst k'. constructor; assumption.
    + constructor; [ | apply IH; exact Hnd' ].
      intros Hin. destruct (dict_set_keys _ _ _ _ Hin) as [-> | Hin'].
      * assert (Ht : str_eqb k k = true) by (apply str_eqb_eq; reflexivity).
        congruence.
      * contradiction.
Qed.

Lemma dict_set_Forall (P : json -> Prop) k v (d : dict) :
  P v -> Forall (fun kv => P (snd kv)) d ->
  Forall (fun kv => P (snd kv)) (dict_set k v d).
Proof.
  intros Hv. induction d as [ | [k' v'] t IH]; cbn [dict_set]; intros Hd.
  - constructor; [ exact Hv | constructor ].
  - inversion Hd as [ | ? ? Hh Ht ]; subst.
    destruct (str_eqb k k'); constructor; auto.
Qed.

Lemma dict_of_pairs_wf (P : json -> Prop) ps :
  Forall (fun kv => P (snd kv)) ps ->
  NoDup (map fst (dict_of_pairs ps))
  /\ Forall (fun kv => P (snd kv)) (dict_of_pairs ps).
Proof.
  unfold dict_of_pairs.
  assert (Hgen : forall acc : dict,
             NoDup (map fst acc) -> Forall (fun kv => P (snd kv)) acc ->
             Forall (fun kv => P (snd kv)) ps ->
             NoDup (map fst (fold_left
                               (fun d kv => dict_set (fst kv) (snd kv) d)
                               ps acc))
             /\ Forall (fun kv => P (snd kv))
                       (fold_left (fun d kv => dict_set (fst kv) (snd kv) d)
                                  ps acc)).
  { induction ps as [ | [k v] ps IH]; intros acc Hnd Hacc Hps.
    - split; assumption.
    - inversion Hps as [ | ? ? Hv Hps' ]; subst. cbn [fold_left fst snd].
      apply IH.
      + apply dict_set_NoDup. exact Hnd.
      + apply dict_set_Forall; assumption.
      + exact Hps'. }
  intros Hps. apply Hgen; [ constructor | constructor | exact Hps ].
Qed.

(** *** The scanner *)

Lemma scan_once_wf fuel :
  (forall s v r, scan_once fuel s = Some (v, r) -> json_wf v)
  /\ (forall s vs r, scan_items fuel s = Some (vs, r) -> Forall json_wf vs)
  /\ (forall s ps r, scan_members fuel s = Some (ps, r) ->
                     Forall (fun kv => json_wf (snd kv)) ps).
Proof.
  induction fuel as [ | f (IHo & IHi & IHm)].
  { repeat split; intros; discriminate. }
  split; [ | split ].
  - intros s v r. cbn [scan_once].
    destruct s as [ | c t]; [ discriminate | ].
    destruct (c =? 34).
    { destruct (scan_string t) as [[x r'] | ]; [ | discriminate ].
      intros H; injection H as <- _. constructor. }
    destruct (c =? 123).
    { destruct (skip_ws t) as [ | c1 t1]; [ discriminate | ].
      destruct (c1 =? 125).
      { intros H; injection H as <- _. constructor; constructor. }
      destruct (c1 =? 34); [ | discriminate ].
      destruct (scan_members f t1) as [[ps r'] | ] eqn:Hm; [ | discriminate ].
      intros H; injection H as <- _.
      destruct (dict_of_pairs_wf json_wf ps (IHm _ _ _ Hm)) as [Hnd Hall].
      constructor; assumption. }
    destruct (c =? 91).
    { destruct (skip_ws t) as [ | c1 t1]; [ discriminate | ].
      destruct (c1 =? 93).
      { intros H; injection H as <- _. constructor; constructor. }
      destruct (scan_items f (c1 :: t1)) as [[vs r'] | ] eqn:Hi;
        [ | discriminate ].
      intros H; injection H as <- _. constructor. eapply IHi. exact Hi. }
    apply scan_atom_wf.
  - intros s vs r. cbn [scan_items].
    destruct (scan_once f s) as [[v r0] | ] eqn:Ho; [ | discriminate ].
    destruct (skip_ws r0) as [ | c r']; [ discriminate | ].
    destruct (c =? 93).
    { intros H; injection H as <- _. constructor; [ | constructor ].
      eapply IHo. exact Ho. }
    destruct (c =? 44); [ | discriminate ].
    destruct (scan_items f (skip_ws r')) as [[vs' r''] | ] eqn:Hi;
      [ | discriminate ].
    intros H; injection H as <- _. constructor.
    + eapply IHo. exact Ho.
    + eapply IHi. exact Hi.
  - intros s ps r. cbn [scan_members].
    destruct (scan_string s) as [[k r0] | ]; [ | discriminate ].
    destruct (skip_ws r0) as [ | c r1]; [ discriminate | ].
    destruct (c =? 58); [ | discriminate ].
    destruct (scan_once f (skip_ws r1)) as [[v r2] | ] eqn:Ho;
      [ | discriminate ].
    destruct (skip_ws r2) as [ | c2 r3]; [ discriminate | ].
    destruct (c2 =? 125).
    { intros H; injection H as <- _. constructor; [ | constructor ].
      cbn [snd]. eapply IHo. exact Ho. }
    destruct (c2 =? 44); [ | discriminate ].
    destruct (skip_ws r3) as [ | c3 r4]; [ discriminate | ].
    destruct (c3 =? 34); [ | discriminate ].
    destruct (scan_members f r4) as [[ps' r5] | ] eqn:Hm; [ | discriminate ].
    intros H; injection H as <- _. constructor.
    + cbn [snd]. eapply IHo. exact Ho.
    + eapply IHm. exact Hm.
Qed.

Lemma json_loads_wf file v : json_loads file = inr v -> json_wf v.
Proof.
  unfold json_loads.
  destruct (decode_detected _) as [text | ]; [ | discriminate ].
  unfold json_decode.
  destruct (scan_once _ _) as [[v' r] | ] eqn:Hs; [ | discriminate ].
  destruct (skip_ws r); [ | discriminate ].
  intros H; injection H as <-.
  eapply (proj1 (scan_once_wf _)). exact Hs.
Qed.

End JsonRoundTrip.

(** The numbers of a document are written as [repr] writes them, not as the
    input has them; a number beyond the largest float is written as
    [Infinity]. *)
Lemma floats_are_written_by_repr :
  match json_loads (sample "[2.50, 1E2, 1e-7, 1e400]") with
  | inr v => serialize v
  | inl _ => None
  end
  = Some (sample "[" ++ [x0a] ++ sample "  2.5," ++ [x0a]
          ++ sample "  100.0," ++ [x0a] ++ sample "  1e-07," ++ [x0a]
          ++ sample "  Infinity" ++ [x0a] ++ sample "]").
Proof. vm_compute. reflexivity. Qed.

(** * The handlers *)

(** ** The result of [process_json_content] *)

Lemma process_json_content_raises_ValueError (file : bytes) (e : exn) :
  process_json_content file = inl e -> exists m, e = ValueError m.
Proof.
  unfold process_json_content.
  destruct (process_json_content_try file) as [e0 | r]; [ | discriminate ].
  destruct e0; intros H; injection H as <-; eauto.
Qed.

(** ** Control flow of [upload_file_to_github] *)

Ltac unfold_M :=
  unfold run, try_except, bind, lift, raise, ret, http_get, http_put in *.

Lemma upload_file_to_github_raises_HTTPException
    remote repo branch msg token file tr0 e tr :
  upload_file_to_github remote repo branch msg token file tr0 = (inl e, tr) ->
  exists c d, e = HTTPException c d.
Proof.
  unfold upload_file_to_github, try_except.
  destruct (upload_file_to_github_try _ _ _ _ _ _ _) as [[e0 | p] tr'].
  - destruct (is_ValueError e0); unfold raise.
    + intros H; injection H as <- _; eauto.
    + destruct e0; intros H; injection H as <- _; eauto.
  - discriminate.
Qed.

(** An upload that [process_json_content] refuses ends with status 400 and
    sends nothing. *)
Lemma upload_refused remote repo branch msg token file e :
  process_json_content file = inl e ->
  exists d,
    run (upload_file_to_github remote repo branch msg token file)
    = (inl (HTTPException 400 d), []).
Proof.
  intros H.
  destruct (process_json_content_raises_ValueError _ _ H) as [m ->].
  unfold upload_file_to_github, upload_file_to_github_try. unfold_M.
  destruct file as [ | b file'].
  - eexists. reflexivity.
  - rewrite H. eexists. reflexivity.
Qed.

(** An upload whose name is not truthy ends with status 400 and sends
    nothing. *)
Lemma upload_no_name remote repo branch msg token file out ft nf nv :
  process_json_content file = inr (out, ft, nf, nv) ->
  truthy nv = false ->
  run (upload_file_to_github remote repo branch msg token file)
  = (inl (HTTPException 400 (py "无法从JSON中提取名称")), []).
Proof.
  intros H Hn.
  unfold upload_file_to_github, upload_file_to_github_try. unfold_M.
  destruct file as [ | b file'].
  - vm_compute in H. discriminate.
  - rewrite H. cbv beta iota zeta. rewrite Hn. reflexivity.
Qed.

(** ** [process_json_content] step by step *)

Lemma process_try_object file d :
  json_loads file = inr (JObject d) ->
  process_json_content_try file =
  match classify d with
  | None => inl (ValueError (py "JSON中未找到bookSourceName或sourceName字段"))
  | Some (ft, nf, nv) =>
    match clean_name nv with
    | inl e => inl e
    | inr name =>
      match serialize (JArray [JObject d]) with
      | Some b => inr (b, ft, nf, name)
      | None => inl (UnicodeError (py "codec can't encode character"))
      end
    end
  end.
Proof.
  intros H. unfold process_json_content_try, classify. rewrite H.
  destruct (dict_has (py "bookSourceName") d); [ reflexivity | ].
  destruct (dict_has (py "sourceName") d); reflexivity.
Qed.

Lemma process_try_array file d rest :
  json_loads file = inr (JArray (JObject d :: rest)) ->
  process_json_content_try file =
  match classify d with
  | None =>
    inl (ValueError (py "JSON数组中未找到bookSourceName或sourceName字段"))
  | Some (ft, nf, nv) =>
    match clean_name nv with
    | inl e => inl e
    | inr name =>
      match serialize (JArray (JObject d :: rest)) with
      | Some b => inr (b, ft, nf, name)
      | None => inl (UnicodeError (py "codec can't encode character"))
      end
    end
  end.
Proof.
  intros H. unfold process_json_content_try, classify. rewrite H.
  destruct (dict_has (py "bookSourceName") d); [ reflexivity | ].
  destruct (dict_has (py "sourceName") d); reflexivity.
Qed.

(** Every other document is refused. *)
Lemma process_try_other file doc :
  json_loads file = inr doc ->
  (forall d, doc <> JObject d) ->
  (forall d rest, doc <> JArray (JObject d :: rest)) ->
  exists m, process_json_content_try file = inl (ValueError m).
Proof.
  intros H Ho Ha. unfold process_json_content_try. rewrite H.
  destruct doc as [ | b | z | l | s | items | d ]; try (eexists; reflexivity).
  - destruct items as [ | first rest ]; [ eexists; reflexivity | ].
    destruct first; try (eexists; reflexivity).
    exfalso. eapply Ha. reflexivity.
  - exfalso. eapply Ho. reflexivity.
Qed.

Lemma process_of_try_error file e :
  process_json_content_try file = inl e ->
  exists m, process_json_content file = inl (ValueError m).
Proof.
  unfold process_json_content. intros ->. destruct e; eauto.
Qed.

Lemma process_of_try_ok file r :
  process_json_content_try file = inr r ->
  process_json_content file = inr r.
Proof. unfold process_json_content. intros ->. reflexivity. Qed.

Lemma dict_has_false k d : dict_has k d = false <-> dict_get k d = None.
Proof.
  unfold dict_has. destruct (dict_get k d) as [v | ].
  - split; discriminate.
  - split; reflexivity.
Qed.

(** The name that decides the kind: [bookSourceName] when it is present,
    else [sourceName]. *)
Lemma classify_book d nv :
  dict_get (py "bookSourceName") d = Some nv ->
  classify d = Some (py "book_source", py "bookSourceName", nv).
Proof.
  intros H. unfold classify, dict_has, get_or_none. rewrite H. reflexivity.
Qed.

Lemma classify_subscription d nv :
  dict_get (py "bookSourceName") d = None ->
  dict_get (py "sourceName") d = Some nv ->
  classify d = Some (py "subscription_source", py "sourceName", nv).
Proof.
  intros H1 H2. unfold classify, dict_has, get_or_none. rewrite H1, H2.
  reflexivity.
Qed.

Lemma classify_none d :
  dict_get (py "bookSourceName") d = None ->
  dict_get (py "sourceName") d = None ->
  classify d = None.
Proof.
  intros H1 H2. unfold classify, dict_has. rewrite H1, H2. reflexivity.
Qed.

(** ** What reaches the remote store *)

Lemma clean_name_string raw :
  clean_name (JString raw) = inr (JString (strip (re_sub_illegal raw))).
Proof. unfold clean_name. destruct raw as [ | c t]; reflexivity. Qed.

Lemma clean_name_empty nv name :
  clean_name nv = inr name ->
  (forall s, nv = JString s -> strip (re_sub_illegal s) = []) ->
  truthy name = false.
Proof.
  unfold clean_name. intros H Hs.
  destruct (truthy nv) eqn:Ht.
  - destruct nv; try discriminate.
    injection H as <-. rewrite (Hs s eq_refl). reflexivity.
  - injection H as <-. exact Ht.
Qed.

Lemma post_upload_of_run remote repo branch msg token file c d tr :
  run (upload_file_to_github remote repo branch msg token file)
  = (inl (HTTPException c d), tr) ->
  post_upload remote (mkUploadForm repo branch msg token file)
  = (mkHttp c (JObject [(py "detail", JString d)]), tr).
Proof. unfold post_upload. cbn [uf_repo_name uf_branch uf_commit_message
                                uf_access_token uf_file].
  intros ->. reflexivity.
Qed.

(** When the [try] block of [process_json_content] yields [r] for every
    outcome of the classification, the upload is refused unless the name of
    [r] is truthy. *)
Lemma upload_rejected_via_try remote repo branch msg token file :
  (forall out ft nf name,
      process_json_content_try file = inr (out, ft, nf, name) ->
      truthy name = false) ->
  exists detail,
    run (upload_file_to_github remote repo branch msg token file)
    = (inl (HTTPException 400 detail), []).
Proof.
  intros Hr.
  destruct (process_json_content_try file) as [e | [[[out ft] nf] name]] eqn:Ht.
  - destruct (process_of_try_error _ _ Ht) as [m Hm].
    eapply upload_refused. exact Hm.
  - eexists. eapply upload_no_name.
    + apply process_of_try_ok. exact Ht.
    + eapply Hr. reflexivity.
Qed.

(** A name that is not a string, or that is empty once cleaned, never
    reaches the remote store. *)
Lemma upload_rejected_empty_name
    remote repo branch msg token file doc d nv :
  json_loads file = inr doc ->
  (doc = JObject d \/ exists rest, doc = JArray (JObject d :: rest)) ->
  (dict_get (py "bookSourceName") d = Some nv
   \/ (dict_get (py "bookSourceName") d = None
       /\ dict_get (py "sourceName") d = Some nv)) ->
  (forall s, nv = JString s -> strip (re_sub_illegal s) = []) ->
  exists detail,
    post_upload remote (mkUploadForm repo branch msg token file)
    = (mkHttp 400 (JObject [(py "detail", JString detail)]), []).
Proof.
  intros Hl Hshape Hname Hns.
  assert (Hc : exists ft nf, classify d = Some (ft, nf, nv)).
  { destruct Hname as [Hb | [Hb Hsn]].
    - rewrite (classify_book _ _ Hb). eauto.
    - rewrite (classify_subscription _ _ Hb Hsn). eauto. }
  destruct Hc as (ft & nf & Hc).
  destruct (upload_rejected_via_try remote repo branch msg token file)
    as [detail Hd].
  - intros out ft' nf' name.
    destruct Hshape as [-> | [rest ->]].
    + rewrite (process_try_object _ _ Hl), Hc.
      destruct (clean_name nv) as [e | name'] eqn:Hcn; [ discriminate | ].
      destruct (serialize _); [ | discriminate ].
      intros H; injection H as _ _ _ <-.
      eapply clean_name_empty; eassumption.
    + rewrite (process_try_array _ _ _ Hl), Hc.
      destruct (clean_name nv) as [e | name'] eqn:Hcn; [ discriminate | ].
      destruct (serialize _); [ | discriminate ].
      intros H; injection H as _ _ _ <-.
      eapply clean_name_empty; eassumption.
  - exists detail. apply post_upload_of_run. exact Hd.
Qed.

(** C5, as the code has it. An upload whose bytes [json.loads] does not
    accept, or that decode to an empty array, or to an object (or to an array
    whose first element is an object) that has neither [bookSourceName] nor
    [sourceName], is refused by [process_json_content] with a [ValueError];
    the request ends with status 400 and no request is sent to the remote
    store, neither the read nor the write. *)
Theorem C5_invalid_content_never_reaches_remote
    remote repo branch msg token file :
  (exists e, json_loads file = inl e)
  \/ json_loads file = inr (JArray [])
  \/ (exists doc d,
        json_loads file = inr doc
        /\ (doc = JObject d \/ exists rest, doc = JArray (JObject d :: rest))
        /\ dict_has (py "bookSourceName") d = false
        /\ dict_has (py "sourceName") d = false) ->
  (exists m, process_json_content file = inl (ValueError m))
  /\ exists detail,
       post_upload remote (mkUploadForm repo branch msg token file)
       = (mkHttp 400 (JObject [(py "detail", JString detail)]), []).
Proof.
  intros H.
  assert (Ht : exists e, process_json_content_try file = inl e).
  { destruct H as [[e He] | [He | (doc & d & He & Hshape & Hb & Hs)]].
    - exists e. unfold process_json_content_try. rewrite He. reflexivity.
    - eexists. unfold process_json_content_try. rewrite He. reflexivity.
    - apply dict_has_false in Hb. apply dict_has_false in Hs.
      destruct Hshape as [-> | [rest ->]].
      + rewrite (process_try_object _ _ He), (classify_none _ Hb Hs). eauto.
      + rewrite (process_try_array _ _ _ He), (classify_none _ Hb Hs). eauto. }
  destruct Ht as [e Ht].
  destruct (process_of_try_error _ _ Ht) as [m Hm].
  split; [ eauto | ].
  destruct (upload_refused remote repo branch msg token _ _ Hm) as [d Hd].
  exists d. apply post_upload_of_run. exact Hd.
Qed.

Lemma C5_witness :
  (json_loads (sample "[{'name': 'x'}]")
   = inr (JArray [JObject [(py "name", JString (py "x"))]]))
  /\ ((exists m, process_json_content (sample "[{'name': 'x'}]")
                 = inl (ValueError m))
      /\ exists detail,
           post_upload (fixed_remote 404 201 (inr JNull))
             (mkUploadForm (py "org/repo") (py "main") (py "add") (py "t")
                           (sample "[{'name': 'x'}]"))
           = (mkHttp 400 (JObject [(py "detail", JString detail)]), [])).
Proof.
  split; [ vm_compute; reflexivity | ].
  apply C5_invalid_content_never_reaches_remote.
  right. right. eexists. eexists. split; [ vm_compute; reflexivity | ].
  split; [ right; eexists; reflexivity | ].
  split; vm_compute; reflexivity.
Defined.

(** The claim as the specification words it fails on bytes that are not
    valid JSON and that [json.loads] accepts: [NaN] is no value of the JSON
    grammar. The upload is accepted, and both the read and the write are
    sent. *)
Lemma C5_counterexample :
  valid_json (sample "{'bookSourceName':'X','v':NaN}") = false
  /\ json_loads (sample "{'bookSourceName':'X','v':NaN}")
     = inr (JObject [(py "bookSourceName", JString (py "X"));
                     (py "v", JFloat NaN)])
  /\ (exists out,
         process_json_content (sample "{'bookSourceName':'X','v':NaN}")
         = inr (out, py "book_source", py "bookSourceName",
                JString (py "X")))
  /\ exists url h read data written,
       post_upload (fixed_remote 404 201 (inr JNull))
         (mkUploadForm (py "org/repo") (py "main") (py "add") (py "t")
                       (sample "{'bookSourceName':'X','v':NaN}"))
       = (mkHttp 200 (JString (py "book-sources/X.json")),
          [Get url h read; Put url h data written]).
Proof.
  split; [ vm_compute; reflexivity | ].
  split; [ vm_compute; reflexivity | ].
  split.
  - remember (process_json_content
                (sample "{'bookSourceName':'X','v':NaN}")) as r eqn:Hr.
    vm_compute in Hr. subst r. eexists. reflexivity.
  - remember (post_upload (fixed_remote 404 201 (inr JNull))
                (mkUploadForm (py "org/repo") (py "main") (py "add") (py "t")
                   (sample "{'bookSourceName':'X','v':NaN}"))) as r eqn:Hr.
    vm_compute in Hr. subst r. do 5 eexists. reflexivity.
Qed.

(** C10. When the name that decides the kind ([bookSourceName] if present,
    else [sourceName]) is present but is not a non-empty string (a number,
    [null], a boolean, an array, an object, or the empty string), the
    request ends with status 400 and nothing is sent to the remote store: no
    path is derived from such a name. *)
Theorem C10_non_string_name_is_rejected
    remote repo branch msg token file doc d nv :
  json_loads file = inr doc ->
  (doc = JObject d \/ exists rest, doc = JArray (JObject d :: rest)) ->
  (dict_get (py "bookSourceName") d = Some nv
   \/ (dict_get (py "bookSourceName") d = None
       /\ dict_get (py "sourceName") d = Some nv)) ->
  (forall s, nv = JString s -> s = []) ->
  exists detail,
    post_upload remote (mkUploadForm repo branch msg token file)
    = (mkHttp 400 (JObject [(py "detail", JString detail)]), []).
Proof.
  intros Hl Hshape Hname Hns.
  eapply upload_rejected_empty_name; try eassumption.
  intros s Hs. rewrite (Hns s Hs). reflexivity.
Qed.

Lemma C10_witness :
  (json_loads (sample "{'bookSourceName': 5, 'sourceName': 'Feed1'}")
   = inr (JObject [(py "bookSourceName", JInt 5);
                   (py "sourceName", JString (py "Feed1"))]))
  /\ exists detail,
       post_upload (fixed_remote 404 201 (inr JNull))
         (mkUploadForm (py "org/repo") (py "main") (py "add") (py "t")
            (sample "{'bookSourceName': 5, 'sourceName': 'Feed1'}"))
       = (mkHttp 400 (JObject [(py "detail", JString detail)]), []).
Proof.
  split; [ vm_compute; reflexivity | ].
  eapply (C10_non_string_name_is_rejected _ _ _ _ _ _ _ _ (JInt 5)).
  - vm_compute. reflexivity.
  - left. reflexivity.
  - left. vm_compute. reflexivity.
  - intros s Hs. discriminate Hs.
Defined.

(** ** The simple route *)

(** What [upload_file_simple] returns, from the outcome of
    [upload_file_to_github]. *)
Lemma upload_file_simple_run remote file repo branch msg token :
  (exists path tr,
      run (upload_file_to_github remote repo branch msg token file)
      = (inr path, tr)
      /\ run (upload_file_simple remote file repo branch msg token)
         = (inr (JObject [(py "message", JString (py "ok"));
                          (py "data", JString path)]), tr))
  \/ (exists c detail tr,
         run (upload_file_to_github remote repo branch msg token file)
         = (inl (HTTPException c detail), tr)
         /\ run (upload_file_simple remote file repo branch msg token)
            = (inr (JObject [(py "message", JString (py "error"));
                             (py "data",
                              JString (py "上传失败: " ++ detail))]), tr)).
Proof.
  unfold upload_file_simple, run, try_except, bind.
  destruct (upload_file_to_github remote repo branch msg token file [])
    as [[e | path] tr] eqn:Hu.
  - destruct (upload_file_to_github_raises_HTTPException _ _ _ _ _ _ _ _ _ Hu)
      as (c & d & ->).
    right. exists c, d, tr. split; reflexivity.
  - left. exists path, tr. split; reflexivity.
Qed.

(** C8. Every request to [/upload-simple] is answered with status 200; the
    handler never raises; the body is [message = ok] with the path that
    [upload_file_to_github] returned as [data], or [message = error] with
    [data] made of the fixed prefix of the source (its text says: upload
    failed) followed by the detail of the failure. *)
Theorem C8_upload_simple_always_answers_200 remote (f : simple_form) :
  let repo := form_default (sf_repo_name f) (py "NineDrm/sourcezip") in
  let branch := form_default (sf_branch f) (py "main") in
  let msg := form_default (sf_commit_message f) (py "上传书源文件") in
  exists body tr,
    run (upload_file_simple remote (sf_file f) repo branch msg
                            (sf_access_token f)) = (inr body, tr)
    /\ post_upload_simple remote f = (mkHttp 200 body, tr)
    /\ ((exists path,
            run (upload_file_to_github remote repo branch msg
                                       (sf_access_token f) (sf_file f))
            = (inr path, tr)
            /\ body = JObject [(py "message", JString (py "ok"));
                               (py "data", JString path)])
        \/ (exists c detail,
               run (upload_file_to_github remote repo branch msg
                                          (sf_access_token f) (sf_file f))
               = (inl (HTTPException c detail), tr)
               /\ body = JObject [(py "message", JString (py "error"));
                                  (py "data",
                                   JString (py "上传失败: " ++ detail))])).
Proof.
  intros repo branch msg.
  destruct (upload_file_simple_run remote (sf_file f) repo branch msg
                                   (sf_access_token f))
    as [(path & tr & Hu & Hs) | (c & detail & tr & Hu & Hs)].
  - eexists. exists tr. split; [ exact Hs | ]. split.
    + unfold post_upload_simple. fold repo branch msg. rewrite Hs.
      reflexivity.
    + left. exists path. split; [ exact Hu | reflexivity ].
  - eexists. exists tr. split; [ exact Hs | ]. split.
    + unfold post_upload_simple. fold repo branch msg. rewrite Hs.
      reflexivity.
    + right. exists c, detail. split; [ exact Hu | reflexivity ].
Qed.

(** ** Cleaning the name *)

Lemma re_sub_illegal_filter s :
  re_sub_illegal s = filter (fun c => negb (is_illegal c)) s.
Proof.
  induction s as [ | c t IH]; [ reflexivity | ].
  cbn [re_sub_illegal filter]. rewrite IH.
  destruct (is_illegal c); reflexivity.
Qed.

Lemma is_illegal_In c : is_illegal c = true <-> In c illegal_chars.
Proof.
  unfold is_illegal. rewrite existsb_exists. split.
  - intros (x & Hx & He). apply N.eqb_eq in He. subst. exact Hx.
  - intros H. exists c. split; [ exact H | apply N.eqb_refl ].
Qed.

Lemma lstrip_split s :
  exists l, s = l ++ lstrip s /\ forallb isspace l = true.
Proof.
  induction s as [ | c t (l & Hl & Hw)].
  - exists []. split; reflexivity.
  - cbn [lstrip]. destruct (isspace c) eqn:Hc.
    + exists (c :: l). cbn [app forallb]. rewrite Hc, Hw.
      split; [ f_equal; exact Hl | reflexivity ].
    + exists []. split; reflexivity.
Qed.

Lemma lstrip_head s c t : lstrip s = c :: t -> isspace c = false.
Proof.
  induction s as [ | a s IH]; cbn [lstrip]; [ discriminate | ].
  destruct (isspace a) eqn:Ha; [ exact IH | ].
  intros H; injection H as <- _. exact Ha.
Qed.

Lemma rstrip_snoc s c :
  rstrip (s ++ [c]) = if isspace c then rstrip s else s ++ [c].
Proof.
  unfold rstrip. rewrite rev_unit. cbn [lstrip].
  destruct (isspace c); [ reflexivity | ].
  cbn [rev]. rewrite rev_involutive. reflexivity.
Qed.

Lemma rstrip_split s :
  exists r, s = rstrip s ++ r /\ forallb isspace r = true.
Proof.
  induction s as [ | c s (r & Hr & Hw)] using rev_ind.
  - exists []. split; reflexivity.
  - rewrite rstrip_snoc. destruct (isspace c) eqn:Hc.
    + exists (r ++ [c]). rewrite forallb_app, Hw. cbn [forallb]. rewrite Hc.
      split; [ | reflexivity ].
      rewrite app_assoc, <- Hr. reflexivity.
    + exists []. rewrite app_nil_r. split; reflexivity.
Qed.

Lemma rstrip_last s t c : rstrip s = t ++ [c] -> isspace c = false.
Proof.
  induction s as [ | a s IH] using rev_ind.
  - unfold rstrip. cbn. intros H. destruct t; discriminate.
  - rewrite rstrip_snoc. destruct (isspace a) eqn:Ha; [ exact IH | ].
    intros H. apply app_inj_tail in H. destruct H as [_ <-]. exact Ha.
Qed.

(** Trimming on the right keeps a first character that is not white
    space. *)
Lemma rstrip_head c s :
  isspace c = false -> exists t', rstrip (c :: s) = c :: t'.
Proof.
  intros Hc. induction s as [ | b s IHs] using rev_ind.
  - exists []. change [c] with ([] ++ [c]). rewrite rstrip_snoc, Hc.
    reflexivity.
  - change (c :: s ++ [b]) with ((c :: s) ++ [b]). rewrite rstrip_snoc.
    destruct (isspace b); [ exact IHs | eexists; reflexivity ].
Qed.

Lemma strip_split s :
  exists l r,
    s = l ++ strip s ++ r
    /\ forallb isspace l = true /\ forallb isspace r = true.
Proof.
  unfold strip.
  destruct (lstrip_split s) as (l & Hl & Hwl).
  destruct (rstrip_split (lstrip s)) as (r & Hr & Hwr).
  exists l, r. split; [ | split; assumption ].
  rewrite <- Hr. exact Hl.
Qed.

Lemma strip_head s c t : strip s = c :: t -> isspace c = false.
Proof.
  unfold strip. destruct (lstrip s) as [ | a u] eqn:Hl.
  - unfold rstrip. cbn. discriminate.
  - pose proof (lstrip_head _ _ _ Hl) as Ha.
    destruct (rstrip_head a u Ha) as [t' Ht']. rewrite Ht'.
    intros H; injection H as <- _. exact Ha.
Qed.

Lemma strip_last s t c : strip s = t ++ [c] -> isspace c = false.
Proof. unfold strip. apply rstrip_last. Qed.

Lemma strip_removed s c :
  In c illegal_chars -> ~ In c (strip (re_sub_illegal s)).
Proof.
  intros Hc Hin.
  destruct (strip_split (re_sub_illegal s)) as (l & r & Hs & _).
  assert (Hin' : In c (re_sub_illegal s)).
  { rewrite Hs. apply in_or_app. right. apply in_or_app. left. exact Hin. }
  rewrite re_sub_illegal_filter in Hin'. apply filter_In in Hin'.
  destruct Hin' as [_ Hn]. apply is_illegal_In in Hc. rewrite Hc in Hn.
  discriminate.
Qed.

(** C4. Cleaning a name removes every occurrence of each of the nine
    characters (backslash, slash, star, question mark, colon, double quote,
    less than, greater than, vertical bar), keeps the other characters in
    their order, and then trims the white space at both ends; [A/B:C*D]
    becomes [ABCD]; and when the cleaned name is empty the request ends with
    status 400 without any request to the remote store. *)
Theorem C4_name_is_cleaned_then_trimmed (raw : str) :
  let cleaned := strip (re_sub_illegal raw) in
  clean_name (JString raw) = inr (JString cleaned)
  /\ re_sub_illegal raw = filter (fun c => negb (is_illegal c)) raw
  /\ (forall c, In c illegal_chars -> ~ In c cleaned)
  /\ (exists l r, re_sub_illegal raw = l ++ cleaned ++ r
                  /\ forallb isspace l = true /\ forallb isspace r = true)
  /\ (forall c t, cleaned = c :: t -> isspace c = false)
  /\ (forall t c, cleaned = t ++ [c] -> isspace c = false)
  /\ strip (re_sub_illegal (py "A/B:C*D")) = py "ABCD"
  /\ (cleaned = [] ->
      forall remote repo branch msg token file doc d,
        json_loads file = inr doc ->
        (doc = JObject d \/ exists rest, doc = JArray (JObject d :: rest)) ->
        (dict_get (py "bookSourceName") d = Some (JString raw)
         \/ (dict_get (py "bookSourceName") d = None
             /\ dict_get (py "sourceName") d = Some (JString raw))) ->
        exists detail,
          post_upload remote (mkUploadForm repo branch msg token file)
          = (mkHttp 400 (JObject [(py "detail", JString detail)]), [])).
Proof.
  intros cleaned. subst cleaned.
  split; [ apply clean_name_string | ].
  split; [ apply re_sub_illegal_filter | ].
  split; [ intros c; apply strip_removed | ].
  split; [ apply strip_split | ].
  split; [ apply strip_head | ].
  split; [ apply strip_last | ].
  split; [ vm_compute; reflexivity | ].
  intros Hempty remote repo branch msg token file doc d Hl Hshape Hname.
  eapply upload_rejected_empty_name; try eassumption.
  intros s Hs. injection Hs as <-. exact Hempty.
Qed.

Lemma C4_witness :
  strip (re_sub_illegal (py " ?:| ")) = []
  /\ json_loads (sample "[{'sourceName': ' ?:| '}]")
     = inr (JArray [JObject [(py "sourceName", JString (py " ?:| "))]])
  /\ exists detail,
       post_upload (fixed_remote 404 201 (inr JNull))
         (mkUploadForm (py "org/repo") (py "main") (py "add") (py "t")
                       (sample "[{'sourceName': ' ?:| '}]"))
       = (mkHttp 400 (JObject [(py "detail", JString detail)]), []).
Proof.
  split; [ vm_compute; reflexivity | ].
  split; [ vm_compute; reflexivity | ].
  destruct (C4_name_is_cleaned_then_trimmed (py " ?:| "))
    as (_ & _ & _ & _ & _ & _ & _ & H).
  eapply H.
  - vm_compute. reflexivity.
  - vm_compute. reflexivity.
  - right. eexists. reflexivity.
  - right. split; vm_compute; reflexivity.
Defined.

(** ** The exchanges of an accepted upload *)

Lemma upload_file_to_github_reraises remote repo branch msg token file :
  run (upload_file_to_github remote repo branch msg token file)
  = (reraised (fst (run (upload_file_to_github_try remote repo branch msg
                                                   token file))),
     snd (run (upload_file_to_github_try remote repo branch msg token file))).
Proof.
  unfold upload_file_to_github, run, try_except.
  destruct (upload_file_to_github_try remote repo branch msg token file [])
    as [[e | path] tr]; [ | reflexivity ].
  cbn [fst snd reraised]. unfold reraise, raise.
  destruct (is_ValueError e); [ reflexivity | ].
  destruct e; reflexivity.
Qed.

Lemma upload_try_accepted_run remote repo branch msg token file out ft nf nv :
  process_json_content file = inr (out, ft, nf, nv) ->
  truthy nv = true ->
  let path := file_path_of ft nv in
  let url := base_url_of repo path in
  let h := headers_of token in
  let g := requests_get remote url h in
  run (upload_file_to_github_try remote repo branch msg token file) =
  match g with
  | inl e => (inl e, [Get url h g])
  | inr read =>
    match utf8_decode (b64encode out) with
    | None => (inl (UnicodeError (py "codec can't decode bytes")),
               [Get url h g])
    | Some content =>
      match write_data msg content branch read with
      | inl e => (inl e, [Get url h g])
      | inr data =>
        let p := requests_put remote url h data in
        (write_outcome path p, [Get url h g; Put url h data p])
      end
    end
  end.
Proof.
  intros Hp Ht path url h g.
  assert (Hne : file <> []).
  { intros ->. vm_compute in Hp. discriminate. }
  unfold upload_file_to_github_try, run.
  destruct file as [ | b0 file']; [ congruence | ].
  unfold bind at 1. unfold lift at 1. rewrite Hp. cbv beta iota zeta.
  rewrite Ht. cbn [negb].
  fold (file_path_of ft nv). fold path.
  fold (base_url_of repo path). fold url.
  fold (headers_of token). fold h.
  unfold bind, http_get, http_put, lift, ret, raise. fold g.
  cbn [app].
  destruct g as [e | read]; [ reflexivity | ].
  destruct (utf8_decode (b64encode out)) as [content | ]; [ | reflexivity ].
  unfold write_data.
  destruct (status_code read =? 200)%Z.
  - destruct (resp_json read) as [e | file_info]; [ reflexivity | ].
    destruct (subscript file_info (py "sha")) as [e | sha]; [ reflexivity | ].
    cbv zeta.
    destruct (requests_put remote url h _) as [e | ur]; [ reflexivity | ].
    cbn [app write_outcome]. unfold failure_text.
    destruct ((status_code ur =? 201)%Z || (status_code ur =? 200)%Z);
      reflexivity.
  - cbv zeta.
    destruct (requests_put remote url h _) as [e | ur]; [ reflexivity | ].
    cbn [app write_outcome]. unfold failure_text.
    destruct ((status_code ur =? 201)%Z || (status_code ur =? 200)%Z);
      reflexivity.
Qed.

Lemma upload_accepted_run remote repo branch msg token file out ft nf nv :
  process_json_content file = inr (out, ft, nf, nv) ->
  truthy nv = true ->
  let path := file_path_of ft nv in
  let url := base_url_of repo path in
  let h := headers_of token in
  let g := requests_get remote url h in
  run (upload_file_to_github remote repo branch msg token file) =
  match g with
  | inl e => (inl (reraise e), [Get url h g])
  | inr read =>
    match utf8_decode (b64encode out) with
    | None => (inl (reraise (UnicodeError (py "codec can't decode bytes"))),
               [Get url h g])
    | Some content =>
      match write_data msg content branch read with
      | inl e => (inl (reraise e), [Get url h g])
      | inr data =>
        let p := requests_put remote url h data in
        (reraised (write_outcome path p), [Get url h g; Put url h data p])
      end
    end
  end.
Proof.
  intros Hp Ht path url h g.
  rewrite upload_file_to_github_reraises.
  rewrite (upload_try_accepted_run remote repo branch msg token _ _ _ _ _
                                   Hp Ht).
  fold path url h g.
  destruct g as [e | read]; [ reflexivity | ].
  destruct (utf8_decode (b64encode out)) as [content | ]; [ | reflexivity ].
  destruct (write_data msg content branch read); reflexivity.
Qed.

(** An upload either sends nothing and is refused with status 400, or it was
    accepted by [process_json_content] with a truthy name. *)
Lemma upload_refused_or_accepted remote repo branch msg token file :
  (exists detail,
      run (upload_file_to_github remote repo branch msg token file)
      = (inl (HTTPException 400 detail), []))
  \/ (exists out ft nf nv,
         process_json_content file = inr (out, ft, nf, nv)
         /\ truthy nv = true).
Proof.
  destruct (process_json_content file) as [e | [[[out ft] nf] nv]] eqn:Hp.
  - left. eapply upload_refused. exact Hp.
  - destruct (truthy nv) eqn:Ht.
    + right. exists out, ft, nf, nv. split; [ reflexivity | exact Ht ].
    + left. eexists. eapply upload_no_name; eassumption.
Qed.

(** When a write was sent, the upload had been accepted, the read had been
    answered, and the write is the second and last exchange. *)
Lemma upload_write_inv remote repo branch msg token file url h data p :
  In (Put url h data p)
     (snd (run (upload_file_to_github remote repo branch msg token file))) ->
  exists out ft nf nv read content,
    process_json_content file = inr (out, ft, nf, nv)
    /\ truthy nv = true
    /\ url = base_url_of repo (file_path_of ft nv)
    /\ h = headers_of token
    /\ requests_get remote url h = inr read
    /\ utf8_decode (b64encode out) = Some content
    /\ write_data msg content branch read = inr data
    /\ p = requests_put remote url h data
    /\ run (upload_file_to_github remote repo branch msg token file)
       = (reraised (write_outcome (file_path_of ft nv) p),
          [Get url h (inr read); Put url h data p]).
Proof.
  intros Hin.
  destruct (upload_refused_or_accepted remote repo branch msg token file)
    as [[detail Hr] | (out & ft & nf & nv & Hp & Ht)].
  { rewrite Hr in Hin. destruct Hin. }
  pose proof (upload_accepted_run remote repo branch msg token _ _ _ _ _
                                  Hp Ht) as Hrun.
  cbv zeta in Hrun. rewrite Hrun in Hin |- *.
  exists out, ft, nf, nv.
  destruct (requests_get remote _ _) as [e | read] eqn:Hg.
  { cbn in Hin. destruct Hin as [Hin | []]. discriminate. }
  destruct (utf8_decode (b64encode out)) as [content | ].
  2:{ cbn in Hin. destruct Hin as [Hin | []]. discriminate. }
  destruct (write_data msg content branch read) as [e | data'] eqn:Hw.
  { cbn in Hin. destruct Hin as [Hin | []]. discriminate. }
  cbn [snd In] in Hin.
  destruct Hin as [Hin | [Hin | []]]; [ discriminate | ].
  injection Hin as <- <- <- <-.
  exists read, content. rewrite Hg. repeat split; auto.
Qed.

(** A name that passed the check is a non-empty string. *)
Lemma clean_name_truthy nv name :
  clean_name nv = inr name -> truthy name = true ->
  exists raw, nv = JString raw
              /\ name = JString (strip (re_sub_illegal raw))
              /\ strip (re_sub_illegal raw) <> [].
Proof.
  unfold clean_name. intros H Ht.
  destruct (truthy nv) eqn:Hn.
  - destruct nv; try discriminate. injection H as <-.
    exists s. repeat split. intros He. rewrite He in Ht. discriminate.
  - injection H as <-. congruence.
Qed.

(** What [process_json_content] accepted, and how. *)
Lemma process_accepted_inv file out ft nf name :
  process_json_content file = inr (out, ft, nf, name) ->
  exists doc d nv,
    json_loads file = inr doc
    /\ (doc = JObject d /\ serialize (JArray [doc]) = Some out
        \/ (exists rest, doc = JArray (JObject d :: rest))
           /\ serialize doc = Some out)
    /\ classify d = Some (ft, nf, nv)
    /\ clean_name nv = inr name.
Proof.
  intros Hp.
  assert (Ht : process_json_content_try file = inr (out, ft, nf, name)).
  { unfold process_json_content in Hp.
    destruct (process_json_content_try file) as [e | r].
    - destruct e; discriminate.
    - exact Hp. }
  clear Hp.
  destruct (json_loads file) as [e | doc] eqn:Hl.
  { unfold process_json_content_try in Ht. rewrite Hl in Ht. discriminate. }
  exists doc.
  destruct doc as [ | b | z | l | s | items | d ];
    try (unfold process_json_content_try in Ht; rewrite Hl in Ht;
         discriminate).
  - destruct items as [ | first rest].
    { unfold process_json_content_try in Ht; rewrite Hl in Ht; discriminate. }
    destruct first as [ | b | z | l | s | items' | d ];
      try (unfold process_json_content_try in Ht; rewrite Hl in Ht;
           discriminate).
    rewrite (process_try_array _ _ _ Hl) in Ht.
    destruct (classify d) as [[[ft' nf'] nv] | ] eqn:Hcl; [ | discriminate ].
    destruct (clean_name nv) as [e | name'] eqn:Hc; [ discriminate | ].
    destruct (serialize _) as [b | ] eqn:Hs; [ | discriminate ].
    injection Ht as <- <- <- <-.
    exists d, nv. split; [ reflexivity | ].
    split; [ right; split; [ eexists; reflexivity | first [ exact Hs | reflexivity ] ] | ].
    split; [ first [ exact Hcl | reflexivity ]
           | first [ exact Hc | reflexivity ] ].
  - rewrite (process_try_object _ _ Hl) in Ht.
    destruct (classify d) as [[[ft' nf'] nv] | ] eqn:Hcl; [ | discriminate ].
    destruct (clean_name nv) as [e | name'] eqn:Hc; [ discriminate | ].
    destruct (serialize _) as [b | ] eqn:Hs; [ | discriminate ].
    injection Ht as <- <- <- <-.
    exists d, nv. split; [ reflexivity | ].
    split; [ left; split; [ reflexivity | first [ exact Hs | reflexivity ] ] | ].
    split; [ first [ exact Hcl | reflexivity ]
           | first [ exact Hc | reflexivity ] ].
Qed.

Lemma write_outcome_success path ur :
  (status_code ur = 200 \/ status_code ur = 201)%Z ->
  reraised (write_outcome path (inr ur)) = inr path.
Proof.
  intros H. cbn [write_outcome].
  destruct H as [-> | ->]; reflexivity.
Qed.

Lemma write_outcome_failure path ur :
  status_code ur <> 200%Z -> status_code ur <> 201%Z ->
  reraised (write_outcome path (inr ur))
  = inl (HTTPException 400 (failure_text ur)).
Proof.
  intros H0 H1. cbn [write_outcome].
  apply Z.eqb_neq in H0. apply Z.eqb_neq in H1. rewrite H0, H1.
  reflexivity.
Qed.

(** ** End to end *)

(** C1. When the file content is the JSON object with the single member
    [bookSourceName = Test] and the write to the remote store is answered
    with status 200 or 201, [upload_file_to_github] returns exactly the path
    [book-sources/Test.json]; for the object with the single member
    [sourceName = Feed1] it returns exactly
    [subscription-sources/Feed1.json]. *)
Theorem C1_end_to_end_paths
    remote repo branch msg token file url h data ur :
  In (Put url h data (inr ur))
     (snd (run (upload_file_to_github remote repo branch msg token file))) ->
  (status_code ur = 200 \/ status_code ur = 201)%Z ->
  (json_loads file
   = inr (JObject [(py "bookSourceName", JString (py "Test"))]) ->
   fst (run (upload_file_to_github remote repo branch msg token file))
   = inr (py "book-sources/Test.json"))
  /\ (json_loads file
      = inr (JObject [(py "sourceName", JString (py "Feed1"))]) ->
      fst (run (upload_file_to_github remote repo branch msg token file))
      = inr (py "subscription-sources/Feed1.json")).
Proof.
  intros Hin Hst.
  destruct (upload_write_inv _ _ _ _ _ _ _ _ _ _ Hin)
    as (out & ft & nf & nv & read & content
        & Hp & Ht & _ & _ & _ & _ & _ & _ & Hrun).
  rewrite Hrun. cbn [fst].
  rewrite (write_outcome_success _ _ Hst).
  unfold process_json_content in Hp.
  split; intros Hl; rewrite (process_try_object _ _ Hl) in Hp;
    vm_compute in Hp; injection Hp as _ <- _ <-; vm_compute; reflexivity.
Qed.

Lemma C1_witness :
  let run_of file :=
    run (upload_file_to_github (fixed_remote 404 201 (inr JNull))
           (py "org/repo") (py "main") (py "add") (py "t") file) in
  fst (run_of (sample "{'bookSourceName':'Test'}"))
  = inr (py "book-sources/Test.json")
  /\ fst (run_of (sample "{'sourceName':'Feed1'}"))
     = inr (py "subscription-sources/Feed1.json").
Proof.
  intros run_of. subst run_of. cbv beta. split.
  - lazymatch eval vm_compute in
        (snd (run (upload_file_to_github (fixed_remote 404 201 (inr JNull))
                     (py "org/repo") (py "main") (py "add") (py "t")
                     (sample "{'bookSourceName':'Test'}")))) with
    | [_; Put ?u ?h ?d (inr ?r)] =>
      apply (C1_end_to_end_paths (fixed_remote 404 201 (inr JNull))
               (py "org/repo") (py "main") (py "add") (py "t")
               (sample "{'bookSourceName':'Test'}") u h d r)
    end.
    + vm_compute. right. left. reflexivity.
    + right. reflexivity.
    + vm_compute. reflexivity.
  - lazymatch eval vm_compute in
        (snd (run (upload_file_to_github (fixed_remote 404 201 (inr JNull))
                     (py "org/repo") (py "main") (py "add") (py "t")
                     (sample "{'sourceName':'Feed1'}")))) with
    | [_; Put ?u ?h ?d (inr ?r)] =>
      apply (C1_end_to_end_paths (fixed_remote 404 201 (inr JNull))
               (py "org/repo") (py "main") (py "add") (py "t")
               (sample "{'sourceName':'Feed1'}") u h d r)
    end.
    + vm_compute. right. left. reflexivity.
    + right. reflexivity.
    + vm_compute. reflexivity.
Defined.

(** ** The version token *)

Lemma write_data_sha msg content branch read data :
  write_data msg content branch read = inr data ->
  dict_get (py "message") data = Some (JString msg)
  /\ dict_get (py "content") data = Some (JString content)
  /\ dict_get (py "branch") data = Some (JString branch)
  /\ ((status_code read = 200%Z
       /\ exists file_info token,
            resp_json read = inr file_info
            /\ subscript file_info (py "sha") = inr token
            /\ dict_get (py "sha") data = Some token)
      \/ (status_code read <> 200%Z /\ dict_get (py "sha") data = None)).
Proof.
  unfold write_data.
  destruct (status_code read =? 200)%Z eqn:Hs.
  - apply Z.eqb_eq in Hs.
    destruct (resp_json read) as [e | file_info]; [ discriminate | ].
    destruct (subscript file_info (py "sha")) as [e | token] eqn:Hsub;
      [ discriminate | ].
    intros H; injection H as <-.
    repeat (split; [ vm_compute; reflexivity | ]).
    left. split; [ exact Hs | ]. exists file_info, token.
    split; [ reflexivity | ].
    split; [ exact Hsub | vm_compute; reflexivity ].
  - apply Z.eqb_neq in Hs.
    intros H; injection H as <-.
    repeat (split; [ vm_compute; reflexivity | ]).
    right. split; [ exact Hs | vm_compute; reflexivity ].
Qed.

(** C6, as the code has it. The write carries [sha] exactly when the read
    that precedes it was answered with status 200, and then [sha] is the
    value of the [sha] member of the body of that answer; for every other
    status of the read, the other statuses from 201 to 299 included, the
    write has no [sha]. The write always carries the commit message, the
    base64 content and the branch. *)
Theorem C6_sha_sent_iff_read_status_200
    remote repo branch msg token file url h data p :
  In (Put url h data p)
     (snd (run (upload_file_to_github remote repo branch msg token file))) ->
  exists read,
    snd (run (upload_file_to_github remote repo branch msg token file))
    = [Get url h (inr read); Put url h data p]
    /\ dict_get (py "message") data = Some (JString msg)
    /\ dict_get (py "branch") data = Some (JString branch)
    /\ ((status_code read = 200%Z
         /\ exists file_info version,
              resp_json read = inr file_info
              /\ subscript file_info (py "sha") = inr version
              /\ dict_get (py "sha") data = Some version)
        \/ (status_code read <> 200%Z /\ dict_get (py "sha") data = None)).
Proof.
  intros Hin.
  destruct (upload_write_inv _ _ _ _ _ _ _ _ _ _ Hin)
    as (out & ft & nf & nv & read & content
        & _ & _ & _ & _ & _ & _ & Hw & _ & Hrun).
  exists read. rewrite Hrun. split; [ reflexivity | ].
  destruct (write_data_sha _ _ _ _ _ Hw) as (Hm & _ & Hb & Hsha).
  auto.
Qed.

(** With an object of token [abc123] at the path the write carries
    [sha = abc123]; with no object there (status 404) it has no [sha]. *)
Lemma C6_witness :
  let trace g :=
    snd (run (upload_file_to_github (fixed_remote g 201 (inr JNull))
                (py "org/repo") (py "main") (py "add") (py "t")
                (sample "{'bookSourceName':'Test'}"))) in
  (exists url h data p,
      In (Put url h data p) (trace 200%Z)
      /\ dict_get (py "sha") data = Some (JString (py "abc123")))
  /\ (exists url h data p,
         In (Put url h data p) (trace 404%Z)
         /\ dict_get (py "sha") data = None).
Proof.
  intros trace. subst trace. cbv beta. split.
  - lazymatch eval vm_compute in
        (snd (run (upload_file_to_github (fixed_remote 200 201 (inr JNull))
                     (py "org/repo") (py "main") (py "add") (py "t")
                     (sample "{'bookSourceName':'Test'}")))) with
    | [_; Put ?u ?h ?d ?p] => exists u, h, d, p
    end.
    match goal with
    | |- ?A /\ _ => assert (Hin : A) by (vm_compute; right; left; reflexivity)
    end.
    split; [ exact Hin | ].
    destruct (C6_sha_sent_iff_read_status_200 _ _ _ _ _ _ _ _ _ _ Hin)
      as (read & Htr & _ & _ & Hsha).
    vm_compute in Htr. injection Htr as Hr. subst read.
    destruct Hsha as [(_ & fi & v & Hj & Hs & Hd) | [Hne _]].
    + cbn [resp_json] in Hj. injection Hj as <-.
      vm_compute in Hs. injection Hs as <-. exact Hd.
    + exfalso. apply Hne. reflexivity.
  - lazymatch eval vm_compute in
        (snd (run (upload_file_to_github (fixed_remote 404 201 (inr JNull))
                     (py "org/repo") (py "main") (py "add") (py "t")
                     (sample "{'bookSourceName':'Test'}")))) with
    | [_; Put ?u ?h ?d ?p] => exists u, h, d, p
    end.
    match goal with
    | |- ?A /\ _ => assert (Hin : A) by (vm_compute; right; left; reflexivity)
    end.
    split; [ exact Hin | ].
    destruct (C6_sha_sent_iff_read_status_200 _ _ _ _ _ _ _ _ _ _ Hin)
      as (read & Htr & _ & _ & Hsha).
    vm_compute in Htr. injection Htr as Hr. subst read.
    destruct Hsha as [(H200 & _) | [_ Hd]]; [ | exact Hd ].
    cbn [status_code] in H200. discriminate.
Defined.

(** The claim as the specification words it fails on a read answered with
    status 204, which is in the 200 class: the body of that answer carries
    the token [abc123], and the write has no [sha]. *)
Lemma C6_counterexample :
  ~ (forall url h read data p,
        snd (run (upload_file_to_github
                    (fixed_remote 204 201 (inr JNull))
                    (py "org/repo") (py "main") (py "add") (py "t")
                    (sample "{'bookSourceName':'Test'}")))
        = [Get url h (inr read); Put url h data p] ->
        (200 <= status_code read < 300)%Z ->
        dict_get (py "sha") data = Some (JString (py "abc123"))).
Proof.
  intros H.
  remember (snd (run (upload_file_to_github
                        (fixed_remote 204 201 (inr JNull))
                        (py "org/repo") (py "main") (py "add") (py "t")
                        (sample "{'bookSourceName':'Test'}")))) as tr eqn:Htr.
  vm_compute in Htr. subst tr.
  specialize (H _ _ _ _ _ eq_refl).
  cbn [status_code] in H.
  assert (Hr : (200 <= 204 < 300)%Z) by lia.
  specialize (H Hr). vm_compute in H. discriminate.
Qed.

(** ** A refused write *)

Lemma failure_text_cases ur :
  (exists d m, resp_json ur = inr (JObject d)
               /\ dict_get (py "message") d = Some m
               /\ failure_text ur = py "文件上传失败: " ++ format_value m)
  \/ (exists d, resp_json ur = inr (JObject d)
                /\ dict_get (py "message") d = None
                /\ failure_text ur = py "文件上传失败: 未知错误")
  \/ ((forall d, resp_json ur <> inr (JObject d))
      /\ failure_text ur
         = py "文件上传失败，状态码: " ++ str_of_Z (status_code ur)).
Proof.
  unfold failure_text.
  destruct (resp_json ur) as [e | body].
  { right. right. split; [ intros d; discriminate | reflexivity ]. }
  destruct body as [ | b | z | l | s | items | d ];
    try (right; right; split; [ intros d; discriminate | reflexivity ]).
  cbn [method_get].
  destruct (dict_get (py "message") d) as [m | ] eqn:Hm.
  - left. exists d, m. repeat split. exact Hm.
  - right. left. exists d. repeat split. exact Hm.
Qed.

(** C7, as the code has it. When the write is answered with a status other
    than 200 and 201, the upload fails with status 400 and a detail that
    starts with the fixed text of the source (upload of the file failed) and
    goes on with: the [message] member of the body when the body is a JSON
    object that has one; the fixed text of the source for an unknown error
    when the body is a JSON object without [message]; the status code of the
    answer when the body is not JSON or is not a JSON object. *)
Theorem C7_refused_write_detail
    remote repo branch msg token file url h data ur :
  In (Put url h data (inr ur))
     (snd (run (upload_file_to_github remote repo branch msg token file))) ->
  status_code ur <> 200%Z -> status_code ur <> 201%Z ->
  exists detail,
    fst (run (upload_file_to_github remote repo branch msg token file))
    = inl (HTTPException 400 detail)
    /\ ((exists d m, resp_json ur = inr (JObject d)
                     /\ dict_get (py "message") d = Some m
                     /\ detail = py "文件上传失败: " ++ format_value m)
        \/ (exists d, resp_json ur = inr (JObject d)
                      /\ dict_get (py "message") d = None
                      /\ detail = py "文件上传失败: 未知错误")
        \/ ((forall d, resp_json ur <> inr (JObject d))
            /\ detail = py "文件上传失败，状态码: "
                        ++ str_of_Z (status_code ur))).
Proof.
  intros Hin H0 H1.
  destruct (upload_write_inv _ _ _ _ _ _ _ _ _ _ Hin)
    as (out & ft & nf & nv & read & content
        & _ & _ & _ & _ & _ & _ & _ & _ & Hrun).
  rewrite Hrun. cbn [fst].
  rewrite (write_outcome_failure _ _ H0 H1).
  exists (failure_text ur). split; [ reflexivity | ].
  apply failure_text_cases.
Qed.

Lemma C7_witness :
  let remote :=
    fixed_remote 404 422
      (inr (JObject [(py "message", JString (py "Invalid request"))])) in
  let outcome :=
    run (upload_file_to_github remote (py "org/repo") (py "main") (py "add")
           (py "t") (sample "{'bookSourceName':'Test'}")) in
  exists url h data ur,
    In (Put url h data (inr ur)) (snd outcome)
    /\ status_code ur = 422%Z
    /\ exists detail,
         fst outcome = inl (HTTPException 400 detail)
         /\ ((exists d m, resp_json ur = inr (JObject d)
                          /\ dict_get (py "message") d = Some m
                          /\ detail = py "文件上传失败: " ++ format_value m)
             \/ (exists d, resp_json ur = inr (JObject d)
                           /\ dict_get (py "message") d = None
                           /\ detail = py "文件上传失败: 未知错误")
             \/ ((forall d, resp_json ur <> inr (JObject d))
                 /\ detail = py "文件上传失败，状态码: "
                             ++ str_of_Z (status_code ur))).
Proof.
  intros remote outcome. subst outcome remote.
  lazymatch eval vm_compute in
      (snd (run (upload_file_to_github
                   (fixed_remote 404 422
                      (inr (JObject [(py "message",
                                      JString (py "Invalid request"))])))
                   (py "org/repo") (py "main") (py "add") (py "t")
                   (sample "{'bookSourceName':'Test'}")))) with
  | [_; Put ?u ?h ?d (inr ?r)] => exists u, h, d, r
  end.
  match goal with
  | |- ?A /\ _ => assert (Hin : A) by (vm_compute; right; left; reflexivity)
  end.
  split; [ exact Hin | ]. split; [ reflexivity | ].
  apply (C7_refused_write_detail _ _ _ _ _ _ _ _ _ _ Hin);
    cbn [status_code]; discriminate.
Defined.

(** The claim as the specification words it fails on a write answered with
    status 422 and the body of an empty JSON object, which has no [message]:
    the detail is the text for an unknown error, and the status code occurs
    nowhere in it. *)
Lemma C7_counterexample :
  ~ (forall detail,
        fst (run (upload_file_to_github
                    (fixed_remote 404 422 (inr (JObject [])))
                    (py "org/repo") (py "main") (py "add") (py "t")
                    (sample "{'bookSourceName':'Test'}")))
        = inl (HTTPException 400 detail) ->
        exists before after, detail = before ++ py "422" ++ after).
Proof.
  intros H.
  remember (fst (run (upload_file_to_github
                        (fixed_remote 404 422 (inr (JObject [])))
                        (py "org/repo") (py "main") (py "add") (py "t")
                        (sample "{'bookSourceName':'Test'}")))) as r eqn:Hr.
  vm_compute in Hr. subst r.
  destruct (H _ eq_refl) as (before & after & Hd).
  assert (Hin : In 52%N (before ++ py "422" ++ after)).
  { apply in_or_app. right. apply in_or_app. left. vm_compute. auto. }
  rewrite <- Hd in Hin. vm_compute in Hin.
  repeat (destruct Hin as [Hin | Hin]; [ discriminate Hin | ]).
  exact Hin.
Qed.

(** ** The canonical form *)

(** The array that [process_json_content] serializes: the document in a
    new array when it is an object, the document itself when it is an
    array. It is well formed, and [json.loads] reads its bytes back. *)
Lemma process_accepted_canonical file out ft nf name :
  process_json_content file = inr (out, ft, nf, name) ->
  exists d rest nv,
    (json_loads file = inr (JObject d) /\ rest = []
     \/ json_loads file = inr (JArray (JObject d :: rest)))
    /\ classify d = Some (ft, nf, nv)
    /\ clean_name nv = inr name
    /\ serialize (JArray (JObject d :: rest)) = Some out
    /\ json_loads out = inr (JArray (JObject d :: rest)).
Proof.
  intros Hp.
  destruct (process_accepted_inv _ _ _ _ _ Hp)
    as (doc & d & nv & Hl & Hshape & Hc & Hn).
  pose proof (json_loads_wf _ _ Hl) as Hwf.
  destruct Hshape as [[-> Hs] | [[rest ->] Hs]].
  - exists d, [], nv.
    split; [ left; split; [ exact Hl | reflexivity ] | ].
    split; [ exact Hc | ]. split; [ exact Hn | ]. split; [ exact Hs | ].
    apply json_loads_serialize; [ | exact Hs ].
    constructor. constructor; [ exact Hwf | constructor ].
  - exists d, rest, nv.
    split; [ right; exact Hl | ].
    split; [ exact Hc | ]. split; [ exact Hn | ]. split; [ exact Hs | ].
    apply json_loads_serialize; assumption.
Qed.

(** C3, as the code has it. For an array whose first element is an object
    without [bookSourceName] and with [sourceName] equal to the string [Y],
    and whose text can be encoded in UTF-8, [process_json_content] returns
    the bytes of the same array (they decode to the same elements in the
    same order), the kind of a subscription source, and the name [Y] once
    cleaned (the nine characters removed, then the white space trimmed). *)
Theorem C3_array_with_sourceName_only file d rest Y out :
  json_loads file = inr (JArray (JObject d :: rest)) ->
  dict_get (py "bookSourceName") d = None ->
  dict_get (py "sourceName") d = Some (JString Y) ->
  serialize (JArray (JObject d :: rest)) = Some out ->
  process_json_content file
  = inr (out, py "subscription_source", py "sourceName",
         JString (strip (re_sub_illegal Y)))
  /\ json_loads out = inr (JArray (JObject d :: rest)).
Proof.
  intros Hl Hb Hs Hser.
  assert (Hp : process_json_content file
               = inr (out, py "subscription_source", py "sourceName",
                      JString (strip (re_sub_illegal Y)))).
  { apply process_of_try_ok.
    rewrite (process_try_array _ _ _ Hl), (classify_subscription _ _ Hb Hs).
    rewrite clean_name_string, Hser. reflexivity. }
  split; [ exact Hp | ].
  apply json_loads_serialize; [ | exact Hser ].
  eapply json_loads_wf. exact Hl.
Qed.

Lemma C3_witness :
  exists out,
    serialize (JArray [JObject [(py "sourceName", JString (py " Fe/ed1 "))];
                       JInt 7]) = Some out
    /\ process_json_content (sample "[{'sourceName': ' Fe/ed1 '}, 7]")
       = inr (out, py "subscription_source", py "sourceName",
              JString (py "Feed1"))
    /\ json_loads out
       = inr (JArray [JObject [(py "sourceName", JString (py " Fe/ed1 "))];
                      JInt 7]).
Proof.
  lazymatch eval vm_compute in
      (serialize (JArray [JObject [(py "sourceName",
                                    JString (py " Fe/ed1 "))]; JInt 7])) with
  | Some ?o => exists o
  end.
  match goal with
  | |- ?A /\ _ => assert (Hser : A) by (vm_compute; reflexivity)
  end.
  split; [ exact Hser | ].
  change (JString (py "Feed1"))
    with (JString (strip (re_sub_illegal (py " Fe/ed1 ")))).
  apply (C3_array_with_sourceName_only
           (sample "[{'sourceName': ' Fe/ed1 '}, 7]")
           [(py "sourceName", JString (py " Fe/ed1 "))] [JInt 7]
           (py " Fe/ed1 ")).
  - vm_compute. reflexivity.
  - vm_compute. reflexivity.
  - vm_compute. reflexivity.
  - exact Hser.
Defined.

(** The claim as the specification words it fails on three arrays whose
    first element holds [sourceName] with a string value: one that also
    holds [bookSourceName], which decides the kind; one whose name holds a
    slash, which the cleaning removes; one that holds an unpaired surrogate
    elsewhere, which cannot be encoded, so that nothing is returned. *)
Lemma C3_counterexample :
  (json_loads (sample "[{'bookSourceName': 'B', 'sourceName': 'Y'}]")
   = inr (JArray [JObject [(py "bookSourceName", JString (py "B"));
                           (py "sourceName", JString (py "Y"))]])
   /\ forall out nf,
        process_json_content
          (sample "[{'bookSourceName': 'B', 'sourceName': 'Y'}]")
        <> inr (out, py "subscription_source", nf, JString (py "Y")))
  /\ (json_loads (sample "[{'sourceName': 'A/B'}]")
      = inr (JArray [JObject [(py "sourceName", JString (py "A/B"))]])
      /\ forall out nf,
           process_json_content (sample "[{'sourceName': 'A/B'}]")
           <> inr (out, py "subscription_source", nf, JString (py "A/B")))
  /\ (json_loads (sample "[{'sourceName': 'Y', 'x': '\ud800'}]")
      = inr (JArray [JObject [(py "sourceName", JString (py "Y"));
                              (py "x", JString [0xD800])]])
      /\ forall out nf,
           process_json_content
             (sample "[{'sourceName': 'Y', 'x': '\ud800'}]")
           <> inr (out, py "subscription_source", nf, JString (py "Y"))).
Proof.
  split; [ | split ].
  - split; [ vm_compute; reflexivity | ].
    intros out nf H.
    remember (process_json_content
                (sample "[{'bookSourceName': 'B', 'sourceName': 'Y'}]"))
      as r eqn:Hr.
    vm_compute in Hr. subst r. discriminate H.
  - split; [ vm_compute; reflexivity | ].
    intros out nf H.
    remember (process_json_content (sample "[{'sourceName': 'A/B'}]"))
      as r eqn:Hr.
    vm_compute in Hr. subst r. discriminate H.
  - split; [ vm_compute; reflexivity | ].
    intros out nf H.
    remember (process_json_content
                (sample "[{'sourceName': 'Y', 'x': '\ud800'}]"))
      as r eqn:Hr.
    vm_compute in Hr. subst r. discriminate H.
Qed.

(** C2, as the code has it. Whatever [process_json_content] returns,
    [json.loads] reads the bytes as an array with at least one element; and
    an upload either ends with status 400 before anything is sent to the
    remote store, or its name is a non-empty string, free of the nine
    characters, and [json.loads] reads its bytes as an array with at least
    one element. *)
Theorem C2_canonical_bytes_and_name remote repo branch msg token file :
  (forall out ft nf nv,
      process_json_content file = inr (out, ft, nf, nv) ->
      exists first rest, json_loads out = inr (JArray (first :: rest)))
  /\ ((exists detail,
          run (upload_file_to_github remote repo branch msg token file)
          = (inl (HTTPException 400 detail), []))
      \/ (exists out ft nf name first rest,
             process_json_content file = inr (out, ft, nf, JString name)
             /\ name <> []
             /\ (forall c, In c illegal_chars -> ~ In c name)
             /\ json_loads out = inr (JArray (first :: rest)))).
Proof.
  split.
  - intros out ft nf nv Hp.
    destruct (process_accepted_canonical _ _ _ _ _ Hp)
      as (d & rest & nv0 & _ & _ & _ & _ & Hl).
    eauto.
  - destruct (upload_refused_or_accepted remote repo branch msg token file)
      as [Hr | (out & ft & nf & nv & Hp & Ht)]; [ left; exact Hr | right ].
    destruct (process_accepted_canonical _ _ _ _ _ Hp)
      as (d & rest & nv0 & _ & _ & Hn & _ & Hl).
    destruct (clean_name_truthy _ _ Hn Ht) as (raw & -> & -> & Hne).
    exists out, ft, nf, (strip (re_sub_illegal raw)), (JObject d), rest.
    split; [ exact Hp | ]. split; [ exact Hne | ].
    split; [ intros c; apply strip_removed | exact Hl ].
Qed.

Lemma C2_witness :
  exists out ft nf nv first rest,
    process_json_content (sample "{'bookSourceName':'Test'}")
    = inr (out, ft, nf, nv)
    /\ json_loads out = inr (JArray (first :: rest)).
Proof.
  lazymatch eval vm_compute in
      (process_json_content (sample "{'bookSourceName':'Test'}")) with
  | inr (?o, ?ft, ?nf, ?nv) => exists o, ft, nf, nv
  end.
  match goal with
  | |- exists first rest, ?A /\ _ =>
    assert (Hp : A) by (vm_compute; reflexivity)
  end.
  destruct (C2_canonical_bytes_and_name (fixed_remote 404 201 (inr JNull))
              (py "org/repo") (py "main") (py "add") (py "t")
              (sample "{'bookSourceName':'Test'}")) as [Hbytes _].
  destruct (Hbytes _ _ _ _ Hp) as (first & rest & Hl).
  exists first, rest. split; [ exact Hp | exact Hl ].
Defined.

(** The claim as the specification words it fails on a valid JSON text
    that holds a number beyond the largest float: [json.loads] reads it as
    an infinity, which [json.dumps] writes as [Infinity]. The upload is
    accepted and sent, and its bytes are not valid JSON. *)
Lemma C2_counterexample :
  valid_json (sample "[{'bookSourceName':'X','v':1e400}]") = true
  /\ exists out,
       process_json_content (sample "[{'bookSourceName':'X','v':1e400}]")
       = inr (out, py "book_source", py "bookSourceName", JString (py "X"))
       /\ out = sample "[" ++ [x0a]
                 ++ sample "  {" ++ [x0a]
                 ++ sample "    'bookSourceName': 'X'," ++ [x0a]
                 ++ sample "    'v': Infinity" ++ [x0a]
                 ++ sample "  }" ++ [x0a]
                 ++ sample "]"
       /\ valid_json out = false
       /\ exists url h read data written,
            post_upload (fixed_remote 404 201 (inr JNull))
              (mkUploadForm (py "org/repo") (py "main") (py "add") (py "t")
                 (sample "[{'bookSourceName':'X','v':1e400}]"))
            = (mkHttp 200 (JString (py "book-sources/X.json")),
               [Get url h read; Put url h data written]).
Proof.
  split; [ vm_compute; reflexivity | ].
  lazymatch eval vm_compute in
      (process_json_content (sample "[{'bookSourceName':'X','v':1e400}]"))
  with
  | inr (?o, _, _, _) => exists o
  end.
  split; [ vm_compute; reflexivity | ].
  split; [ vm_compute; reflexivity | ].
  split; [ vm_compute; reflexivity | ].
  remember (post_upload (fixed_remote 404 201 (inr JNull))
                (mkUploadForm (py "org/repo") (py "main") (py "add") (py "t")
                   (sample "[{'bookSourceName':'X','v':1e400}]")))
    as r eqn:Hr.
  vm_compute in Hr. subst r. do 5 eexists. reflexivity.
Qed.



(** * The refusals of an upload *)

(** ** The text of a refusal *)

Lemma upload_refused_detail remote repo branch msg token file m :
  file <> [] ->
  process_json_content file = inl (ValueError m) ->
  run (upload_file_to_github remote repo branch msg token file)
  = (inl (HTTPException 400 m), []).
Proof.
  intros Hne H.
  unfold upload_file_to_github, upload_file_to_github_try. unfold_M.
  destruct file as [ | b file']; [ congruence | ].
  rewrite H. reflexivity.
Qed.

Lemma loaded_nonempty file doc : json_loads file = inr doc -> file <> [].
Proof. intros H ->. vm_compute in H. discriminate. Qed.

Lemma clean_name_error nv e :
  clean_name nv = inl e -> exists m, e = TypeError m.
Proof.
  unfold clean_name. destruct (truthy nv); [ | discriminate ].
  destruct nv; intros H; try discriminate H; injection H as <-; eauto.
Qed.

(** An error of the [try] block is the error of [json.loads], or it is not a
    [JSONDecodeError]. *)
Lemma process_try_error_origin file e :
  process_json_content_try file = inl e ->
  json_loads file = inl e
  \/ (exists doc, json_loads file = inr doc)
     /\ forall m, e <> JSONDecodeError m.
Proof.
  intros Ht.
  destruct (json_loads file) as [e0 | doc] eqn:Hl.
  { left. unfold process_json_content_try in Ht. rewrite Hl in Ht.
    injection Ht as <-. reflexivity. }
  right. split; [ eauto | ].
  assert (Hcases :
            (exists d, doc = JObject d)
            \/ (exists d rest, doc = JArray (JObject d :: rest))
            \/ ((forall d, doc <> JObject d)
                /\ forall d rest, doc <> JArray (JObject d :: rest))).
  { destruct doc as [ | b | z | l | s | items | d ];
      try (right; right; split; intros; discriminate).
    - destruct items as [ | [ | b | z | l | s | items' | d ] rest];
        try (right; right; split; intros; discriminate).
      right; left; eauto.
    - left; eauto. }
  destruct Hcases as [[d ->] | [(d & rest & ->) | [Ho Ha]]].
  - rewrite (process_try_object _ _ Hl) in Ht.
    destruct (classify d) as [[[ft nf] nv] | ].
    + destruct (clean_name nv) as [e1 | name] eqn:Hc.
      * injection Ht as <-. destruct (clean_name_error _ _ Hc) as [m ->].
        discriminate.
      * destruct (serialize _); [ discriminate | ].
        injection Ht as <-. discriminate.
    + injection Ht as <-. discriminate.
  - rewrite (process_try_array _ _ _ Hl) in Ht.
    destruct (classify d) as [[[ft nf] nv] | ].
    + destruct (clean_name nv) as [e1 | name] eqn:Hc.
      * injection Ht as <-. destruct (clean_name_error _ _ Hc) as [m ->].
        discriminate.
      * destruct (serialize _); [ discriminate | ].
        injection Ht as <-. discriminate.
    + injection Ht as <-. discriminate.
  - destruct (process_try_other _ _ Hl Ho Ha) as [m Hm].
    rewrite Hm in Ht. injection Ht as <-. discriminate.
Qed.

(** X1. Every refusal by [process_json_content] is a [ValueError] with one of
    two texts: the fixed text for a file that is not JSON, exactly when
    [json.loads] raised [JSONDecodeError]; otherwise the text of the error
    after a fixed prefix. The upload then ends with status 400 and that text
    as its detail, and nothing is sent. *)
Theorem refusal_detail remote repo branch msg token file e :
  file <> [] ->
  process_json_content file = inl e ->
  exists detail,
    e = ValueError detail
    /\ run (upload_file_to_github remote repo branch msg token file)
       = (inl (HTTPException 400 detail), [])
    /\ (((exists m, json_loads file = inl (JSONDecodeError m))
         /\ detail = py "上传的文件不是有效的JSON格式")
        \/ ((forall m, json_loads file <> inl (JSONDecodeError m))
            /\ exists m, detail = py "处理JSON内容时出错: " ++ m)).
Proof.
  intros Hne Hp.
  assert (Hd : exists detail,
             e = ValueError detail
             /\ (((exists m, json_loads file = inl (JSONDecodeError m))
                  /\ detail = py "上传的文件不是有效的JSON格式")
                 \/ ((forall m, json_loads file <> inl (JSONDecodeError m))
                     /\ exists m, detail = py "处理JSON内容时出错: " ++ m))).
  { unfold process_json_content in Hp.
    destruct (process_json_content_try file) as [e0 | r] eqn:Ht;
      [ | discriminate ].
    destruct (process_try_error_origin _ _ Ht) as [Hl | [[doc Hl] Hnj]].
    - destruct e0; injection Hp as <-; eexists; (split; [ reflexivity | ]);
        try (right; split; [ intros m' H'; rewrite Hl in H'; discriminate H'
                           | eexists; reflexivity ]).
      left. split; [ eauto | reflexivity ].
    - destruct e0; injection Hp as <-; eexists; (split; [ reflexivity | ]);
        try (right; split; [ intros m' H'; rewrite Hl in H'; discriminate H'
                           | eexists; reflexivity ]).
      exfalso. eapply Hnj. reflexivity. }
  destruct Hd as (detail & -> & Hcases).
  exists detail. split; [ reflexivity | ]. split; [ | exact Hcases ].
  apply upload_refused_detail; assumption.
Qed.

Lemma refusal_detail_witness :
  exists detail,
    run (upload_file_to_github (fixed_remote 404 201 (inr JNull))
           (py "org/repo") (py "main") (py "add") (py "t")
           (sample "{'bookSourceName': 'x'"))
    = (inl (HTTPException 400 detail), [])
    /\ detail = py "上传的文件不是有效的JSON格式".
Proof.
  destruct (refusal_detail (fixed_remote 404 201 (inr JNull))
              (py "org/repo") (py "main") (py "add") (py "t")
              (sample "{'bookSourceName': 'x'")
              (ValueError (py "上传的文件不是有效的JSON格式")))
    as (detail & He & Hrun & _).
  - vm_compute. discriminate.
  - vm_compute. reflexivity.
  - exists detail. split; [ exact Hrun | ].
    injection He as <-. reflexivity.
Defined.

Lemma upload_try_refused remote repo branch msg token file doc m :
  json_loads file = inr doc ->
  process_json_content_try file = inl (ValueError m) ->
  run (upload_file_to_github remote repo branch msg token file)
  = (inl (HTTPException 400 (py "处理JSON内容时出错: " ++ m)), []).
Proof.
  intros Hl Ht. apply upload_refused_detail.
  - eapply loaded_nonempty. exact Hl.
  - unfold process_json_content. rewrite Ht. reflexivity.
Qed.

(** X2. A document that is neither an object nor an array, an empty array, and
    an array whose first element is not an object are refused with status
    400, each with a text of its own after the fixed prefix, and nothing is
    sent. *)
Theorem wrong_shape_detail remote repo branch msg token file doc :
  json_loads file = inr doc ->
  let outcome :=
    run (upload_file_to_github remote repo branch msg token file) in
  let refused text :=
    outcome
    = (inl (HTTPException 400 (py "处理JSON内容时出错: " ++ text)), []) in
  ((forall d, doc <> JObject d) -> (forall items, doc <> JArray items) ->
   refused (py "JSON格式不正确"))
  /\ (doc = JArray [] -> refused (py "JSON数组为空"))
  /\ (forall first rest,
         doc = JArray (first :: rest) -> (forall d, first <> JObject d) ->
         refused (py "JSON数组中的元素不是对象")).
Proof.
  intros Hl outcome refused. subst outcome refused. cbv beta.
  split; [ | split ].
  - intros Ho Ha. apply (upload_try_refused _ _ _ _ _ _ _ _ Hl).
    unfold process_json_content_try. rewrite Hl.
    destruct doc; try reflexivity.
    + exfalso. eapply Ha. reflexivity.
    + exfalso. eapply Ho. reflexivity.
  - intros ->. apply (upload_try_refused _ _ _ _ _ _ _ _ Hl).
    unfold process_json_content_try. rewrite Hl. reflexivity.
  - intros first rest -> Hf. apply (upload_try_refused _ _ _ _ _ _ _ _ Hl).
    unfold process_json_content_try. rewrite Hl.
    destruct first; try reflexivity.
    exfalso. eapply Hf. reflexivity.
Qed.

Lemma wrong_shape_detail_witness :
  run (upload_file_to_github (fixed_remote 404 201 (inr JNull))
         (py "org/repo") (py "main") (py "add") (py "t")
         (sample "['bookSourceName', 'Test']"))
  = (inl (HTTPException 400
            (py "处理JSON内容时出错: " ++ py "JSON数组中的元素不是对象")), []).
Proof.
  destruct (wrong_shape_detail (fixed_remote 404 201 (inr JNull))
              (py "org/repo") (py "main") (py "add") (py "t")
              (sample "['bookSourceName', 'Test']")
              (JArray [JString (py "bookSourceName"); JString (py "Test")]))
    as (_ & _ & H).
  - vm_compute. reflexivity.
  - apply (H _ _ eq_refl). intros d. discriminate.
Defined.

(** ** Empty and blank files *)

Lemma utf8_decode_N_ascii l :
  Forall (fun c => c < 128) l -> utf8_decode_N l = Some l.
Proof.
  induction 1 as [ | c l Hc _ IH]; [ reflexivity | ].
  cbn [utf8_decode_N]. apply N.ltb_lt in Hc. rewrite Hc, IH. reflexivity.
Qed.

Lemma is_ws_values c :
  is_ws c = true -> c = 32 \/ c = 9 \/ c = 10 \/ c = 13.
Proof.
  unfold is_ws. intros H.
  repeat (apply orb_true_iff in H; destruct H as [H | H]);
    apply N.eqb_eq in H; auto.
Qed.

Lemma detect_encoding_blank b :
  Forall (fun c => is_ws c = true) b -> detect_encoding b = UTF8.
Proof.
  intros H.
  destruct b as [ | b0 [ | b1 [ | b2 [ | b3 t]]]];
    repeat match goal with
           | H : Forall _ (_ :: _) |- _ => inversion_clear H
           end;
    repeat match goal with
           | H : is_ws _ = true |- _ =>
             apply is_ws_values in H; destruct H as [-> | [-> | [-> | ->]]]
           end; reflexivity.
Qed.

Lemma skip_ws_blank b : Forall (fun c => is_ws c = true) b -> skip_ws b = [].
Proof.
  induction 1 as [ | c t Hc _ IH]; [ reflexivity | ].
  cbn [skip_ws]. rewrite Hc. exact IH.
Qed.

Lemma blank_is_ascii b :
  Forall (fun c => is_ws c = true) b -> Forall (fun c => c < 128) b.
Proof.
  intros H. eapply Forall_impl; [ | exact H ].
  intros c Hc. cbv beta in Hc. apply is_ws_values in Hc. lia.
Qed.

Lemma json_loads_blank file :
  Forall (fun b => is_ws (Byte.to_N b) = true) file ->
  json_loads file = inl (JSONDecodeError (py "Expecting value")).
Proof.
  intros H.
  assert (Hb : Forall (fun c => is_ws c = true) (map Byte.to_N file)).
  { apply Forall_map. exact H. }
  unfold json_loads, decode_detected.
  rewrite (detect_encoding_blank _ Hb).
  rewrite (utf8_decode_N_ascii _ (blank_is_ascii _ Hb)).
  unfold json_decode. rewrite (skip_ws_blank _ Hb).
  rewrite Nat.add_comm. reflexivity.
Qed.

(** X3. A file that holds nothing but JSON white space is refused with status
    400 and nothing is sent: with the text for an empty file when it has no
    byte at all, with the text for a file that is not JSON otherwise. *)
Theorem blank_file_is_refused remote repo branch msg token file :
  Forall (fun b => is_ws (Byte.to_N b) = true) file ->
  run (upload_file_to_github remote repo branch msg token file)
  = (inl (HTTPException 400
            (match file with
             | [] => py "文件内容为空"
             | _ :: _ => py "上传的文件不是有效的JSON格式"
             end)), []).
Proof.
  intros H. destruct file as [ | b file']; [ reflexivity | ].
  apply upload_refused_detail; [ discriminate | ].
  unfold process_json_content, process_json_content_try.
  rewrite (json_loads_blank _ H). reflexivity.
Qed.

Lemma blank_file_is_refused_witness :
  run (upload_file_to_github (fixed_remote 404 201 (inr JNull))
         (py "org/repo") (py "main") (py "add") (py "t") [x20; x0a])
  = (inl (HTTPException 400 (py "上传的文件不是有效的JSON格式")), []).
Proof.
  apply (blank_file_is_refused (fixed_remote 404 201 (inr JNull))
           (py "org/repo") (py "main") (py "add") (py "t") [x20; x0a]).
  repeat constructor.
Defined.

(** ** A name that cannot be used *)

(** X4. Provided that the text of the array can be encoded in UTF-8 (the
    document holds no unpaired surrogate, so that [serialize] returns the
    bytes [out]): when the value of the deciding name is falsy ([null],
    [false], zero, an empty string, array or object),
    [process_json_content] returns it as it is, and when it is a string that
    is empty once cleaned, it returns the empty string; in both cases the
    upload ends with status 400, the text that no name could be extracted,
    and nothing is sent. Whether the text can be encoded or not: when the
    value is truthy and not a string (a number, [true], a non-empty array
    or object), the cleaning raises, and the upload ends with status 400 and
    the text of that error after the fixed prefix. *)
Theorem unusable_name_detail
    remote repo branch msg token file d rest nv out :
  (json_loads file = inr (JObject d) /\ rest = []
   \/ json_loads file = inr (JArray (JObject d :: rest))) ->
  (dict_get (py "bookSourceName") d = Some nv
   \/ (dict_get (py "bookSourceName") d = None
       /\ dict_get (py "sourceName") d = Some nv)) ->
  let outcome :=
    run (upload_file_to_github remote repo branch msg token file) in
  (serialize (JArray (JObject d :: rest)) = Some out ->
   (truthy nv = false ->
    (exists ft nf, process_json_content file = inr (out, ft, nf, nv))
    /\ outcome = (inl (HTTPException 400 (py "无法从JSON中提取名称")), []))
   /\ (forall s, nv = JString s -> strip (re_sub_illegal s) = [] ->
       (exists ft nf, process_json_content file = inr (out, ft, nf, JString []))
       /\ outcome
          = (inl (HTTPException 400 (py "无法从JSON中提取名称")), [])))
  /\ (truthy nv = true -> (forall s, nv <> JString s) ->
      exists m,
        outcome
        = (inl (HTTPException 400 (py "处理JSON内容时出错: " ++ m)), [])).
Proof.
  intros Hshape Hname outcome. subst outcome.
  assert (Hc : exists ft nf, classify d = Some (ft, nf, nv)).
  { destruct Hname as [Hb | [Hb Hsn]].
    - rewrite (classify_book _ _ Hb). eauto.
    - rewrite (classify_subscription _ _ Hb Hsn). eauto. }
  destruct Hc as (ft & nf & Hc).
  assert (Htry : process_json_content_try file
                 = match clean_name nv with
                   | inl e => inl e
                   | inr name =>
                     match serialize (JArray (JObject d :: rest)) with
                     | Some b => inr (b, ft, nf, name)
                     | None => inl (UnicodeError
                                      (py "codec can't encode character"))
                     end
                   end).
  { destruct Hshape as [[Hl ->] | Hl].
    - rewrite (process_try_object _ _ Hl), Hc. reflexivity.
    - rewrite (process_try_array _ _ _ Hl), Hc. reflexivity. }
  assert (Hdoc : exists doc, json_loads file = inr doc).
  { destruct Hshape as [[Hl _] | Hl]; eauto. }
  destruct Hdoc as [doc Hdoc].
  split.
  - intros Hser. rewrite Hser in Htry. split.
    + intros Hf.
      assert (Hp : process_json_content file = inr (out, ft, nf, nv)).
      { apply process_of_try_ok. rewrite Htry. unfold clean_name.
        rewrite Hf. reflexivity. }
      split; [ eauto | ].
      eapply upload_no_name; eassumption.
    + intros s -> Hs.
      assert (Hp : process_json_content file
                   = inr (out, ft, nf, JString [])).
      { apply process_of_try_ok. rewrite Htry, clean_name_string, Hs.
        reflexivity. }
      split; [ eauto | ].
      eapply upload_no_name; [ exact Hp | reflexivity ].
  - intros Ht Hns.
    assert (He : exists m, clean_name nv = inl (TypeError m)).
    { unfold clean_name. rewrite Ht.
      destruct nv; try (eexists; reflexivity).
      exfalso. eapply Hns. reflexivity. }
    destruct He as [m He]. rewrite He in Htry.
    exists m. apply upload_refused_detail.
    + eapply loaded_nonempty. exact Hdoc.
    + unfold process_json_content. rewrite Htry. reflexivity.
Qed.

Lemma unusable_name_detail_witness :
  let outcome file :=
    run (upload_file_to_github (fixed_remote 404 201 (inr JNull))
           (py "org/repo") (py "main") (py "add") (py "t") file) in
  outcome (sample "[{'bookSourceName': null, 'sourceName': 'Feed1'}]")
  = (inl (HTTPException 400 (py "无法从JSON中提取名称")), [])
  /\ exists m,
       outcome (sample "{'sourceName': 7}")
       = (inl (HTTPException 400 (py "处理JSON内容时出错: " ++ m)), []).
Proof.
  intros outcome. subst outcome. cbv beta. split.
  - lazymatch eval vm_compute in
        (serialize (JArray [JObject [(py "bookSourceName", JNull);
                                     (py "sourceName",
                                      JString (py "Feed1"))]])) with
    | Some ?o =>
      destruct (unusable_name_detail (fixed_remote 404 201 (inr JNull))
                  (py "org/repo") (py "main") (py "add") (py "t")
                  (sample "[{'bookSourceName': null, 'sourceName': 'Feed1'}]")
                  [(py "bookSourceName", JNull);
                   (py "sourceName", JString (py "Feed1"))] [] JNull o)
        as [H _]
    end.
    + right. vm_compute. reflexivity.
    + left. vm_compute. reflexivity.
    + destruct H as [H _]; [ vm_compute; reflexivity | ].
      destruct (H eq_refl) as [_ Hrun]. exact Hrun.
  - destruct (unusable_name_detail (fixed_remote 404 201 (inr JNull))
                (py "org/repo") (py "main") (py "add") (py "t")
                (sample "{'sourceName': 7}")
                [(py "sourceName", JInt 7)] [] (JInt 7) [])
      as [_ H].
    + left. split; vm_compute; reflexivity.
    + right. split; vm_compute; reflexivity.
    + apply H; [ reflexivity | intros s; discriminate ].
Defined.

(** * What [process_json_content] accepts *)

(** ** The name that decides *)

Lemma classify_inv d ft nf nv :
  classify d = Some (ft, nf, nv) ->
  (ft = py "book_source" /\ nf = py "bookSourceName"
   /\ dict_get (py "bookSourceName") d = Some nv)
  \/ (ft = py "subscription_source" /\ nf = py "sourceName"
      /\ dict_get (py "bookSourceName") d = None
      /\ dict_get (py "sourceName") d = Some nv).
Proof.
  unfold classify, dict_has, get_or_none.
  destruct (dict_get (py "bookSourceName") d) as [b | ].
  - intros H; injection H as <- <- <-. left. auto.
  - destruct (dict_get (py "sourceName") d) as [s | ]; [ | discriminate ].
    intros H; injection H as <- <- <-. right. auto.
Qed.

(** X5. [bookSourceName] decides whenever it is present, whatever [sourceName]
    holds: an object, or an array that starts with an object, whose
    [bookSourceName] is a string, and whose text can be encoded in UTF-8
    (the document holds no unpaired surrogate, so that [serialize] returns
    the bytes [out]), gives a book source named by that string once
    cleaned; the bytes returned are those of the array itself, or of the
    one-element array of the object, and [json.loads] reads them back as
    it. *)
Theorem bookSourceName_decides file d rest B out :
  (json_loads file = inr (JObject d) /\ rest = []
   \/ json_loads file = inr (JArray (JObject d :: rest))) ->
  dict_get (py "bookSourceName") d = Some (JString B) ->
  serialize (JArray (JObject d :: rest)) = Some out ->
  process_json_content file
  = inr (out, py "book_source", py "bookSourceName",
         JString (strip (re_sub_illegal B)))
  /\ json_loads out = inr (JArray (JObject d :: rest)).
Proof.
  intros Hshape Hb Hser.
  assert (Hwf : json_wf (JArray (JObject d :: rest))).
  { destruct Hshape as [[Hl ->] | Hl].
    - constructor. constructor; [ | constructor ].
      eapply json_loads_wf. exact Hl.
    - eapply json_loads_wf. exact Hl. }
  split.
  - apply process_of_try_ok.
    destruct Hshape as [[Hl ->] | Hl].
    + rewrite (process_try_object _ _ Hl), (classify_book _ _ Hb).
      rewrite clean_name_string, Hser. reflexivity.
    + rewrite (process_try_array _ _ _ Hl), (classify_book _ _ Hb).
      rewrite clean_name_string, Hser. reflexivity.
  - apply json_loads_serialize; assumption.
Qed.

Lemma bookSourceName_decides_witness :
  exists out,
    process_json_content
      (sample "{'sourceName': 'Feed1', 'bookSourceName': ' B:1 '}")
    = inr (out, py "book_source", py "bookSourceName", JString (py "B1"))
    /\ json_loads out
       = inr (JArray [JObject [(py "sourceName", JString (py "Feed1"));
                               (py "bookSourceName",
                                JString (py " B:1 "))]]).
Proof.
  lazymatch eval vm_compute in
      (serialize (JArray [JObject [(py "sourceName", JString (py "Feed1"));
                                   (py "bookSourceName",
                                    JString (py " B:1 "))]])) with
  | Some ?o => exists o
  end.
  change (JString (py "B1"))
    with (JString (strip (re_sub_illegal (py " B:1 ")))).
  apply (bookSourceName_decides
           (sample "{'sourceName': 'Feed1', 'bookSourceName': ' B:1 '}")
           [(py "sourceName", JString (py "Feed1"));
            (py "bookSourceName", JString (py " B:1 "))] [] (py " B:1 ")).
  - left. split; vm_compute; reflexivity.
  - vm_compute. reflexivity.
  - vm_compute. reflexivity.
Defined.

(** X6. The kind and the name field that [process_json_content] returns go
    together, and [get_folder_name] never answers [others] for them. *)
Theorem folder_is_never_others file out ft nf nv :
  process_json_content file = inr (out, ft, nf, nv) ->
  (ft = py "book_source" /\ nf = py "bookSourceName"
   /\ get_folder_name ft = py "book-sources")
  \/ (ft = py "subscription_source" /\ nf = py "sourceName"
      /\ get_folder_name ft = py "subscription-sources").
Proof.
  intros Hp.
  destruct (process_accepted_inv _ _ _ _ _ Hp)
    as (doc & d & nv0 & _ & _ & Hc & _).
  destruct (classify_inv _ _ _ _ Hc) as [(-> & -> & _) | (-> & -> & _)];
    [ left | right ]; repeat split; reflexivity.
Qed.

Lemma folder_is_never_others_witness :
  exists out ft nf nv,
    process_json_content (sample "[{'sourceName': 'Feed1'}]")
    = inr (out, ft, nf, nv)
    /\ ((ft = py "book_source" /\ nf = py "bookSourceName"
         /\ get_folder_name ft = py "book-sources")
        \/ (ft = py "subscription_source" /\ nf = py "sourceName"
            /\ get_folder_name ft = py "subscription-sources")).
Proof.
  lazymatch eval vm_compute in
      (process_json_content (sample "[{'sourceName': 'Feed1'}]")) with
  | inr (?o, ?ft, ?nf, ?nv) => exists o, ft, nf, nv
  end.
  match goal with
  | |- ?A /\ _ => assert (Hp : A) by (vm_compute; reflexivity)
  end.
  split; [ exact Hp | ].
  apply (folder_is_never_others _ _ _ _ _ Hp).
Defined.

(** ** The bytes that are returned *)

(** X7. Whatever encoding the uploaded file uses (UTF-8 with or without a byte
    order mark, UTF-16, UTF-32), the bytes that [process_json_content]
    returns are the UTF-8 encoding of the text that [json.dumps] writes for
    the array: they decode, as UTF-8, to that text. *)
Theorem canonical_bytes_are_utf8 file out ft nf nv :
  process_json_content file = inr (out, ft, nf, nv) ->
  exists d rest,
    (json_loads file = inr (JObject d) /\ rest = []
     \/ json_loads file = inr (JArray (JObject d :: rest)))
    /\ utf8_encode (json_dumps (JArray (JObject d :: rest))) = Some out
    /\ utf8_decode out = Some (json_dumps (JArray (JObject d :: rest))).
Proof.
  intros Hp.
  destruct (process_accepted_inv _ _ _ _ _ Hp)
    as (doc & d & nv0 & Hl & Hshape & _ & _).
  destruct Hshape as [[-> Hs] | [[rest ->] Hs]].
  - exists d, []. split; [ left; split; [ exact Hl | reflexivity ] | ].
    split; [ exact Hs | ]. apply utf8_decode_encode. exact Hs.
  - exists d, rest. split; [ right; exact Hl | ].
    split; [ exact Hs | ]. apply utf8_decode_encode. exact Hs.
Qed.

Lemma canonical_bytes_are_utf8_witness :
  let utf16 :=
    map byte_of (0xFF :: 0xFE
                 :: flat_map (fun c => [c; 0])
                      (map Byte.to_N (sample "[{'sourceName':'A'}]"))) in
  exists out ft nf nv,
    process_json_content utf16 = inr (out, ft, nf, nv)
    /\ utf8_decode out
       = Some (json_dumps
                 (JArray [JObject [(py "sourceName", JString (py "A"))]])).
Proof.
  intros utf16.
  lazymatch eval vm_compute in (process_json_content utf16) with
  | inr (?o, ?ft, ?nf, ?nv) => exists o, ft, nf, nv
  end.
  match goal with
  | |- ?A /\ _ => assert (Hp : A) by (vm_compute; reflexivity)
  end.
  split; [ exact Hp | ].
  destruct (canonical_bytes_are_utf8 _ _ _ _ _ Hp)
    as (d & rest & Hshape & _ & Hdec).
  rewrite Hdec. f_equal. f_equal.
  destruct Hshape as [[Hl _] | Hl]; vm_compute in Hl.
  - discriminate Hl.
  - injection Hl as <- <-. reflexivity.
Defined.

Lemma escape_char_plain c :
  32 <= c -> c <> 34 -> c <> 92 -> escape_char c = [c].
Proof.
  intros H32 H34 H92. unfold escape_char.
  repeat match goal with
         | |- context [if ?x =? ?y then _ else _] =>
           destruct (N.eqb_spec x y); [ lia | ]
         end.
  destruct (N.ltb_spec c 32); [ lia | reflexivity ].
Qed.

Lemma encode_basestring_plain s :
  (forall c, In c s -> 32 <= c /\ c <> 34 /\ c <> 92) ->
  encode_basestring s = 34 :: s ++ [34].
Proof.
  intros H. unfold encode_basestring. f_equal. f_equal.
  induction s as [ | c t IH]; [ reflexivity | ].
  cbn [flat_map]. rewrite IH by (intros x Hx; apply H; right; exact Hx).
  destruct (H c (or_introl eq_refl)) as (H1 & H2 & H3).
  rewrite escape_char_plain by assumption. reflexivity.
Qed.

(** X8. For a document that holds one object with one member whose value is a
    string, the bytes returned are the UTF-8 text of an array over five
    lines, indented by two spaces for each level, with the key and the
    string written between double quotes as they are: characters outside
    ASCII are not escaped (only the double quote, the backslash and the
    control characters would be). *)
Theorem canonical_text_of_one_name file k s out ft nf nv :
  json_loads file = inr (JObject [(k, JString s)])
  \/ json_loads file = inr (JArray [JObject [(k, JString s)]]) ->
  (forall c, In c k -> 32 <= c /\ c <> 34 /\ c <> 92) ->
  (forall c, In c s -> 32 <= c /\ c <> 34 /\ c <> 92) ->
  process_json_content file = inr (out, ft, nf, nv) ->
  utf8_decode out
  = Some ([91; 10] ++ [32; 32; 123; 10]
          ++ [32; 32; 32; 32; 34] ++ k ++ [34; 58; 32; 34] ++ s ++ [34; 10]
          ++ [32; 32; 125; 10] ++ [93]).
Proof.
  intros Hl Hk Hs Hp.
  destruct (process_accepted_canonical _ _ _ _ _ Hp)
    as (d & rest & nv0 & Hshape & _ & _ & Hser & _).
  assert (Hd : d = [(k, JString s)] /\ rest = []).
  { destruct Hl as [Hl | Hl]; destruct Hshape as [[Hl' Hr] | Hl'];
      rewrite Hl in Hl'; try discriminate Hl';
      injection Hl'; intros; subst; split; reflexivity. }
  destruct Hd as [-> ->].
  rewrite (utf8_decode_encode _ _ Hser). f_equal.
  unfold json_dumps. cbn [iterencode map join_chunks fst snd List.concat].
  rewrite (encode_basestring_plain k Hk), (encode_basestring_plain s Hs).
  cbn. rewrite ?app_nil_r. cbn [app].
  repeat (rewrite <- app_assoc; cbn [app]). reflexivity.
Qed.

Lemma canonical_text_of_one_name_witness :
  exists out ft nf nv,
    process_json_content (sample "{'bookSourceName':'测试 1'}")
    = inr (out, ft, nf, nv)
    /\ utf8_decode out
       = Some ([91; 10] ++ [32; 32; 123; 10]
               ++ [32; 32; 32; 32; 34] ++ py "bookSourceName"
               ++ [34; 58; 32; 34] ++ py "测试 1" ++ [34; 10]
               ++ [32; 32; 125; 10] ++ [93]).
Proof.
  lazymatch eval vm_compute in
      (process_json_content (sample "{'bookSourceName':'测试 1'}")) with
  | inr (?o, ?ft, ?nf, ?nv) => exists o, ft, nf, nv
  end.
  match goal with
  | |- ?A /\ _ => assert (Hp : A) by (vm_compute; reflexivity)
  end.
  split; [ exact Hp | ].
  eapply (canonical_text_of_one_name
            (sample "{'bookSourceName':'测试 1'}")
            (py "bookSourceName") (py "测试 1")).
  - left. vm_compute. reflexivity.
  - intros c Hc. vm_compute in Hc.
    repeat (destruct Hc as [<- | Hc]; [ lia | ]). destruct Hc.
  - intros c Hc. vm_compute in Hc.
    repeat (destruct Hc as [<- | Hc]; [ lia | ]). destruct Hc.
  - exact Hp.
Defined.

(** ** Cleaning a clean name *)

Lemma re_sub_illegal_fixed s :
  (forall c, In c s -> ~ In c illegal_chars) -> re_sub_illegal s = s.
Proof.
  induction s as [ | c t IH]; intros H; [ reflexivity | ].
  cbn [re_sub_illegal].
  destruct (is_illegal c) eqn:Hc.
  - exfalso. apply (H c); [ left; reflexivity | ].
    apply is_illegal_In. exact Hc.
  - f_equal. apply IH. intros x Hx. apply H. right. exact Hx.
Qed.

Lemma strip_fixed s :
  (forall c t, s = c :: t -> isspace c = false) ->
  (forall t c, s = t ++ [c] -> isspace c = false) ->
  strip s = s.
Proof.
  intros Hh Hl. unfold strip.
  assert (Hls : lstrip s = s).
  { destruct s as [ | c t]; [ reflexivity | ].
    cbn [lstrip]. rewrite (Hh c t eq_refl). reflexivity. }
  rewrite Hls. clear Hls Hh.
  induction s as [ | c t _] using rev_ind; [ reflexivity | ].
  rewrite rstrip_snoc, (Hl t c eq_refl). reflexivity.
Qed.

(** X9. A name that holds none of the nine characters and neither starts nor
    ends with white space is kept as it is. *)
Theorem clean_name_is_kept s :
  (forall c, In c s -> ~ In c illegal_chars) ->
  (forall c t, s = c :: t -> isspace c = false) ->
  (forall t c, s = t ++ [c] -> isspace c = false) ->
  clean_name (JString s) = inr (JString s).
Proof.
  intros Hi Hh Hl. rewrite clean_name_string.
  rewrite (re_sub_illegal_fixed s Hi), (strip_fixed s Hh Hl). reflexivity.
Qed.

Lemma clean_name_is_kept_witness :
  clean_name (JString (py "My source 1")) = inr (JString (py "My source 1")).
Proof.
  apply (clean_name_is_kept (py "My source 1")).
  - intros c Hc Hi. vm_compute in Hc, Hi.
    repeat (destruct Hc as [<- | Hc];
            [ repeat (destruct Hi as [Hi | Hi]; [ discriminate Hi | ]);
              exact Hi | ]).
    exact Hc.
  - intros c t H. vm_compute in H. injection H as <- _. reflexivity.
  - intros t c H.
    change (py "My source 1") with (py "My source " ++ [49]) in H.
    apply app_inj_tail in H. destruct H as [_ <-]. reflexivity.
Defined.

(** X10. Cleaning a cleaned name changes nothing. *)
Theorem cleaning_is_idempotent s :
  strip (re_sub_illegal (strip (re_sub_illegal s)))
  = strip (re_sub_illegal s).
Proof.
  rewrite (re_sub_illegal_fixed (strip (re_sub_illegal s))).
  - apply strip_fixed; [ apply strip_head | apply strip_last ].
  - intros c Hc Hi. exact (strip_removed s c Hi Hc).
Qed.

(** * The exchanges of [upload_file_to_github] *)

(** ** The base64 text is ASCII *)

Lemma list_ind3 {A} (P : list A -> Prop) :
  P [] -> (forall a, P [a]) -> (forall a b, P [a; b]) ->
  (forall a b c t, P t -> P (a :: b :: c :: t)) ->
  forall l, P l.
Proof.
  intros H0 H1 H2 H3. fix IH 1.
  intros [ | a [ | b [ | c t]]];
    [ exact H0 | exact (H1 a) | exact (H2 a b) | exact (H3 a b c t (IH t)) ].
Qed.

Lemma b64_char_ascii i : b64_char i < 128.
Proof.
  unfold b64_char.
  destruct (i <? 26) eqn:H1; [ apply N.ltb_lt in H1; lia | ].
  destruct (i <? 52) eqn:H2; [ apply N.ltb_lt in H2; lia | ].
  destruct (i <? 62) eqn:H3; [ apply N.ltb_lt in H3; lia | ].
  destruct (i =? 62); lia.
Qed.

Lemma b64encode_N_ascii bs : Forall (fun c => c < 128) (b64encode_N bs).
Proof.
  induction bs as [ | a | a b | a b c t IH] using list_ind3;
    cbn [b64encode_N];
    repeat (constructor; try apply b64_char_ascii; try lia).
  exact IH.
Qed.

Lemma map_to_N_byte_of l :
  Forall (fun c => c < 128) l -> map Byte.to_N (map byte_of l) = l.
Proof.
  induction 1 as [ | c l Hc _ IH]; [ reflexivity | ].
  cbn [map]. rewrite IH, to_N_byte_of by lia. reflexivity.
Qed.

Lemma b64encode_decodes out :
  utf8_decode (b64encode out) = Some (b64encode_N (map Byte.to_N out)).
Proof.
  unfold utf8_decode, b64encode.
  rewrite map_to_N_byte_of by apply b64encode_N_ascii.
  apply utf8_decode_N_ascii, b64encode_N_ascii.
Qed.

(** ** The read and the write *)

(** The exchanges of an accepted upload, with the base64 text in place. *)
Lemma upload_accepted_trace remote repo branch msg token file out ft nf nv :
  process_json_content file = inr (out, ft, nf, nv) ->
  truthy nv = true ->
  let path := file_path_of ft nv in
  let url := base_url_of repo path in
  let h := headers_of token in
  let g := requests_get remote url h in
  run (upload_file_to_github remote repo branch msg token file) =
  match g with
  | inl e => (inl (reraise e), [Get url h g])
  | inr read =>
    match write_data msg (b64encode_N (map Byte.to_N out)) branch read with
    | inl e => (inl (reraise e), [Get url h g])
    | inr data =>
      let p := requests_put remote url h data in
      (reraised (write_outcome path p), [Get url h g; Put url h data p])
    end
  end.
Proof.
  intros Hp Ht path url h g.
  rewrite (upload_accepted_run remote repo branch msg token _ _ _ _ _ Hp Ht).
  fold path url h g. rewrite b64encode_decodes. reflexivity.
Qed.

(** X11. Every upload sends nothing, or one read, or one read and then one
    write; both requests go to the same address of the contents API of the
    repository, with the same three headers, and a write is only sent after
    the read was answered. *)
Theorem at_most_one_read_then_one_write remote repo branch msg token file :
  let tr := snd (run (upload_file_to_github remote repo branch msg token
                                            file)) in
  tr = []
  \/ exists path,
       let url := py "https://api.github.com/repos/" ++ repo
                  ++ py "/contents/" ++ path in
       let h := [(py "Authorization", py "token " ++ token);
                 (py "Accept", py "application/vnd.github.v3+json");
                 (py "User-Agent", py "FastAPI-Uploader")] in
       (exists g, tr = [Get url h g])
       \/ (exists read data p, tr = [Get url h (inr read); Put url h data p]).
Proof.
  intros tr. subst tr.
  destruct (upload_refused_or_accepted remote repo branch msg token file)
    as [[detail Hd] | (out & ft & nf & nv & Hp & Ht)].
  { left. rewrite Hd. reflexivity. }
  right. exists (file_path_of ft nv). cbv zeta.
  pose proof (upload_accepted_trace remote repo branch msg token _ _ _ _ _
                                    Hp Ht) as Hrun.
  cbv zeta in Hrun. rewrite Hrun.
  change (py "https://api.github.com/repos/" ++ repo ++ py "/contents/"
          ++ file_path_of ft nv) with (base_url_of repo (file_path_of ft nv)).
  change [(py "Authorization", py "token " ++ token);
          (py "Accept", py "application/vnd.github.v3+json");
          (py "User-Agent", py "FastAPI-Uploader")] with (headers_of token).
  destruct (requests_get remote _ _) as [e | read].
  { left. eexists. reflexivity. }
  destruct (write_data _ _ _ _) as [e | data].
  { left. eexists. reflexivity. }
  right. eexists _, _, _. reflexivity.
Qed.

(** X12. Once an upload is accepted and the read is answered, the write is sent
    unless the read had status 200 and a body without a usable [sha]: its
    body holds, in this order, the commit message, the base64 text of the
    bytes that [process_json_content] returned and the branch, followed by
    [sha] when the read had status 200. *)
Theorem write_payload
    remote repo branch msg token file out ft nf nv read :
  process_json_content file = inr (out, ft, nf, nv) ->
  truthy nv = true ->
  let url := base_url_of repo (file_path_of ft nv) in
  let h := headers_of token in
  let data := [(py "message", JString msg);
               (py "content", JString (b64encode_N (map Byte.to_N out)));
               (py "branch", JString branch)] in
  requests_get remote url h = inr read ->
  (status_code read <> 200%Z ->
   snd (run (upload_file_to_github remote repo branch msg token file))
   = [Get url h (inr read);
      Put url h data (requests_put remote url h data)])
  /\ (forall info version,
         status_code read = 200%Z ->
         resp_json read = inr info ->
         subscript info (py "sha") = inr version ->
         snd (run (upload_file_to_github remote repo branch msg token file))
         = [Get url h (inr read);
            Put url h (data ++ [(py "sha", version)])
                (requests_put remote url h
                              (data ++ [(py "sha", version)]))]).
Proof.
  intros Hp Ht url h data Hg.
  pose proof (upload_accepted_trace remote repo branch msg token _ _ _ _ _
                                    Hp Ht) as Hrun.
  cbv zeta in Hrun. fold url h in Hrun. rewrite Hrun, Hg. clear Hrun.
  unfold write_data. fold data. split.
  - intros Hs. apply Z.eqb_neq in Hs. rewrite Hs. reflexivity.
  - intros info version Hs Hj Hv. rewrite Hs, Hj, Hv.
    cbn [Z.eqb Pos.eqb]. reflexivity.
Qed.

Lemma write_payload_witness :
  let file := sample "{'bookSourceName':'Test'}" in
  let run_with g :=
    snd (run (upload_file_to_github (fixed_remote g 201 (inr JNull))
                (py "org/repo") (py "main") (py "add") (py "t") file)) in
  exists out ft nf nv,
    process_json_content file = inr (out, ft, nf, nv)
    /\ (exists url h p,
           run_with 404%Z
           = [Get url h (inr (mkResponse 404
                     (inr (JObject [(py "sha", JString (py "abc123"))]))));
              Put url h
                  [(py "message", JString (py "add"));
                   (py "content", JString (b64encode_N (map Byte.to_N out)));
                   (py "branch", JString (py "main"))] p])
    /\ (exists url h p,
           run_with 200%Z
           = [Get url h (inr (mkResponse 200
                     (inr (JObject [(py "sha", JString (py "abc123"))]))));
              Put url h
                  [(py "message", JString (py "add"));
                   (py "content", JString (b64encode_N (map Byte.to_N out)));
                   (py "branch", JString (py "main"));
                   (py "sha", JString (py "abc123"))] p]).
Proof.
  intros file run_with. subst file run_with. cbv beta.
  lazymatch eval vm_compute in
      (process_json_content (sample "{'bookSourceName':'Test'}")) with
  | inr (?o, ?ft, ?nf, ?nv) => exists o, ft, nf, nv
  end.
  match goal with
  | |- ?A /\ _ => assert (Hp : A) by (vm_compute; reflexivity)
  end.
  split; [ exact Hp | ]. split.
  - destruct (write_payload (fixed_remote 404 201 (inr JNull))
                (py "org/repo") (py "main") (py "add") (py "t") _ _ _ _ _
                (mkResponse 404
                   (inr (JObject [(py "sha", JString (py "abc123"))])))
                Hp eq_refl eq_refl) as [H _].
    rewrite H by (cbn; discriminate).
    eexists _, _, _. reflexivity.
  - destruct (write_payload (fixed_remote 200 201 (inr JNull))
                (py "org/repo") (py "main") (py "add") (py "t") _ _ _ _ _
                (mkResponse 200
                   (inr (JObject [(py "sha", JString (py "abc123"))])))
                Hp eq_refl eq_refl) as [_ H].
    rewrite (H _ (JString (py "abc123")) eq_refl eq_refl eq_refl).
    eexists _, _, _. reflexivity.
Defined.




(** ** The base64 text determines the bytes *)

Ltac b64_cases :=
  unfold b64_char;
  repeat match goal with
         | |- context [if ?x <? ?y then _ else _] =>
           let H := fresh in destruct (N.ltb_spec x y) as [H | H]
         | |- context [if ?x =? ?y then _ else _] =>
           let H := fresh in destruct (N.eqb_spec x y) as [H | H]
         end.

Lemma b64_char_inj i j : i < 64 -> j < 64 -> b64_char i = b64_char j -> i = j.
Proof. intros Hi Hj. b64_cases; lia. Qed.

Lemma b64_char_not_pad i : b64_char i <> 61.
Proof. b64_cases; lia. Qed.

Lemma b64_digits a b c a' b' c' :
  a < 256 -> b < 256 -> c < 256 -> a' < 256 -> b' < 256 -> c' < 256 ->
  a / 4 = a' / 4 ->
  (a mod 4) * 16 + b / 16 = (a' mod 4) * 16 + b' / 16 ->
  (b mod 16) * 4 + c / 64 = (b' mod 16) * 4 + c' / 64 ->
  c mod 64 = c' mod 64 ->
  a = a' /\ b = b' /\ c = c'.
Proof.
  intros Ha Hb Hc Ha' Hb' Hc'.
  pose proof (N.div_mod a 4 ltac:(lia)). pose proof (N.mod_lt a 4 ltac:(lia)).
  pose proof (N.div_mod a' 4 ltac:(lia)). pose proof (N.mod_lt a' 4 ltac:(lia)).
  pose proof (N.div_mod b 16 ltac:(lia)). pose proof (N.mod_lt b 16 ltac:(lia)).
  pose proof (N.div_mod b' 16 ltac:(lia)). pose proof (N.mod_lt b' 16 ltac:(lia)).
  pose proof (N.div_mod c 64 ltac:(lia)). pose proof (N.mod_lt c 64 ltac:(lia)).
  pose proof (N.div_mod c' 64 ltac:(lia)). pose proof (N.mod_lt c' 64 ltac:(lia)).
  generalize dependent (a / 4). generalize dependent (a mod 4).
  generalize dependent (a' / 4). generalize dependent (a' mod 4).
  generalize dependent (b / 16). generalize dependent (b mod 16).
  generalize dependent (b' / 16). generalize dependent (b' mod 16).
  generalize dependent (c / 64). generalize dependent (c mod 64).
  generalize dependent (c' / 64). generalize dependent (c' mod 64).
  intros. lia.
Qed.

Ltac b64_bound :=
  match goal with
  | |- ?x / ?d < 64 => apply N.Div0.div_lt_upper_bound; lia
  | |- ?x mod 64 < 64 => apply N.mod_lt; lia
  | |- (?x mod ?m) * ?k + ?y / ?d < 64 =>
    let H1 := fresh in let H2 := fresh in
    assert (H1 : x mod m < m) by (apply N.mod_lt; lia);
    assert (H2 : y / d < k) by (apply N.Div0.div_lt_upper_bound; lia);
    generalize dependent (x mod m); generalize dependent (y / d);
    intros; lia
  | |- (?x mod ?m) * ?k < 64 =>
    let H1 := fresh in
    assert (H1 : x mod m < m) by (apply N.mod_lt; lia);
    generalize dependent (x mod m); intros; lia
  end.

Lemma b64encode_N_inj la :
  Forall (fun x => x < 256) la ->
  forall lb, Forall (fun x => x < 256) lb ->
  b64encode_N la = b64encode_N lb -> la = lb.
Proof.
  induction la as [ | a | a b | a b c t IH] using list_ind3;
    intros Hla lb Hlb;
    destruct lb as [ | a' [ | b' [ | c' t']]]; cbn [b64encode_N];
    intros Heq; try discriminate Heq; try reflexivity;
    repeat match goal with
           | H : Forall _ (_ :: _) |- _ => inversion_clear H
           end;
    injection Heq; intros;
    try (exfalso; eapply b64_char_not_pad; eauto; fail);
    try (exfalso; eapply b64_char_not_pad; symmetry; eauto; fail).
  - (* one byte *)
    repeat match goal with
           | H : b64_char _ = b64_char _ |- _ =>
             apply b64_char_inj in H; [ | b64_bound | b64_bound ]
           end.
    destruct (b64_digits a 0 0 a' 0 0) as (-> & _); try lia; try reflexivity.
  - (* two bytes *)
    repeat match goal with
           | H : b64_char _ = b64_char _ |- _ =>
             apply b64_char_inj in H; [ | b64_bound | b64_bound ]
           end.
    destruct (b64_digits a b 0 a' b' 0) as (-> & -> & _); try lia;
      try reflexivity.
  - (* three bytes and more *)
    repeat match goal with
           | H : b64_char _ = b64_char _ |- _ =>
             apply b64_char_inj in H; [ | b64_bound | b64_bound ]
           end.
    destruct (b64_digits a b c a' b' c') as (-> & -> & ->); try lia.
    f_equal. f_equal. f_equal. apply IH; assumption.
Qed.

Lemma to_N_lt_256 (l : bytes) : Forall (fun x => x < 256) (map Byte.to_N l).
Proof.
  induction l as [ | b l IH]; constructor; [ | exact IH ].
  pose proof (Byte.to_N_bounded b). lia.
Qed.

Lemma map_to_N_inj (x y : bytes) : map Byte.to_N x = map Byte.to_N y -> x = y.
Proof.
  revert y. induction x as [ | a x IH]; intros [ | b y]; cbn [map];
    intros H; try discriminate H; [ reflexivity | ].
  injection H as Hab Hxy. f_equal; [ | apply IH; exact Hxy ].
  pose proof (Byte.of_to_N a) as Ha. rewrite Hab, Byte.of_to_N in Ha.
  injection Ha as ->. reflexivity.
Qed.

(** X14. Two different byte strings never have the same base64 text: the
    [content] of a write determines the bytes that were uploaded. *)
Theorem b64encode_injective (x y : bytes) :
  x <> y -> b64encode x <> b64encode y.
Proof.
  intros Hne Heq. apply Hne. apply map_to_N_inj.
  apply b64encode_N_inj; try apply to_N_lt_256.
  unfold b64encode in Heq.
  apply (f_equal (map Byte.to_N)) in Heq.
  rewrite !map_to_N_byte_of in Heq by apply b64encode_N_ascii.
  exact Heq.
Qed.

Lemma b64encode_injective_witness :
  b64encode (sample "[1]") <> b64encode (sample "[2]").
Proof.
  apply (b64encode_injective (sample "[1]") (sample "[2]")).
  vm_compute. discriminate.
Defined.

(** ** The returned path *)

Lemma write_outcome_inr path p path' :
  reraised (write_outcome path p) = inr path' ->
  path' = path
  /\ exists ur, p = inr ur
                /\ (status_code ur = 200 \/ status_code ur = 201)%Z.
Proof.
  destruct p as [e | ur]; cbn [write_outcome reraised]; [ discriminate | ].
  destruct (status_code ur =? 201)%Z eqn:H1.
  - cbn [orb reraised]. intros H; injection H as <-. split; [ reflexivity | ].
    exists ur. apply Z.eqb_eq in H1. auto.
  - destruct (status_code ur =? 200)%Z eqn:H0.
    + cbn [orb reraised]. intros H; injection H as <-.
      split; [ reflexivity | ].
      exists ur. apply Z.eqb_eq in H0. auto.
    + cbn [orb reraised]. discriminate.
Qed.

(** A returned path: the upload was accepted, the read was answered, and
    the write was answered with status 200 or 201. *)
Lemma upload_success_inv remote repo branch msg token file path :
  fst (run (upload_file_to_github remote repo branch msg token file))
  = inr path ->
  exists out ft nf nv read data ur,
    process_json_content file = inr (out, ft, nf, nv)
    /\ truthy nv = true
    /\ path = file_path_of ft nv
    /\ (status_code ur = 200 \/ status_code ur = 201)%Z
    /\ snd (run (upload_file_to_github remote repo branch msg token file))
       = [Get (base_url_of repo path) (headers_of token) (inr read);
          Put (base_url_of repo path) (headers_of token) data (inr ur)].
Proof.
  intros Hr.
  destruct (upload_refused_or_accepted remote repo branch msg token file)
    as [[detail Hd] | (out & ft & nf & nv & Hp & Ht)].
  { rewrite Hd in Hr. discriminate. }
  pose proof (upload_accepted_trace remote repo branch msg token _ _ _ _ _
                                    Hp Ht) as Hrun.
  cbv zeta in Hrun. rewrite Hrun in Hr |- *.
  exists out, ft, nf, nv.
  destruct (requests_get remote _ _) as [e | read]; [ discriminate | ].
  destruct (write_data _ _ _ _) as [e | data]; [ discriminate | ].
  cbn [fst snd] in Hr |- *.
  destruct (write_outcome_inr _ _ _ Hr) as (-> & ur & Hput & Hst).
  exists read, data, ur. rewrite Hput.
  repeat (split; [ first [ assumption | reflexivity ] | ]). reflexivity.
Qed.

(** X15. A path is returned exactly when the write was sent and answered with
    status 200 or 201; the path is the one the two requests address. *)
Theorem success_iff_write_acknowledged remote repo branch msg token file :
  let outcome :=
    run (upload_file_to_github remote repo branch msg token file) in
  ((exists path, fst outcome = inr path)
   <-> (exists url h data ur,
           In (Put url h data (inr ur)) (snd outcome)
           /\ (status_code ur = 200 \/ status_code ur = 201)%Z))
  /\ (forall path,
         fst outcome = inr path ->
         exists read data ur,
           snd outcome
           = [Get (base_url_of repo path) (headers_of token) (inr read);
              Put (base_url_of repo path) (headers_of token) data (inr ur)]
           /\ (status_code ur = 200 \/ status_code ur = 201)%Z).
Proof.
  intros outcome. subst outcome. split; [ split | ].
  - intros [path Hr].
    destruct (upload_success_inv _ _ _ _ _ _ _ Hr)
      as (out & ft & nf & nv & read & data & ur & _ & _ & _ & Hst & Htr).
    exists (base_url_of repo path), (headers_of token), data, ur.
    rewrite Htr. split; [ right; left; reflexivity | exact Hst ].
  - intros (url & h & data & ur & Hin & Hst).
    destruct (upload_write_inv _ _ _ _ _ _ _ _ _ _ Hin)
      as (out & ft & nf & nv & read & content
          & _ & _ & _ & _ & _ & _ & _ & _ & Hrun).
    exists (file_path_of ft nv). rewrite Hrun. cbn [fst].
    apply write_outcome_success. exact Hst.
  - intros path Hr.
    destruct (upload_success_inv _ _ _ _ _ _ _ Hr)
      as (out & ft & nf & nv & read & data & ur & _ & _ & _ & Hst & Htr).
    exists read, data, ur. split; [ exact Htr | exact Hst ].
Qed.

Lemma success_iff_write_acknowledged_witness :
  exists path read data ur,
    run (upload_file_to_github (fixed_remote 200 200 (inr JNull))
           (py "org/repo") (py "main") (py "add") (py "t")
           (sample "{'bookSourceName':'Test'}"))
    = (inr path,
       [Get (base_url_of (py "org/repo") path) (headers_of (py "t"))
            (inr read);
        Put (base_url_of (py "org/repo") path) (headers_of (py "t")) data
            (inr ur)])
    /\ (status_code ur = 200 \/ status_code ur = 201)%Z.
Proof.
  lazymatch eval vm_compute in
      (fst (run (upload_file_to_github (fixed_remote 200 200 (inr JNull))
                   (py "org/repo") (py "main") (py "add") (py "t")
                   (sample "{'bookSourceName':'Test'}")))) with
  | inr ?p => exists p
  end.
  match goal with
  | |- exists read data ur, run ?m = (inr ?p, _) /\ _ =>
    assert (Hr : fst (run m) = inr p) by (vm_compute; reflexivity);
    destruct (success_iff_write_acknowledged
                (fixed_remote 200 200 (inr JNull))
                (py "org/repo") (py "main") (py "add") (py "t")
                (sample "{'bookSourceName':'Test'}")) as [_ H];
    destruct (H p Hr) as (read & data & ur & Htr & Hst);
    exists read, data, ur; split; [ | exact Hst ];
    rewrite (surjective_pairing (run m)); rewrite Hr, Htr; reflexivity
  end.
Defined.

Lemma count_occ_app_N (a b : str) c :
  count_occ N.eq_dec (a ++ b) c
  = (count_occ N.eq_dec a c + count_occ N.eq_dec b c)%nat.
Proof. apply count_occ_app. Qed.

(** X16. A returned path is one of the two folders, a slash, the cleaned name
    and the extension; the name is not empty, holds none of the nine
    characters and has no white space at either end, so that the path holds
    exactly one slash. *)
Theorem returned_path_shape remote repo branch msg token file path :
  fst (run (upload_file_to_github remote repo branch msg token file))
  = inr path ->
  exists folder name,
    path = folder ++ py "/" ++ name ++ py ".json"
    /\ (folder = py "book-sources" \/ folder = py "subscription-sources")
    /\ name <> []
    /\ (forall c, In c illegal_chars -> ~ In c name)
    /\ (forall c t, name = c :: t -> isspace c = false)
    /\ (forall t c, name = t ++ [c] -> isspace c = false)
    /\ count_occ N.eq_dec path 47 = 1%nat.
Proof.
  intros Hr.
  destruct (upload_success_inv _ _ _ _ _ _ _ Hr)
    as (out & ft & nf & nv & read & data & ur & Hp & Ht & -> & _ & _).
  destruct (process_accepted_inv _ _ _ _ _ Hp)
    as (doc & d & nv0 & _ & _ & Hc & Hn).
  destruct (clean_name_truthy _ _ Hn Ht) as (raw & -> & -> & Hne).
  set (name := strip (re_sub_illegal raw)) in *.
  assert (Hslash : count_occ N.eq_dec name 47 = 0%nat).
  { apply count_occ_not_In. apply strip_removed. vm_compute. auto 10. }
  exists (get_folder_name ft), name.
  split; [ reflexivity | ].
  assert (Hf : get_folder_name ft = py "book-sources"
               \/ get_folder_name ft = py "subscription-sources").
  { destruct (classify_inv _ _ _ _ Hc) as [(-> & _) | (-> & _)];
      [ left | right ]; reflexivity. }
  split; [ exact Hf | ].
  split; [ exact Hne | ].
  split; [ intros c; apply strip_removed | ].
  split; [ apply strip_head | ].
  split; [ apply strip_last | ].
  unfold file_path_of. cbn [format_value].
  rewrite !count_occ_app_N. fold name. rewrite Hslash.
  destruct Hf as [-> | ->]; reflexivity.
Qed.

Lemma returned_path_shape_witness :
  exists path folder name,
    fst (run (upload_file_to_github (fixed_remote 404 201 (inr JNull))
                (py "org/repo") (py "main") (py "add") (py "t")
                (sample "{'sourceName': ' a/b '}"))) = inr path
    /\ path = folder ++ py "/" ++ name ++ py ".json"
    /\ (folder = py "book-sources" \/ folder = py "subscription-sources")
    /\ name <> []
    /\ (forall c, In c illegal_chars -> ~ In c name)
    /\ (forall c t, name = c :: t -> isspace c = false)
    /\ (forall t c, name = t ++ [c] -> isspace c = false)
    /\ count_occ N.eq_dec path 47 = 1%nat.
Proof.
  lazymatch eval vm_compute in
      (fst (run (upload_file_to_github (fixed_remote 404 201 (inr JNull))
                   (py "org/repo") (py "main") (py "add") (py "t")
                   (sample "{'sourceName': ' a/b '}")))) with
  | inr ?p => exists p
  end.
  match goal with
  | |- exists folder name, ?A /\ _ =>
    assert (Hr : A) by (vm_compute; reflexivity)
  end.
  destruct (returned_path_shape _ _ _ _ _ _ _ Hr) as (folder & name & H).
  exists folder, name. split; [ exact Hr | exact H ].
Defined.

Lemma shape_unique file doc d (rest : list json) d' :
  json_loads file = inr doc ->
  (doc = JObject d \/ exists rest, doc = JArray (JObject d :: rest)) ->
  (doc = JObject d' \/ exists rest', doc = JArray (JObject d' :: rest')) ->
  d' = d.
Proof.
  intros _ [-> | [r ->]] [H | [r' H]]; try discriminate H;
    injection H; intros; subst; reflexivity.
Qed.

(** X17. Whenever the write is answered with status 200 or 201, the path that is
    returned is the folder of the kind, a slash, the cleaned name and the
    extension: [book-sources] for a name found under [bookSourceName],
    [subscription-sources] for a name found under [sourceName] when there is
    no [bookSourceName]. *)
Theorem path_of_acknowledged_upload
    remote repo branch msg token file doc d raw url h data ur :
  json_loads file = inr doc ->
  (doc = JObject d \/ exists rest, doc = JArray (JObject d :: rest)) ->
  In (Put url h data (inr ur))
     (snd (run (upload_file_to_github remote repo branch msg token file))) ->
  (status_code ur = 200 \/ status_code ur = 201)%Z ->
  (dict_get (py "bookSourceName") d = Some (JString raw) ->
   fst (run (upload_file_to_github remote repo branch msg token file))
   = inr (py "book-sources/" ++ strip (re_sub_illegal raw) ++ py ".json"))
  /\ (dict_get (py "bookSourceName") d = None ->
      dict_get (py "sourceName") d = Some (JString raw) ->
      fst (run (upload_file_to_github remote repo branch msg token file))
      = inr (py "subscription-sources/" ++ strip (re_sub_illegal raw)
             ++ py ".json")).
Proof.
  intros Hl Hshape Hin Hst.
  destruct (upload_write_inv _ _ _ _ _ _ _ _ _ _ Hin)
    as (out & ft & nf & nv & read & content
        & Hp & _ & _ & _ & _ & _ & _ & _ & Hrun).
  rewrite Hrun. cbn [fst]. rewrite (write_outcome_success _ _ Hst).
  destruct (process_accepted_inv _ _ _ _ _ Hp)
    as (doc' & d' & nv0 & Hl' & Hshape' & Hc & Hn).
  rewrite Hl in Hl'. injection Hl' as <-.
  assert (Hd : d' = d).
  { apply (shape_unique file doc d [] d' Hl Hshape).
    destruct Hshape' as [[H _] | [H _]]; [ left | right ]; exact H. }
  subst d'. split.
  - intros Hb. rewrite (classify_book _ _ Hb) in Hc.
    injection Hc as <- <- <-. rewrite clean_name_string in Hn.
    injection Hn as <-. reflexivity.
  - intros Hb Hs. rewrite (classify_subscription _ _ Hb Hs) in Hc.
    injection Hc as <- <- <-. rewrite clean_name_string in Hn.
    injection Hn as <-. reflexivity.
Qed.

Lemma path_of_acknowledged_upload_witness :
  fst (run (upload_file_to_github (fixed_remote 404 201 (inr JNull))
              (py "org/repo") (py "main") (py "add") (py "t")
              (sample "[{'sourceName': ' My/Feed '}, {'x': 1}]")))
  = inr (py "subscription-sources/MyFeed.json").
Proof.
  lazymatch eval vm_compute in
      (snd (run (upload_file_to_github (fixed_remote 404 201 (inr JNull))
                   (py "org/repo") (py "main") (py "add") (py "t")
                   (sample "[{'sourceName': ' My/Feed '}, {'x': 1}]")))) with
  | [_; Put ?u ?h ?d (inr ?r)] =>
    destruct (path_of_acknowledged_upload
                (fixed_remote 404 201 (inr JNull))
                (py "org/repo") (py "main") (py "add") (py "t")
                (sample "[{'sourceName': ' My/Feed '}, {'x': 1}]")
                (JArray [JObject [(py "sourceName", JString (py " My/Feed "))];
                         JObject [(py "x", JInt 1)]])
                [(py "sourceName", JString (py " My/Feed "))]
                (py " My/Feed ") u h d r) as [_ H]
  end.
  - vm_compute. reflexivity.
  - right. eexists. reflexivity.
  - vm_compute. right. left. reflexivity.
  - right. reflexivity.
  - rewrite H by (vm_compute; reflexivity). vm_compute. reflexivity.
Defined.

(** X18. Two names of different kinds, or that differ once cleaned, are never
    written to the same path. *)
Theorem path_determines_kind_and_name ft ft' a b :
  (ft = py "book_source" \/ ft = py "subscription_source") ->
  (ft' = py "book_source" \/ ft' = py "subscription_source") ->
  ft <> ft' \/ a <> b ->
  file_path_of ft (JString a) <> file_path_of ft' (JString b).
Proof.
  unfold file_path_of. cbn [format_value].
  intros [-> | ->] [-> | ->] Hne H;
    change (get_folder_name (py "book_source")) with (py "book-sources") in H;
    change (get_folder_name (py "subscription_source"))
      with (py "subscription-sources") in H;
    try (vm_compute in H; discriminate H);
    apply app_inv_head in H; apply app_inv_head in H;
    apply app_inv_tail in H; destruct Hne as [Hne | Hne]; congruence.
Qed.

Lemma path_determines_kind_and_name_witness :
  file_path_of (py "book_source") (JString (py "Test"))
  <> file_path_of (py "subscription_source") (JString (py "Test"))
  /\ file_path_of (py "book_source") (JString (py "Test"))
     <> file_path_of (py "book_source") (JString (py "Test2")).
Proof.
  split.
  - apply (path_determines_kind_and_name (py "book_source")
             (py "subscription_source") (py "Test") (py "Test")).
    + left. reflexivity.
    + right. reflexivity.
    + left. vm_compute. discriminate.
  - apply (path_determines_kind_and_name (py "book_source")
             (py "book_source") (py "Test") (py "Test2")).
    + left. reflexivity.
    + left. reflexivity.
    + right. vm_compute. discriminate.
Defined.

(** ** Failures of the remote store *)

Lemma reraise_other e :
  (forall c d, e <> HTTPException c d) ->
  reraise e
  = if is_ValueError e then HTTPException 400 (exn_str e)
    else HTTPException 500 (py "服务器内部错误: " ++ exn_str e).
Proof.
  intros Hne. unfold reraise. destruct (is_ValueError e); [ reflexivity | ].
  destruct e; try reflexivity.
  exfalso. eapply Hne. reflexivity.
Qed.

(** X19. When the read raises, no write is attempted: the only exchange is the
    read; the upload fails with status 400 and the text of the exception
    when it is a [ValueError] (an invalid address or header, for
    [requests]), with status 500 and the text of the exception after a fixed
    prefix for the other exceptions of [requests]. *)
Theorem read_exception_stops_upload
    remote repo branch msg token file out ft nf nv e :
  process_json_content file = inr (out, ft, nf, nv) ->
  truthy nv = true ->
  let url := base_url_of repo (file_path_of ft nv) in
  let h := headers_of token in
  requests_get remote url h = inl e ->
  (forall c d, e <> HTTPException c d) ->
  run (upload_file_to_github remote repo branch msg token file)
  = (inl (if is_ValueError e then HTTPException 400 (exn_str e)
          else HTTPException 500 (py "服务器内部错误: " ++ exn_str e)),
     [Get url h (inl e)]).
Proof.
  intros Hp Ht url h Hg Hne.
  pose proof (upload_accepted_trace remote repo branch msg token _ _ _ _ _
                                    Hp Ht) as Hrun.
  cbv zeta in Hrun. fold url h in Hrun. rewrite Hrun, Hg.
  unfold reraise. destruct (is_ValueError e); [ reflexivity | ].
  destruct e; try reflexivity.
  exfalso. eapply Hne. reflexivity.
Qed.

Lemma read_exception_stops_upload_witness :
  let remote :=
    mkRemote (fun _ _ => inl (OtherException (py "no route to host")))
             (fun _ _ _ => inr (mkResponse 201 (inr JNull))) in
  run (upload_file_to_github remote (py "org/repo") (py "main") (py "add")
         (py "t") (sample "{'bookSourceName':'Test'}"))
  = (inl (HTTPException 500 (py "服务器内部错误: no route to host")),
     [Get (base_url_of (py "org/repo") (py "book-sources/Test.json"))
          (headers_of (py "t"))
          (inl (OtherException (py "no route to host")))]).
Proof.
  intros remote.
  lazymatch eval vm_compute in
      (process_json_content (sample "{'bookSourceName':'Test'}")) with
  | inr (?o, ?ft, ?nf, ?nv) =>
    assert (Hp : process_json_content (sample "{'bookSourceName':'Test'}")
                 = inr (o, ft, nf, nv)) by (vm_compute; reflexivity);
    pose proof (read_exception_stops_upload remote (py "org/repo")
                  (py "main") (py "add") (py "t") _ _ _ _ _
                  (OtherException (py "no route to host")) Hp eq_refl
                  eq_refl ltac:(discriminate)) as H
  end.
  rewrite H. vm_compute. reflexivity.
Defined.

(** X20. When the read is answered with status 200 and a body that gives no
    [sha], no write is attempted: the upload fails with status 500 and the
    text of the [KeyError] when the body is a JSON object without [sha],
    with status 500 when the body is JSON but not an object, and with status
    400 and the text of the error when the body is not JSON (the error of
    [response.json()] is a [ValueError]). *)
Theorem read_200_without_sha
    remote repo branch msg token file out ft nf nv read :
  process_json_content file = inr (out, ft, nf, nv) ->
  truthy nv = true ->
  let url := base_url_of repo (file_path_of ft nv) in
  let h := headers_of token in
  let outcome :=
    run (upload_file_to_github remote repo branch msg token file) in
  requests_get remote url h = inr read ->
  status_code read = 200%Z ->
  (forall d,
      resp_json read = inr (JObject d) -> dict_get (py "sha") d = None ->
      outcome = (inl (HTTPException 500 (py "服务器内部错误: 'sha'")),
                 [Get url h (inr read)]))
  /\ (forall info,
         resp_json read = inr info -> (forall d, info <> JObject d) ->
         exists m,
           outcome = (inl (HTTPException 500 (py "服务器内部错误: " ++ m)),
                      [Get url h (inr read)]))
  /\ (forall e,
         resp_json read = inl e -> is_ValueError e = true ->
         outcome = (inl (HTTPException 400 (exn_str e)),
                    [Get url h (inr read)])).
Proof.
  intros Hp Ht url h outcome Hg Hs. subst outcome.
  pose proof (upload_accepted_trace remote repo branch msg token _ _ _ _ _
                                    Hp Ht) as Hrun.
  cbv zeta in Hrun. fold url h in Hrun. rewrite Hrun, Hg. clear Hrun.
  unfold write_data. rewrite Hs. cbn [Z.eqb Pos.eqb].
  split; [ | split ].
  - intros d Hj Hd. rewrite Hj. cbn [subscript]. rewrite Hd. reflexivity.
  - intros info Hj Hno. rewrite Hj.
    destruct info; cbn [subscript]; try (eexists; reflexivity).
    exfalso. eapply Hno. reflexivity.
  - intros e Hj Hv. rewrite Hj. unfold reraise. rewrite Hv. reflexivity.
Qed.

Lemma read_200_without_sha_witness :
  let remote :=
    mkRemote (fun _ _ => inr (mkResponse 200 (inr (JObject []))))
             (fun _ _ _ => inr (mkResponse 201 (inr JNull))) in
  run (upload_file_to_github remote (py "org/repo") (py "main") (py "add")
         (py "t") (sample "{'bookSourceName':'Test'}"))
  = (inl (HTTPException 500 (py "服务器内部错误: 'sha'")),
     [Get (base_url_of (py "org/repo") (py "book-sources/Test.json"))
          (headers_of (py "t"))
          (inr (mkResponse 200 (inr (JObject []))))]).
Proof.
  intros remote.
  lazymatch eval vm_compute in
      (process_json_content (sample "{'bookSourceName':'Test'}")) with
  | inr (?o, ?ft, ?nf, ?nv) =>
    assert (Hp : process_json_content (sample "{'bookSourceName':'Test'}")
                 = inr (o, ft, nf, nv)) by (vm_compute; reflexivity);
    destruct (read_200_without_sha remote (py "org/repo")
                (py "main") (py "add") (py "t") _ _ _ _ _
                (mkResponse 200 (inr (JObject []))) Hp eq_refl
                eq_refl eq_refl) as [H _]
  end.
  rewrite (H [] eq_refl eq_refl). vm_compute. reflexivity.
Defined.

(** X21. When the write raises, the upload fails with status 400 and the text of
    the exception when it is a [ValueError], with status 500 and the text of
    the exception after the fixed prefix otherwise; the write is not tried
    again. *)
Theorem write_exception_detail
    remote repo branch msg token file url h data e :
  In (Put url h data (inl e))
     (snd (run (upload_file_to_github remote repo branch msg token file))) ->
  (forall c d, e <> HTTPException c d) ->
  exists read,
    run (upload_file_to_github remote repo branch msg token file)
    = (inl (if is_ValueError e then HTTPException 400 (exn_str e)
            else HTTPException 500 (py "服务器内部错误: " ++ exn_str e)),
       [Get url h (inr read); Put url h data (inl e)]).
Proof.
  intros Hin Hne.
  destruct (upload_write_inv _ _ _ _ _ _ _ _ _ _ Hin)
    as (out & ft & nf & nv & read & content
        & _ & _ & _ & _ & _ & _ & _ & _ & Hrun).
  exists read. rewrite Hrun. cbn [write_outcome reraised].
  rewrite (reraise_other e Hne). reflexivity.
Qed.

Lemma write_exception_detail_witness :
  let remote :=
    mkRemote (fun _ _ => inr (mkResponse 404 (inr JNull)))
             (fun _ _ _ => inl (OtherException (py "timed out"))) in
  exists url h data read,
    run (upload_file_to_github remote (py "org/repo") (py "main") (py "add")
           (py "t") (sample "{'bookSourceName':'Test'}"))
    = (inl (HTTPException 500 (py "服务器内部错误: timed out")),
       [Get url h (inr read);
        Put url h data (inl (OtherException (py "timed out")))]).
Proof.
  intros remote.
  lazymatch eval vm_compute in
      (snd (run (upload_file_to_github remote (py "org/repo") (py "main")
                   (py "add") (py "t")
                   (sample "{'bookSourceName':'Test'}")))) with
  | [_; Put ?u ?h ?d ?p] => exists u, h, d
  end.
  match goal with
  | |- exists read, run ?m = (_, [_; ?x]) =>
    assert (Hin : In x (snd (run m)))
      by (vm_compute; right; left; reflexivity)
  end.
  destruct (write_exception_detail _ _ _ _ _ _ _ _ _ _ Hin
              ltac:(discriminate)) as [read Hrun].
  exists read. rewrite Hrun. reflexivity.
Defined.

Lemma reraise_status e :
  (forall c d, e <> HTTPException c d) ->
  exists d, reraise e = HTTPException 400 d \/ reraise e = HTTPException 500 d.
Proof.
  intros Hne. unfold reraise.
  destruct (is_ValueError e); [ eexists; left; reflexivity | ].
  destruct e; try (eexists; right; reflexivity).
  exfalso. eapply Hne. reflexivity.
Qed.

(** X22. When [requests] raises no [HTTPException] (the class belongs to the web
    framework), a failed upload carries status 400 or 500, and it carries
    400 when nothing was sent: a 500 only follows a request. *)
Theorem failure_is_400_or_500 remote repo branch msg token file e tr :
  (forall url h c d, requests_get remote url h <> inl (HTTPException c d)) ->
  (forall url h read c d,
      requests_get remote url h = inr read ->
      resp_json read <> inl (HTTPException c d)) ->
  (forall url h data c d,
      requests_put remote url h data <> inl (HTTPException c d)) ->
  run (upload_file_to_github remote repo branch msg token file)
  = (inl e, tr) ->
  exists c d,
    e = HTTPException c d
    /\ (c = 400 \/ c = 500)%Z
    /\ (tr = [] -> c = 400%Z).
Proof.
  intros Hget Hjson Hput Hrun.
  destruct (upload_refused_or_accepted remote repo branch msg token file)
    as [[detail Hd] | (out & ft & nf & nv & Hp & Ht)].
  { rewrite Hd in Hrun. injection Hrun as <- <-.
    exists 400%Z, detail. auto. }
  pose proof (upload_accepted_trace remote repo branch msg token _ _ _ _ _
                                    Hp Ht) as Hacc.
  cbv zeta in Hacc. rewrite Hacc in Hrun. clear Hacc.
  set (url := base_url_of repo (file_path_of ft nv)) in *.
  set (h := headers_of token) in *.
  destruct (requests_get remote url h) as [e0 | read] eqn:Hg.
  { injection Hrun as <- <-.
    destruct (reraise_status e0) as [d [-> | ->]].
    - intros c d He. eapply Hget. rewrite Hg, He. reflexivity.
    - exists 400%Z, d. split; [ reflexivity | ].
      split; [ auto | discriminate ].
    - exists 500%Z, d. split; [ reflexivity | ].
      split; [ auto | discriminate ]. }
  destruct (write_data _ _ _ _) as [e0 | data] eqn:Hw.
  { injection Hrun as <- <-.
    assert (Hne : forall c d, e0 <> HTTPException c d).
    { intros c d He. subst e0. unfold write_data in Hw.
      destruct (status_code read =? 200)%Z; [ | discriminate ].
      destruct (resp_json read) as [e1 | info] eqn:Hj.
      - injection Hw as ->. eapply Hjson; eassumption.
      - destruct info; cbn [subscript] in Hw; try discriminate.
        destruct (dict_get (py "sha") members); discriminate. }
    destruct (reraise_status e0 Hne) as [d [-> | ->]].
    - exists 400%Z, d. split; [ reflexivity | ].
      split; [ auto | discriminate ].
    - exists 500%Z, d. split; [ reflexivity | ].
      split; [ auto | discriminate ]. }
  cbv zeta in Hrun.
  destruct (requests_put remote url h data) as [e0 | ur] eqn:Hu.
  { injection Hrun as <- <-. cbn [write_outcome reraised].
    destruct (reraise_status e0) as [d [-> | ->]].
    - intros c d He. eapply Hput. rewrite Hu, He. reflexivity.
    - exists 400%Z, d. split; [ reflexivity | ].
      split; [ auto | discriminate ].
    - exists 500%Z, d. split; [ reflexivity | ].
      split; [ auto | discriminate ]. }
  cbn [write_outcome] in Hrun.
  destruct ((status_code ur =? 201)%Z || (status_code ur =? 200)%Z).
  - discriminate.
  - cbn [reraised] in Hrun. injection Hrun as <- <-.
    exists 400%Z, (failure_text ur). split; [ reflexivity | ].
    split; [ auto | discriminate ].
Qed.

Lemma failure_is_400_or_500_witness :
  exists e tr c d,
    run (upload_file_to_github
           (mkRemote (fun _ _ => inl (OtherException (py "no route to host")))
                     (fun _ _ _ => inr (mkResponse 201 (inr JNull))))
           (py "org/repo") (py "main") (py "add") (py "t")
           (sample "{'bookSourceName':'Test'}")) = (inl e, tr)
    /\ e = HTTPException c d
    /\ (c = 400 \/ c = 500)%Z
    /\ (tr = [] -> c = 400%Z).
Proof.
  lazymatch eval vm_compute in
      (run (upload_file_to_github
              (mkRemote
                 (fun _ _ => inl (OtherException (py "no route to host")))
                 (fun _ _ _ => inr (mkResponse 201 (inr JNull))))
              (py "org/repo") (py "main") (py "add") (py "t")
              (sample "{'bookSourceName':'Test'}"))) with
  | (inl ?e, ?tr) => exists e, tr
  end.
  match goal with
  | |- exists c d, ?A /\ _ => assert (Hrun : A) by (vm_compute; reflexivity)
  end.
  match type of Hrun with
  | run (upload_file_to_github ?r _ _ _ _ _) = _ =>
    assert (H1 : forall url h c d,
               requests_get r url h <> inl (HTTPException c d))
      by (intros; cbn; discriminate);
    assert (H2 : forall url h read c d,
               requests_get r url h = inr read ->
               resp_json read <> inl (HTTPException c d))
      by (intros; cbn in *; discriminate);
    assert (H3 : forall url h data c d,
               requests_put r url h data <> inl (HTTPException c d))
      by (intros; cbn; discriminate)
  end.
  destruct (failure_is_400_or_500 _ _ _ _ _ _ _ _ H1 H2 H3 Hrun)
    as (c & d & H).
  exists c, d. split; [ exact Hrun | exact H ].
Defined.

(** * The defaults of the simple route *)

Lemma post_upload_simple_trace remote f :
  snd (post_upload_simple remote f)
  = snd (run (upload_file_to_github remote
                (form_default (sf_repo_name f) (py "NineDrm/sourcezip"))
                (form_default (sf_branch f) (py "main"))
                (form_default (sf_commit_message f) (py "上传书源文件"))
                (sf_access_token f) (sf_file f))).
Proof.
  unfold post_upload_simple.
  destruct (upload_file_simple_run remote (sf_file f)
              (form_default (sf_repo_name f) (py "NineDrm/sourcezip"))
              (form_default (sf_branch f) (py "main"))
              (form_default (sf_commit_message f) (py "上传书源文件"))
              (sf_access_token f))
    as [(path & tr & Hu & Hs) | (c & detail & tr & Hu & Hs)];
    rewrite Hs, Hu; reflexivity.
Qed.

(** X23. A request to the simple route that gives only the file and the token
    writes to the repository, the branch and with the commit message that
    the route has as defaults. *)
Theorem simple_route_defaults remote file token url h data p :
  In (Put url h data p)
     (snd (post_upload_simple remote
             (mkSimpleForm file None None None token))) ->
  (exists path,
      url = py "https://api.github.com/repos/NineDrm/sourcezip/contents/"
            ++ path)
  /\ dict_get (py "branch") data = Some (JString (py "main"))
  /\ dict_get (py "message") data = Some (JString (py "上传书源文件")).
Proof.
  rewrite post_upload_simple_trace.
  cbn [sf_repo_name sf_branch sf_commit_message sf_access_token sf_file
       form_default].
  intros Hin.
  destruct (upload_write_inv _ _ _ _ _ _ _ _ _ _ Hin)
    as (out & ft & nf & nv & read & content
        & _ & _ & -> & _ & _ & _ & Hw & _ & _).
  destruct (write_data_sha _ _ _ _ _ Hw) as (Hm & _ & Hb & _).
  split; [ | split; assumption ].
  exists (file_path_of ft nv). reflexivity.
Qed.

Lemma simple_route_defaults_witness :
  exists url h data p,
    In (Put url h data p)
       (snd (post_upload_simple (fixed_remote 404 201 (inr JNull))
               (mkSimpleForm (sample "{'bookSourceName':'Test'}")
                             None None None (py "t"))))
    /\ url = py "https://api.github.com/repos/NineDrm/sourcezip/contents/"
             ++ py "book-sources/Test.json"
    /\ dict_get (py "branch") data = Some (JString (py "main"))
    /\ dict_get (py "message") data = Some (JString (py "上传书源文件")).
Proof.
  lazymatch eval vm_compute in
      (snd (post_upload_simple (fixed_remote 404 201 (inr JNull))
              (mkSimpleForm (sample "{'bookSourceName':'Test'}")
                            None None None (py "t")))) with
  | [_; Put ?u ?h ?d ?p] => exists u, h, d, p
  end.
  match goal with
  | |- ?A /\ _ => assert (Hin : A) by (vm_compute; right; left; reflexivity)
  end.
  split; [ exact Hin | ].
  split; [ vm_compute; reflexivity | ].
  destruct (simple_route_defaults _ _ _ _ _ _ _ Hin) as (_ & Hb & Hm).
  split; assumption.
Defined.

(** * [generate_random_string] *)

Lemma pow2_size_le m : m <> 0 -> 2 ^ N.size m <= 2 * m + 1.
Proof.
  intros _. pose proof (N.size_le m) as H.
  rewrite N.succ_double_spec in H. exact H.
Qed.

(** The rounded product of a draw and a length stays below the length. *)
Lemma round53_lt a n :
  a < 2 ^ 53 -> 0 < n -> round53 (a * n) < n * 2 ^ 53.
Proof.
  intros Ha Hn. unfold round53.
  set (m := a * n).
  set (s := N.size m - 53).
  set (p := 2 ^ s).
  assert (Hp0 : p <> 0) by (apply N.pow_nonzero; lia).
  pose proof (N.div_mod m p Hp0) as Hdm.
  pose proof (N.mod_lt m p Hp0) as Hr.
  assert (Hm : m <= (2 ^ 53 - 1) * n) by (subst m; nia).
  (* a positive shift is bounded by the population *)
  assert (Hs : (s = 0 /\ p = 1) \/ (0 < s /\ p mod 2 = 0 /\ p < 2 * n)).
  { destruct (N.eq_dec s 0) as [Hz | Hz];
      [ left; split; [ exact Hz | subst p; rewrite Hz; reflexivity ] | right ].
    split; [ lia | ].
    assert (Hm0 : m <> 0).
    { intros H0. subst s. rewrite H0 in Hz. cbn in Hz. lia. }
    split.
    - subst p. replace s with (N.succ (s - 1)) by lia.
      rewrite N.pow_succ_r'. rewrite N.mul_comm. apply N.Div0.mod_mul.
    - pose proof (pow2_size_le m Hm0) as Hsz.
      replace (N.size m) with (s + 53) in Hsz by (subst s; lia).
      rewrite N.pow_add_r in Hsz. fold p in Hsz.
      change (2 ^ 53) with 9007199254740992 in *. nia. }
  pose proof (N.div_mod p 2 ltac:(lia)) as Hh.
  pose proof (N.mod_lt p 2 ltac:(lia)) as He.
  set (q := m / p) in *. set (r := m mod p) in *.
  set (h := p / 2) in *. set (e := p mod 2) in *.
  change (2 ^ 53) with 9007199254740992 in *.
  clearbody q r h e p m.
  destruct ((h <? r) || ((h =? r) && (0 <? s) && N.odd q)) eqn:Hup.
  - destruct Hs as [[Hs Hp1] | (Hs & He0 & Hpn)].
    + exfalso.
      apply orb_true_iff in Hup. destruct Hup as [Hup | Hup].
      * apply N.ltb_lt in Hup. lia.
      * apply andb_true_iff in Hup. destruct Hup as [Hup _].
        apply andb_true_iff in Hup. destruct Hup as [Hup Hs0].
        apply N.eqb_eq in Hup. apply N.ltb_lt in Hs0.
        lia.
    + assert (h <= r).
      { apply orb_true_iff in Hup. destruct Hup as [Hup | Hup].
        - apply N.ltb_lt in Hup. lia.
        - apply andb_true_iff in Hup. destruct Hup as [Hup _].
          apply andb_true_iff in Hup. destruct Hup as [Hup _].
          apply N.eqb_eq in Hup. lia. }
      nia.
  - nia.
Qed.

Lemma index_in_range a n :
  a < 2 ^ 53 -> 0 < n -> round53 (a * n) / 2 ^ 53 < n.
Proof.
  intros Ha Hn. apply N.Div0.div_lt_upper_bound.
  rewrite (N.mul_comm (2 ^ 53) n). apply round53_lt; assumption.
Qed.

(** [random.choices] never indexes outside a population that is not
    empty. *)
Lemma choices_ok random population :
  (forall i, random i < 2 ^ 53) -> population <> [] ->
  forall k pos,
  exists s, choices random pos population k = inr (s, (pos + k)%nat)
            /\ List.length s = k
            /\ Forall (fun c => In c population) s.
Proof.
  intros Hr Hp k. induction k as [ | k IH]; intros pos.
  - exists []. cbn [choices]. rewrite Nat.add_0_r. repeat split. constructor.
  - cbn [choices].
    assert (Hi : (N.to_nat (round53 (random pos
                                     * N.of_nat (List.length population))
                            / 2 ^ 53) < List.length population)%nat).
    { assert (Hn : 0 < N.of_nat (List.length population)).
      { destruct population; [ congruence | cbn [List.length]; lia ]. }
      pose proof (index_in_range _ _ (Hr pos) Hn). lia. }
    destruct (nth_error population _) as [c | ] eqn:Hc.
    2:{ apply nth_error_None in Hc. lia. }
    destruct (IH (S pos)) as (s & -> & Hl & Hall).
    exists (c :: s). split; [ f_equal; f_equal; lia | ].
    split; [ cbn [List.length]; lia | ].
    constructor; [ | exact Hall ].
    eapply nth_error_In. exact Hc.
Qed.

(** X24. With a random source that behaves as [random.random] does (every draw
    is [a / 2^53] for an integer [a] below [2^53]), [generate_random_string]
    never raises: it returns a string of exactly [length] characters (8 by
    default, none for a negative [length]), all of them ASCII letters, and
    it draws one number for each character of the string. *)
Theorem generate_random_string_letters random pos length :
  (forall i, random i < 2 ^ 53) ->
  let k := Z.to_nat (match length with Some n => n | None => 8%Z end) in
  exists s,
    generate_random_string random pos length = inr (s, (pos + k)%nat)
    /\ List.length s = k
    /\ Forall (fun c => In c ascii_letters) s.
Proof.
  intros Hr k. unfold generate_random_string. fold k.
  apply choices_ok; [ exact Hr | discriminate ].
Qed.

Lemma generate_random_string_witness :
  exists s,
    generate_random_string (fun i => 2 ^ 53 - 1 - N.of_nat i) 0 None
    = inr (s, 8%nat)
    /\ List.length s = 8%nat
    /\ Forall (fun c => In c ascii_letters) s.
Proof.
  apply (generate_random_string_letters
           (fun i => 2 ^ 53 - 1 - N.of_nat i) 0%nat None).
  intros i. change (2 ^ 53) with 9007199254740992. lia.
Defined.
